(** * resize-image: the size-targeting searches of [png-resizer.ts] and
      [raster-resizer.ts], and the canvas requests of
      [resize-to-dimensions.ts]

    A shallow embedding of [resizePngToTarget], [fitByQuality] and
    [resizeRasterToTarget] (with [resizeJpegToTarget] and
    [resizeWebpToTarget]) together with the helpers they call, and of
    [resizeToDimensions], [hasTransparency], [isFormatSupported] and
    [getOptimalFormat].

    Conventions of the embedding.
    - A JavaScript [number] is a rational [Q].  Sums, products, comparisons
      and the midpoint [(low + high) / 2] are exact; the midpoint is kept in
      lowest terms ([Qred]).  [Math.sqrt] is a capability of the platform.
    - The browser is a [Platform]: image decoding, [canvas.toBlob], the
      optional [window.UPNG] encoder and [Math.sqrt].  Every encoder answer
      may depend on the number of encoder calls made before it, so an
      encoder need not be deterministic.
    - An [async] function is a computation in the monad [M]: it threads the
      log of encoder calls (newest first) and either returns or throws.
    - A [Blob] carries the serial number of the encoder call that made it,
      which stands for the identity of the JavaScript object.
    - The searches are modelled in a browser that gives a 2D context;
      [resizePngToTargetOn] and [resizeRasterToTargetOn] are the same runs
      in a browser that may give none, where the unguarded use of the
      context throws [NullContext].
    - For [resize-to-dimensions.ts] the browser is a [Dimensions.Browser],
      a promise is a [Dimensions.Settled] value, and what is done to the
      canvas before it is encoded is recorded as a [Dimensions.Drawing].
      A division is the division of [Q], which differs from the one of
      JavaScript only when the divisor is zero.
    - Arithmetic is exact where JavaScript computes in doubles: a rounded
      product or a comparison with [1e-3] can come out differently when
      the exact value sits on a half or on the threshold. *)

From Stdlib Require Import QArith Qround Qreduction ZArith List Bool Lia Lqa.
From Stdlib Require String.
Import ListNotations.
Open Scope Q_scope.

(** ** Numbers *)

Definition leb (a b : Q) : bool := Qle_bool a b.
Definition ltb (a b : Q) : bool := negb (Qle_bool b a).
Definition geb (a b : Q) : bool := leb b a.
Definition gtb (a b : Q) : bool := ltb b a.

Declare Scope js_scope.
Delimit Scope js_scope with js.
Infix "<=?" := leb (at level 70, no associativity) : js_scope.
Infix "<?" := ltb (at level 70, no associativity) : js_scope.
Infix ">=?" := geb (at level 70, no associativity) : js_scope.
Infix ">?" := gtb (at level 70, no associativity) : js_scope.
Open Scope js_scope.

Definition Math_max (a b : Q) : Q := if a <=? b then b else a.
Definition Math_min (a b : Q) : Q := if a <=? b then a else b.

(** [Math.round]: the nearest integer, halves rounded up. *)
Definition Math_round (x : Q) : Z := Qfloor (x + (1 # 2)).

(** [(a + b) / 2], in lowest terms. *)
Definition midpoint (a b : Q) : Q := Qred ((a + b) / 2).

(** [clamp] and [withinBuffer], the same in both source files. *)
Definition clamp (x a b : Q) : Q := Math_max a (Math_min b x).

Definition withinBuffer (size target buffer : Q) : bool :=
  (size >=? target - buffer) && (size <=? target + buffer).

(** The threshold [1e-3] of the three bisection loops. *)
Definition eps : Q := 1 # 1000.

(** A destructured option with its default value. *)
Definition dflt {A : Type} (d : A) (o : option A) : A :=
  match o with Some x => x | None => d end.

(** ** The data of the platform *)

Inductive Mime : Type := image_png | image_jpeg | image_webp.

Definition Mime_eqb (a b : Mime) : bool :=
  match a, b with
  | image_png, image_png | image_jpeg, image_jpeg | image_webp, image_webp => true
  | _, _ => false
  end.

Record Blob : Type := mkBlob {
  size : Q;
  type : Mime;
  serial : nat
}.

Record Image : Type := mkImage {
  naturalWidth : Z;
  naturalHeight : Z
}.

(** A canvas after [drawImage]: its pixel size and the scale at which the
    source image was drawn on it. *)
Record Canvas : Type := mkCanvas {
  width : Z;
  height : Z;
  drawn : Q
}.

(** What an encoder is asked: [canvas.toBlob(cb, mime, quality)] or
    [UPNG.encode([rgba], w, h, colors)]. *)
Inductive Request : Type :=
| ToBlob (mime : Mime) (quality : option Q)
| UpngEncode (colors : Q).

(** One encoder call: the canvas it read, the request, the blob it made. *)
Record Call : Type := mkCall {
  surface : Canvas;
  request : Request;
  produced : option Blob
}.

Definition Log : Type := list Call.

(** The browser.  [Math_sqrt] is [Math.sqrt]; [decode] is [img.decode()]
    on the object URL of a file, [None] when it rejects; [toBlob] is
    [canvas.toBlob]: from the number of earlier encoder calls, the canvas,
    the requested type and quality to the size and type of the blob, or
    [None] for a null blob; [UPNG] is [window.UPNG] when it is defined: the
    size of what [UPNG.encode] returns. *)
Record Platform : Type := mkPlatform {
  Math_sqrt : Q -> Q;
  decode : Blob -> option Image;
  toBlob : nat -> Canvas -> Mime -> option Q -> option (Q * Mime);
  UPNG : option (nat -> Canvas -> Q -> Q)
}.

(** ** The monad of asynchronous functions *)

Inductive Exn : Type :=
| DecodeError
| ToBlobFailed
| NullContext.

Inductive Outcome (A : Type) : Type :=
| Returned (a : A) (l : Log)
| Threw (e : Exn) (l : Log).
Arguments Returned {A} a l.
Arguments Threw {A} e l.

Definition M (A : Type) : Type := Log -> Outcome A.

Definition ret {A : Type} (a : A) : M A := fun l => Returned a l.

Definition throw {A : Type} (e : Exn) : M A := fun l => Threw e l.

Definition bind {A B : Type} (m : M A) (k : A -> M B) : M B :=
  fun l => match m l with
           | Returned a l' => k a l'
           | Threw e l' => Threw e l'
           end.

Notation "x <- m ;; k" := (bind m (fun x => k))
  (at level 61, m at next level, right associativity).
Notation "' p <- m ;; k" := (bind m (fun x => match x with p => k end))
  (at level 61, p pattern, m at next level, right associativity).

(** A loop body goes on with a new state, leaves the loop ([break]) or
    returns from the enclosing function.  A loop yields [Continue] with the
    state it ends in, or [Return] with the value returned from inside it. *)
Inductive Flow (S R : Type) : Type :=
| Continue (s : S)
| Break (s : S)
| Return (r : R).
Arguments Continue {S R} s.
Arguments Break {S R} s.
Arguments Return {S R} r.

(** ** Platform calls *)

Section Calls.
Variable P : Platform.

(** The blob [canvas.toBlob] makes after the calls of a log: it gets the
    next serial number. *)
Definition encoded (l : Log) (canvas : Canvas) (mime : Mime)
    (quality : option Q) : option Blob :=
  match toBlob P (length l) canvas mime quality with
  | Some (sz, ty) => Some (mkBlob sz ty (length l))
  | None => None
  end.

(** [canvas.toBlob(cb, mime, quality)], logged. *)
Definition canvas_toBlob (canvas : Canvas) (mime : Mime) (quality : option Q)
  : M (option Blob) :=
  fun l =>
    let b := encoded l canvas mime quality in
    Returned b (mkCall canvas (ToBlob mime quality) b :: l).

(** [UPNG.encode] on the pixels of the canvas, logged. *)
Definition upng_encode (enc : nat -> Canvas -> Q -> Q) (canvas : Canvas)
    (colors : Q) : M Blob :=
  fun l =>
    let b := mkBlob (enc (length l) canvas colors) image_png (length l) in
    Returned b (mkCall canvas (UpngEncode colors) (Some b) :: l).

(** [loadImage], the same in both source files. *)
Definition loadImage (file : Blob) : M Image :=
  match decode P file with
  | Some img => ret img
  | None => throw DecodeError
  end.
End Calls.

(** [canvas.getContext('2d', { alpha: true })!] followed by an assignment
    to a property of the context: a [TypeError] when there is no 2D
    context. *)
Definition useContext (context2d : bool) : M unit :=
  if context2d then ret tt else throw NullContext.

(** ** png-resizer.ts *)

Module Png.

Record ResizeOptions : Type := mkOptions {
  targetKB : Q;
  bufferKB : option Q;
  maxIterations : option nat;
  minScale : option Q;
  useQuantization : option bool;
  paletteColors : option Q
}.

(** The variables [low], [high], [bestBlob], [bestScale] of
    [resizePngToTarget], with the helper canvas. *)
Record Search : Type := mkSearch {
  low : Q;
  high : Q;
  bestBlob : option Blob;
  bestScale : Q;
  canvas : Canvas
}.

(** The variables [low], [high] and [best] of
    [binarySearchWithQuantization], with the canvas. *)
Record Refine : Type := mkRefine {
  qlow : Q;
  qhigh : Q;
  qbest : option Blob;
  qcanvas : Canvas
}.

(** [document.createElement('canvas')]: 300 by 150, nothing drawn. *)
Definition newCanvas : Canvas := mkCanvas 300 150 0.

Section WithPlatform.
Variable P : Platform.

(** [toBlobAsync]: rejects when the blob is null. *)
Definition toBlobAsync (canvas : Canvas) : M Blob :=
  b <- canvas_toBlob P canvas image_png None ;;
  match b with
  | Some b => ret b
  | None => throw ToBlobFailed
  end.

Definition renderAtScale (img : Image) (scale : Q) : M (Blob * Canvas) :=
  let w := Z.max 1 (Math_round (inject_Z (naturalWidth img) * scale)) in
  let h := Z.max 1 (Math_round (inject_Z (naturalHeight img) * scale)) in
  let canvas := mkCanvas w h scale in
  blob <- toBlobAsync canvas ;;
  ret (blob, canvas).

Definition quantizeWithUPNG (enc : nat -> Canvas -> Q -> Q)
    (canvas : Canvas) (colors : Q) : M Blob :=
  upng_encode enc canvas colors.

(** The block "First, try the guess scale once". *)
Definition tryGuess (img : Image) (targetBytes guessScale : Q) (st : Search)
  : M Search :=
  let s := guessScale in
  '(blob, cv) <- renderAtScale img s ;;
  if size blob <=? targetBytes
  then ret (mkSearch s (high st) (Some blob) s cv)
  else ret (mkSearch (low st) s (bestBlob st) (bestScale st) cv).

(** One round of the loop "Binary search for scale". *)
Definition bisect (img : Image) (targetBytes minScale : Q) (st : Search)
  : M Search :=
  let mid := clamp (midpoint (low st) (high st)) minScale 1 in
  '(blob, cv) <- renderAtScale img mid ;;
  if size blob >? targetBytes
  then ret (mkSearch (low st) mid (bestBlob st) (bestScale st) cv)
  else ret (mkSearch mid (high st) (Some blob) mid cv).

(** [for (let i = 0; i < maxIterations && high - low > 1e-3; i++)]:
    [n] is the number of rounds left. *)
Fixpoint bisectLoop (n : nat) (img : Image) (targetBytes minScale : Q)
    (st : Search) : M Search :=
  match n with
  | O => ret st
  | S n' =>
      if high st - low st >? eps
      then st' <- bisect img targetBytes minScale st ;;
           bisectLoop n' img targetBytes minScale st'
      else ret st
  end.

(** "If we never got under target, force the minimum scale": the blob
    kept as best, the scale recorded for it and the canvas. *)
Definition forceMinimum (img : Image) (minScale : Q) (st : Search)
  : M (Blob * Q * Canvas) :=
  match bestBlob st with
  | Some b => ret (b, bestScale st, canvas st)
  | None =>
      '(blob, cv) <- renderAtScale img (Math_max minScale (1 # 100)) ;;
      ret (blob, minScale, cv)
  end.

(** One round of the loop of [binarySearchWithQuantization]. *)
Definition quantBisect (enc : nat -> Canvas -> Q -> Q) (img : Image)
    (minScale targetBytes bufferBytes colors : Q) (st : Refine)
  : M (Flow Refine (option Blob)) :=
  let mid := clamp (midpoint (qlow st) (qhigh st)) minScale 1 in
  '(_, cv) <- renderAtScale img mid ;;
  qBlob <- quantizeWithUPNG enc cv colors ;;
  if size qBlob >? targetBytes
  then ret (Continue (mkRefine (qlow st) mid (qbest st) cv))
  else if withinBuffer (size qBlob) targetBytes bufferBytes
       then ret (Return (Some qBlob))
       else ret (Continue (mkRefine mid (qhigh st) (Some qBlob) cv)).

Fixpoint quantLoop (n : nat) (enc : nat -> Canvas -> Q -> Q) (img : Image)
    (minScale targetBytes bufferBytes colors : Q) (st : Refine)
  : M (option Blob) :=
  match n with
  | O => ret (qbest st)
  | S n' =>
      if qhigh st - qlow st >? eps
      then f <- quantBisect enc img minScale targetBytes bufferBytes colors st ;;
           match f with
           | Continue st' =>
               quantLoop n' enc img minScale targetBytes bufferBytes colors st'
           | Break st' => ret (qbest st')
           | Return r => ret r
           end
      else ret (qbest st)
  end.

Definition binarySearchWithQuantization (enc : nat -> Canvas -> Q -> Q)
    (img : Image) (cv : Canvas)
    (startScale minScale targetBytes bufferBytes : Q) (maxIterations : nat)
    (colors : Q) : M (option Blob) :=
  quantLoop maxIterations enc img minScale targetBytes bufferBytes colors
    (mkRefine minScale startScale None cv).

(** The options of [resizePngToTarget] with their default values. *)
Definition bufferKBOf (opts : ResizeOptions) : Q := dflt 5 (bufferKB opts).
Definition maxIterationsOf (opts : ResizeOptions) : nat :=
  dflt 18%nat (maxIterations opts).
Definition minScaleOf (opts : ResizeOptions) : Q :=
  dflt (5 # 100) (minScale opts).
Definition useQuantizationOf (opts : ResizeOptions) : bool :=
  dflt true (useQuantization opts).
Definition paletteColorsOf (opts : ResizeOptions) : Q :=
  dflt 256 (paletteColors opts).

(** [targetBytes] and [bufferBytes] of [resizePngToTarget]. *)
Definition targetBytesOf (opts : ResizeOptions) : Q :=
  Math_max (10 * 1024) (Math_min (200 * 1024) (targetKB opts * 1024)).

Definition bufferBytesOf (opts : ResizeOptions) : Q :=
  bufferKBOf opts * 1024.

(** The starting scale, from the ratio of the sizes. *)
Definition guessScaleOf (file : Blob) (opts : ResizeOptions) : Q :=
  clamp (Math_sqrt P (targetBytesOf opts / Math_max 1 (size file)))
    (minScaleOf opts) 1.

(** The guess followed by [n] rounds of the loop, from the initial values
    [low = 0], [high = 1], [bestBlob = null], [bestScale = 1]. *)
Definition searchRounds (img : Image) (targetBytes guessScale minScale : Q)
    (n : nat) : M Search :=
  st0 <- tryGuess img targetBytes guessScale
           (mkSearch 0 1 None 1 newCanvas) ;;
  bisectLoop n img targetBytes minScale st0.

(** The scale search of [resizePngToTarget]: the guess, the bisection
    loop and the forced minimum. *)
Definition scaleSearch (img : Image) (targetBytes guessScale minScale : Q)
    (maxIterations : nat) : M (Blob * Q * Canvas) :=
  st <- searchRounds img targetBytes guessScale minScale maxIterations ;;
  forceMinimum img minScale st.

(** What follows the scale search: the tolerance check and the
    quantization refinement. *)
Definition finish (img : Image) (targetBytes bufferBytes minScale : Q)
    (maxIterations : nat) (useQuantization : bool) (paletteColors : Q)
    (found : Blob * Q * Canvas) : M Blob :=
  let '(bestBlob, bestScale, cv) := found in
  if withinBuffer (size bestBlob) targetBytes bufferBytes
  then ret bestBlob
  else
    match useQuantization, UPNG P with
    | true, Some enc =>
        quantBlob <- quantizeWithUPNG enc cv paletteColors ;;
        if withinBuffer (size quantBlob) targetBytes bufferBytes
        then ret quantBlob
        else
          qBest <- binarySearchWithQuantization enc img cv bestScale
                     minScale targetBytes bufferBytes maxIterations
                     paletteColors ;;
          match qBest with
          | Some q => ret q
          | None => ret bestBlob
          end
    | _, _ => ret bestBlob
    end.

Definition resizePngToTarget (file : Blob) (opts : ResizeOptions) : M Blob :=
  let maxIterations := maxIterationsOf opts in
  let minScale := minScaleOf opts in
  let useQuantization := useQuantizationOf opts in
  let paletteColors := paletteColorsOf opts in
  let targetBytes := targetBytesOf opts in
  let bufferBytes := bufferBytesOf opts in
  if (size file >=? targetBytes - bufferBytes)
     && (size file <=? targetBytes + bufferBytes)
  then ret file
  else
    img <- loadImage P file ;;
    if size file <=? targetBytes + bufferBytes
    then ret file
    else
      let guessScale := guessScaleOf file opts in
      found <- scaleSearch img targetBytes guessScale minScale maxIterations ;;
      finish img targetBytes bufferBytes minScale maxIterations
        useQuantization paletteColors found.

(** [resizePngToTarget] in a browser that may have no 2D context: the
    context is asked for after the second early return, and its smoothing
    is set without a test.  [resizePngToTarget] above is the run in a
    browser that has one. *)
Definition resizePngToTargetOn (context2d : bool) (file : Blob)
    (opts : ResizeOptions) : M Blob :=
  let maxIterations := maxIterationsOf opts in
  let minScale := minScaleOf opts in
  let useQuantization := useQuantizationOf opts in
  let paletteColors := paletteColorsOf opts in
  let targetBytes := targetBytesOf opts in
  let bufferBytes := bufferBytesOf opts in
  if (size file >=? targetBytes - bufferBytes)
     && (size file <=? targetBytes + bufferBytes)
  then ret file
  else
    img <- loadImage P file ;;
    if size file <=? targetBytes + bufferBytes
    then ret file
    else
      let guessScale := guessScaleOf file opts in
      _ <- useContext context2d ;;
      found <- scaleSearch img targetBytes guessScale minScale maxIterations ;;
      finish img targetBytes bufferBytes minScale maxIterations
        useQuantization paletteColors found.

End WithPlatform.
End Png.

(** ** raster-resizer.ts *)

Module Raster.

Record RasterOptions : Type := mkOptions {
  targetKB : Q;
  bufferKB : option Q;
  minQuality : option Q;
  maxQuality : option Q;
  qualityIterations : option nat;
  minScale : option Q;
  scaleIterations : option nat
}.

(** The variables [lo], [hi] and [best] of [fitByQuality]. *)
Record QSearch : Type := mkQSearch {
  lo : Q;
  hi : Q;
  best : option Blob
}.

(** The variables [low], [high], [bestBlob] and [bestScale] of
    [resizeRasterToTarget]. *)
Record Search : Type := mkSearch {
  low : Q;
  high : Q;
  bestBlob : option Blob;
  bestScale : Q
}.

Section WithPlatform.
Variable P : Platform.

(** [toBlobAsync]: resolves with the blob, null or not. *)
Definition toBlobAsync (canvas : Canvas) (mime : Mime) (quality : option Q)
  : M (option Blob) :=
  canvas_toBlob P canvas mime quality.

Definition testMimeSupport (canvas : Canvas) (mime : Mime) : M bool :=
  b <- toBlobAsync canvas mime (Some (9 # 10)) ;;
  match b with
  | Some b => ret (Mime_eqb (type b) mime)
  | None => ret false
  end.

(** One round of the loop of [fitByQuality]. *)
Definition qualityStep (canvas : Canvas) (mime : Mime)
    (targetBytes bufferBytes minQ maxQ : Q) (st : QSearch)
  : M (Flow QSearch (option Blob)) :=
  let mid := clamp (midpoint (lo st) (hi st)) minQ maxQ in
  b <- toBlobAsync canvas mime (Some mid) ;;
  match b with
  | None => ret (Break st)
  | Some b =>
      if size b >? targetBytes + bufferBytes
      then ret (Continue (mkQSearch (lo st) mid (best st)))
      else if withinBuffer (size b) targetBytes bufferBytes
           then ret (Return (Some b))
           else ret (Continue (mkQSearch mid (hi st) (Some b)))
  end.

(** The loop of [fitByQuality]: the blob returned from inside it, or the
    state it ends in. *)
Fixpoint qualityLoop (n : nat) (canvas : Canvas) (mime : Mime)
    (targetBytes bufferBytes minQ maxQ : Q) (st : QSearch)
  : M (Flow QSearch (option Blob)) :=
  match n with
  | O => ret (Continue st)
  | S n' =>
      if hi st - lo st >? eps
      then f <- qualityStep canvas mime targetBytes bufferBytes minQ maxQ st ;;
           match f with
           | Continue st' =>
               qualityLoop n' canvas mime targetBytes bufferBytes minQ maxQ st'
           | Break st' => ret (Continue st')
           | Return r => ret (Return r)
           end
      else ret (Continue st)
  end.

(** The probes at [minQ] and [maxQ] that open [fitByQuality]: the value
    returned at once, or the state the loop starts in. *)
Definition openQuality (canvas : Canvas) (mime : Mime)
    (targetBytes bufferBytes : Q) (minQ maxQ : Q)
  : M (Flow QSearch (option Blob)) :=
  let lo := minQ in
  let hi := maxQ in
  minTry <- toBlobAsync canvas mime (Some lo) ;;
  match minTry with
  | None => ret (Return None)
  | Some minTry =>
      if size minTry >? targetBytes + bufferBytes
      then ret (Return None)
      else if withinBuffer (size minTry) targetBytes bufferBytes
      then ret (Return (Some minTry))
      else
        maxTry <- toBlobAsync canvas mime (Some hi) ;;
        match maxTry with
        | Some maxTry =>
            if size maxTry <=? targetBytes + bufferBytes
            then if withinBuffer (size maxTry) targetBytes bufferBytes
                 then ret (Return (Some maxTry))
                 else ret (Continue (mkQSearch (midpoint hi lo) hi (Some maxTry)))
            else ret (Continue (mkQSearch lo hi (Some minTry)))
        | None => ret (Continue (mkQSearch lo hi (Some minTry)))
        end
  end.

(** The opening probes followed by [n] rounds of the loop. *)
Definition qualityRounds (canvas : Canvas) (mime : Mime)
    (targetBytes bufferBytes : Q) (minQ maxQ : Q) (n : nat)
  : M (Flow QSearch (option Blob)) :=
  f <- openQuality canvas mime targetBytes bufferBytes minQ maxQ ;;
  match f with
  | Continue st | Break st =>
      qualityLoop n canvas mime targetBytes bufferBytes minQ maxQ st
  | Return r => ret (Return r)
  end.

Definition fitByQuality (canvas : Canvas) (mime : Mime)
    (targetBytes bufferBytes : Q) (minQ maxQ : Q) (iterations : nat)
  : M (option Blob) :=
  f <- qualityRounds canvas mime targetBytes bufferBytes minQ maxQ iterations ;;
  match f with
  | Continue st | Break st => ret (best st)
  | Return r => ret r
  end.

(** The canvas redrawn at a scale, as [tryScale] and the last resort
    do it. *)
Definition drawAtScale (img : Image) (scale : Q) : Canvas :=
  let w := Z.max 1 (Math_round (inject_Z (naturalWidth img) * scale)) in
  let h := Z.max 1 (Math_round (inject_Z (naturalHeight img) * scale)) in
  mkCanvas w h scale.

(** The closure [tryScale] of [resizeRasterToTarget]. *)
Definition tryScale (img : Image) (effMime : Mime)
    (targetBytes bufferBytes minQuality maxQuality : Q)
    (qualityIterations : nat) (scale : Q) : M (option Blob) :=
  fitByQuality (drawAtScale img scale) effMime targetBytes bufferBytes
    minQuality maxQuality qualityIterations.

(** The first scale of phase B, probed when the quality-only search
    did not fit. *)
Definition seed (img : Image) (effMime : Mime) (file : Blob)
    (targetBytes bufferBytes minQuality maxQuality : Q)
    (qualityIterations : nat) (minScale : Q) (st : Search) : M Search :=
  let mid0 :=
    Math_max minScale (Math_sqrt P (targetBytes / Math_max 1 (size file))) in
  first <- tryScale img effMime targetBytes bufferBytes minQuality
             maxQuality qualityIterations mid0 ;;
  match first with
  | Some first =>
      if size first <=? targetBytes + bufferBytes
      then ret (mkSearch mid0 (high st) (Some first) mid0)
      else ret (mkSearch (low st) mid0 (bestBlob st) (bestScale st))
  | None => ret (mkSearch (low st) mid0 (bestBlob st) (bestScale st))
  end.

(** One round of the loop over scales. *)
Definition scaleStep (img : Image) (effMime : Mime)
    (targetBytes bufferBytes minQuality maxQuality : Q)
    (qualityIterations : nat) (minScale : Q) (st : Search)
  : M (Flow Search Blob) :=
  let mid := clamp (midpoint (low st) (high st)) minScale 1 in
  b <- tryScale img effMime targetBytes bufferBytes minQuality
         maxQuality qualityIterations mid ;;
  match b with
  | None => ret (Continue (mkSearch (low st) mid (bestBlob st) (bestScale st)))
  | Some b =>
      if size b >? targetBytes + bufferBytes
      then ret (Continue (mkSearch (low st) mid (bestBlob st) (bestScale st)))
      else if withinBuffer (size b) targetBytes bufferBytes
           then ret (Return b)
           else ret (Continue (mkSearch mid (high st) (Some b) mid))
  end.

(** The loop over scales: the blob returned from inside it, or the
    state it ends in. *)
Fixpoint scaleLoop (n : nat) (img : Image) (effMime : Mime)
    (targetBytes bufferBytes minQuality maxQuality : Q)
    (qualityIterations : nat) (minScale : Q) (st : Search)
  : M (Flow Search Blob) :=
  match n with
  | O => ret (Continue st)
  | S n' =>
      if high st - low st >? eps
      then f <- scaleStep img effMime targetBytes bufferBytes minQuality
                  maxQuality qualityIterations minScale st ;;
           match f with
           | Continue st' =>
               scaleLoop n' img effMime targetBytes bufferBytes minQuality
                 maxQuality qualityIterations minScale st'
           | Break st' => ret (Continue st')
           | Return b => ret (Return b)
           end
      else ret (Continue st)
  end.

(** The first scale followed by [n] rounds of the loop, from the initial
    values [low = minScale], [high = 1.0], [bestBlob = null],
    [bestScale = low]. *)
Definition searchRounds (file : Blob) (img : Image) (effMime : Mime)
    (targetBytes bufferBytes minQuality maxQuality : Q)
    (qualityIterations : nat) (minScale : Q) (n : nat)
  : M (Flow Search Blob) :=
  st0 <- seed img effMime file targetBytes bufferBytes minQuality
           maxQuality qualityIterations minScale
           (mkSearch minScale 1 None minScale) ;;
  scaleLoop n img effMime targetBytes bufferBytes minQuality maxQuality
    qualityIterations minScale st0.

(** Phase B of [resizeRasterToTarget]. *)
Definition phaseB (file : Blob) (img : Image) (effMime : Mime)
    (targetBytes bufferBytes minQuality maxQuality : Q)
    (qualityIterations : nat) (minScale : Q) (scaleIterations : nat)
  : M Blob :=
  f <- searchRounds file img effMime targetBytes bufferBytes minQuality
         maxQuality qualityIterations minScale scaleIterations ;;
  match f with
  | Return b => ret b
  | Continue st | Break st =>
      match bestBlob st with
      | Some b => ret b
      | None =>
          tiny <- toBlobAsync (drawAtScale img minScale) effMime
                    (Some minQuality) ;;
          match tiny with
          | Some t => ret t
          | None => ret file
          end
      end
  end.

(** The options of [resizeRasterToTarget] with their default values. *)
Definition bufferKBOf (opts : RasterOptions) : Q := dflt 5 (bufferKB opts).
Definition minQualityOf (opts : RasterOptions) : Q :=
  dflt (3 # 10) (minQuality opts).
Definition maxQualityOf (opts : RasterOptions) : Q :=
  dflt (95 # 100) (maxQuality opts).
Definition qualityIterationsOf (opts : RasterOptions) : nat :=
  dflt 12%nat (qualityIterations opts).
Definition minScaleOf (opts : RasterOptions) : Q :=
  dflt (5 # 100) (minScale opts).
Definition scaleIterationsOf (opts : RasterOptions) : nat :=
  dflt 12%nat (scaleIterations opts).

Definition targetBytesOf (opts : RasterOptions) : Q :=
  Math_max 1 (targetKB opts * 1024).

Definition bufferBytesOf (opts : RasterOptions) : Q :=
  bufferKBOf opts * 1024.

(** The canvas of phase A: the image drawn at its natural size. *)
Definition fullCanvas (img : Image) : Canvas :=
  mkCanvas (naturalWidth img) (naturalHeight img) 1.

(** Phase A of [resizeRasterToTarget]: the test of the requested type
    and the quality-only search on the full-size canvas; the type used and
    what the search found. *)
Definition phaseA (img : Image) (mime : Mime)
    (targetBytes bufferBytes minQuality maxQuality : Q)
    (qualityIterations : nat) : M (Mime * option Blob) :=
  let canvas := fullCanvas img in
  supported <- testMimeSupport canvas mime ;;
  let effMime := if supported then mime else image_jpeg in
  qOnly <- fitByQuality canvas effMime targetBytes bufferBytes
             minQuality maxQuality qualityIterations ;;
  ret (effMime, qOnly).

Definition resizeRasterToTarget (file : Blob) (mime : Mime)
    (opts : RasterOptions) : M Blob :=
  let minQuality := minQualityOf opts in
  let maxQuality := maxQualityOf opts in
  let qualityIterations := qualityIterationsOf opts in
  let minScale := minScaleOf opts in
  let scaleIterations := scaleIterationsOf opts in
  let targetBytes := targetBytesOf opts in
  let bufferBytes := bufferBytesOf opts in
  if withinBuffer (size file) targetBytes bufferBytes
  then ret file
  else
    img <- loadImage P file ;;
    '(effMime, qOnly) <- phaseA img mime targetBytes bufferBytes minQuality
                           maxQuality qualityIterations ;;
    match qOnly with
    | Some q =>
        if withinBuffer (size q) targetBytes bufferBytes
        then ret q
        else if size q >? targetBytes + bufferBytes
             then phaseB file img effMime targetBytes bufferBytes minQuality
                    maxQuality qualityIterations minScale scaleIterations
             else ret q
    | None =>
        phaseB file img effMime targetBytes bufferBytes minQuality
          maxQuality qualityIterations minScale scaleIterations
    end.

Definition resizeJpegToTarget (file : Blob) (opts : RasterOptions) : M Blob :=
  resizeRasterToTarget file image_jpeg opts.

Definition resizeWebpToTarget (file : Blob) (opts : RasterOptions) : M Blob :=
  resizeRasterToTarget file image_webp opts.

(** [resizeRasterToTarget] in a browser that may have no 2D context: the
    context is asked for right after the decode and handed to [setupctx]
    without a test.  [resizeRasterToTarget] above is the run in a browser
    that has one. *)
Definition resizeRasterToTargetOn (context2d : bool) (file : Blob)
    (mime : Mime) (opts : RasterOptions) : M Blob :=
  let minQuality := minQualityOf opts in
  let maxQuality := maxQualityOf opts in
  let qualityIterations := qualityIterationsOf opts in
  let minScale := minScaleOf opts in
  let scaleIterations := scaleIterationsOf opts in
  let targetBytes := targetBytesOf opts in
  let bufferBytes := bufferBytesOf opts in
  if withinBuffer (size file) targetBytes bufferBytes
  then ret file
  else
    img <- loadImage P file ;;
    _ <- useContext context2d ;;
    '(effMime, qOnly) <- phaseA img mime targetBytes bufferBytes minQuality
                           maxQuality qualityIterations ;;
    match qOnly with
    | Some q =>
        if withinBuffer (size q) targetBytes bufferBytes
        then ret q
        else if size q >? targetBytes + bufferBytes
             then phaseB file img effMime targetBytes bufferBytes minQuality
                    maxQuality qualityIterations minScale scaleIterations
             else ret q
    | None =>
        phaseB file img effMime targetBytes bufferBytes minQuality
          maxQuality qualityIterations minScale scaleIterations
    end.

End WithPlatform.
End Raster.

(** ** resize-to-dimensions.ts *)

Module Dimensions.
Import String.

Inductive FitMode : Type := stretch | fit | crop | not_enlarge.

Inductive ResizeMode : Type := by_percentage | by_preset.

(** [ResizeSettings].  An optional field that is left out is [None]. *)
Record ResizeSettings : Type := mkSettings {
  width : Q;
  height : Q;
  resizeMode : option ResizeMode;
  percentage : option Q;
  fitMode : option FitMode;
  maintainAspectRatio : option bool;
  format : string;
  quality : Q;
  backgroundColor : option string
}.

(** The argument [originalDimensions]. *)
Record OriginalDimensions : Type := mkOriginal {
  original_width : Q;
  original_height : Q
}.

(** A file or an encoded blob, with the two properties of a [Blob]. *)
Record Blob : Type := mkBlob {
  size : Q;
  type : string
}.

Inductive Smoothing : Type := medium | high.

(** What is done to the canvas before it is encoded: the values assigned
    to [canvas.width] and [canvas.height], the value given to
    [imageSmoothingQuality] if any, the colour of the [fillRect] over the
    whole canvas if any, and the destination rectangle of [drawImage]. *)
Record Drawing : Type := mkDrawing {
  canvas_width : Q;
  canvas_height : Q;
  smoothing : option Smoothing;
  fill : option string;
  dx : Q;
  dy : Q;
  dWidth : Q;
  dHeight : Q
}.

(** The browser.  [context2d] tells whether [canvas.getContext('2d')]
    gives a context; [decode] is [img.decode()] on the object URL of a
    file, [None] when it rejects; [getImageData] gives the RGBA bytes of
    the image drawn over a canvas of the given width and height, [None]
    when drawing or reading throws; [blankDataURL] is [toDataURL(type)] of
    a new canvas; [toBlob] and [toDataURL] encode a drawing of the image
    for a type and a quality, [toBlob] giving [None] for a null blob. *)
Record Browser : Type := mkBrowser {
  context2d : bool;
  decode : Blob -> option Image;
  getImageData : Image -> Z -> Z -> option (list Z);
  blankDataURL : string -> string;
  toBlob : Image -> Drawing -> string -> option Q -> option Blob;
  toDataURL : Image -> Drawing -> string -> option Q -> string
}.

(** Why the promise of [resizeToDimensions] is rejected: the decode
    failed, ['2D canvas not supported'] or ['Failed to create blob']. *)
Inductive Error : Type :=
| DecodeFailed
| NoCanvas2D
| NoBlob.

Inductive Settled (A : Type) : Type :=
| Resolved (a : A)
| Rejected (e : Error).
Arguments Resolved {A} a.
Arguments Rejected {A} e.

(** The value the promise resolves with; [reported_size] is its field
    [size]. *)
Record Output : Type := mkOutput {
  blob : Blob;
  dataUrl : string;
  reported_size : Q
}.

(** Whether an optional string or number is truthy: a string when it is
    not empty, a number when it is not zero. *)
Definition truthyString (s : option string) : bool :=
  match s with
  | Some (String _ _) => true
  | _ => false
  end.

Definition truthyNumber (x : option Q) : bool :=
  match x with
  | Some x => negb (Qeq_bool x 0)
  | None => false
  end.

Section WithBrowser.
Variable B : Browser.

(** The loop [for (let i = 3; i < data.length; i += 4)] of
    [hasTransparency]; [n] bounds the rounds left. *)
Fixpoint alphaScan (n : nat) (data : list Z) (i : nat) : bool :=
  match n with
  | O => false
  | S n' =>
      if (i <? List.length data)%nat
      then match nth_error data i with
           | Some a => if (a <? 255)%Z then true
                       else alphaScan n' data (i + 4)
           | None => alphaScan n' data (i + 4)
           end
      else false
  end.

(** [hasTransparency]: [false] when a [catch] is reached. *)
Definition hasTransparency (img : Image) : bool :=
  if context2d B
  then
    let w := Z.min (naturalWidth img) 100 in
    let h := Z.min (naturalHeight img) 100 in
    match getImageData B img w h with
    | Some data => alphaScan (List.length data) data 3
    | None => false
    end
  else false.

Definition isFormatSupported (format : string) : bool :=
  if context2d B
  then prefix ("data:image/" ++ format) (blankDataURL B ("image/" ++ format))
  else false.

Definition getOptimalFormat (originalFormat : string)
    (isDownscaling transparent : bool) : string :=
  if isDownscaling
  then if transparent then "png" else "webp"
  else if transparent then "png"
  else if (originalFormat =? "png")%string then "jpeg" else "webp".

(** "Determine target dimensions based on resizeMode". *)
Definition targetDimensions (settings : ResizeSettings)
    (originalDimensions : OriginalDimensions) : Q * Q :=
  let targetWidth := width settings in
  let targetHeight := height settings in
  match resizeMode settings with
  | Some by_percentage =>
      if truthyNumber (percentage settings)
      then
        let p := dflt 0 (percentage settings) in
        (inject_Z (Math_round (original_width originalDimensions * (p / 100))),
         inject_Z (Math_round (original_height originalDimensions * (p / 100))))
      else (targetWidth, targetHeight)
  | Some by_preset => (width settings, height settings)
  | None => (targetWidth, targetHeight)
  end.

Definition isDownscalingOf (img : Image) (targetWidth targetHeight : Q)
  : bool :=
  (targetWidth <? inject_Z (naturalWidth img))
  && (targetHeight <? inject_Z (naturalHeight img)).

Definition smoothingOf (isDownscaling : bool) : option Smoothing :=
  Some (if isDownscaling then medium else high).

(** The branch [fitMode === 'fit']. *)
Definition drawFit (img : Image) (settings : ResizeSettings)
    (targetWidth targetHeight : Q) (isDownscaling : bool) : Drawing :=
  let bg := if truthyString (backgroundColor settings)
            then dflt "#ffffff"%string (backgroundColor settings)
            else "#ffffff"%string in
  let scale := Math_min (targetWidth / inject_Z (naturalWidth img))
                 (targetHeight / inject_Z (naturalHeight img)) in
  let drawW := Math_round (inject_Z (naturalWidth img) * scale) in
  let drawH := Math_round (inject_Z (naturalHeight img) * scale) in
  let dx := Math_round ((targetWidth - inject_Z drawW) / 2) in
  let dy := Math_round ((targetHeight - inject_Z drawH) / 2) in
  mkDrawing targetWidth targetHeight (smoothingOf isDownscaling) (Some bg)
    (inject_Z dx) (inject_Z dy) (inject_Z drawW) (inject_Z drawH).

(** The branch [fitMode === 'not-enlarge']. *)
Definition drawNotEnlarge (img : Image) (targetWidth targetHeight : Q)
    (isDownscaling : bool) : Drawing :=
  let scaleFit := Math_min (targetWidth / inject_Z (naturalWidth img))
                    (targetHeight / inject_Z (naturalHeight img)) in
  if scaleFit >=? 1
  then mkDrawing (inject_Z (naturalWidth img)) (inject_Z (naturalHeight img))
         (smoothingOf isDownscaling) None
         0 0 (inject_Z (naturalWidth img)) (inject_Z (naturalHeight img))
  else
    let drawW := Math_round (inject_Z (naturalWidth img) * scaleFit) in
    let drawH := Math_round (inject_Z (naturalHeight img) * scaleFit) in
    mkDrawing (inject_Z drawW) (inject_Z drawH) (smoothingOf isDownscaling) None
      0 0 (inject_Z drawW) (inject_Z drawH).

(** The branch [fitMode === 'crop']. *)
Definition drawCrop (img : Image) (targetWidth targetHeight : Q)
    (isDownscaling : bool) : Drawing :=
  let scale := Math_max (targetWidth / inject_Z (naturalWidth img))
                 (targetHeight / inject_Z (naturalHeight img)) in
  let drawW := Math_round (inject_Z (naturalWidth img) * scale) in
  let drawH := Math_round (inject_Z (naturalHeight img) * scale) in
  let dx := Math_round ((targetWidth - inject_Z drawW) / 2) in
  let dy := Math_round ((targetHeight - inject_Z drawH) / 2) in
  mkDrawing targetWidth targetHeight (smoothingOf isDownscaling) None
    (inject_Z dx) (inject_Z dy) (inject_Z drawW) (inject_Z drawH).

(** The last branch, "stretch (default)". *)
Definition drawStretch (settings : ResizeSettings)
    (originalDimensions : OriginalDimensions) (targetWidth targetHeight : Q)
    (isDownscaling : bool) : Drawing :=
  let '(targetWidth, targetHeight) :=
    if dflt false (maintainAspectRatio settings)
    then
      let aspectRatio :=
        original_width originalDimensions
        / original_height originalDimensions in
      if targetWidth / targetHeight >? aspectRatio
      then (inject_Z (Math_round (targetHeight * aspectRatio)), targetHeight)
      else (targetWidth, inject_Z (Math_round (targetWidth / aspectRatio)))
    else (targetWidth, targetHeight) in
  mkDrawing targetWidth targetHeight (smoothingOf isDownscaling) None
    0 0 targetWidth targetHeight.

(** "Determine quality param". *)
Definition qualityParam (settings : ResizeSettings) (finalFormat : string)
    (isDownscaling : bool) : option Q :=
  if (finalFormat =? "png")%string then None
  else if isDownscaling
          && ((finalFormat =? "webp")%string || (finalFormat =? "avif")%string)
       then Some (Math_max (7 # 10) (quality settings / 100))
       else Some (quality settings / 100).

(** What [resizeToDimensions] asks of [canvas.toBlob] for a decoded
    image: the drawing on the canvas, the type and the quality. *)
Definition encodeRequest (img : Image) (settings : ResizeSettings)
    (originalDimensions : OriginalDimensions)
  : Drawing * string * option Q :=
  let '(targetWidth, targetHeight) :=
    targetDimensions settings originalDimensions in
  let isDownscaling := isDownscalingOf img targetWidth targetHeight in
  let transparent := hasTransparency img in
  let optimal := getOptimalFormat (format settings) isDownscaling transparent in
  let finalFormat :=
    if isFormatSupported optimal then optimal else format settings in
  let drawing :=
    match dflt stretch (fitMode settings) with
    | fit => drawFit img settings targetWidth targetHeight isDownscaling
    | not_enlarge => drawNotEnlarge img targetWidth targetHeight isDownscaling
    | crop => drawCrop img targetWidth targetHeight isDownscaling
    | stretch =>
        drawStretch settings originalDimensions targetWidth targetHeight
          isDownscaling
    end in
  let quality := qualityParam settings finalFormat isDownscaling in
  let mime := ("image/" ++ finalFormat)%string in
  (drawing, mime, quality).

Definition resizeToDimensions (file : Blob) (settings : ResizeSettings)
    (originalDimensions : OriginalDimensions) : Settled Output :=
  match decode B file with
  | None => Rejected DecodeFailed
  | Some img =>
      if context2d B
      then
        let '(drawing, mime, quality) :=
          encodeRequest img settings originalDimensions in
        match toBlob B img drawing mime quality with
        | None => Rejected NoBlob
        | Some blob =>
            let dataUrl := toDataURL B img drawing mime quality in
            Resolved (mkOutput blob dataUrl (size blob))
        end
      else Rejected NoCanvas2D
  end.

End WithBrowser.
End Dimensions.

(** ** Vocabulary of the statements *)

(** What a computation started on a log establishes: [Q] of the value and
    the log when it returns, [E] when it throws. *)
Definition wp {A : Type} (m : M A) (l : Log) (Q : A -> Log -> Prop)
    (E : Exn -> Log -> Prop) : Prop :=
  match m l with
  | Returned a l' => Q a l'
  | Threw e l' => E e l'
  end.

Definition anyExn : Exn -> Log -> Prop := fun _ _ => True.
Definition noExn : Exn -> Log -> Prop := fun _ _ => False.

(** A call of [canvas.toBlob(cb, 'image/png')]: a probe of the PNG search. *)
Definition pngProbe (c : Call) : Prop := request c = ToBlob image_png None.

(** A call whose blob exists and is not larger than the ceiling. *)
Definition conforms (ceiling : Q) (c : Call) : Prop :=
  exists b, produced c = Some b /\ size b <= ceiling.

(** A call of [UPNG.encode]. *)
Definition quantized (c : Call) : Prop :=
  exists colors, request c = UpngEncode colors.

(** The call [c] is in the log and every other PNG probe of the log that
    conforms to the ceiling has a strictly smaller scale. *)
Definition tops (ceiling : Q) (c : Call) (l : Log) : Prop :=
  In c l /\
  forall c', In c' l -> pngProbe c' -> conforms ceiling c' ->
    c' = c \/ drawn (surface c') < drawn (surface c).

(** [b] is the blob of the PNG probe of the log with the largest scale
    among those that conform to the ceiling. *)
Definition largestConforming (ceiling : Q) (l : Log) (b : Blob) : Prop :=
  exists c, pngProbe c /\ produced c = Some b /\ size b <= ceiling /\
            tops ceiling c l.

(** No PNG probe of the log conforms to the ceiling. *)
Definition noneConform (ceiling : Q) (l : Log) : Prop :=
  forall c, In c l -> pngProbe c -> ~ conforms ceiling c.

(** What the PNG scale search keeps true of its variables and of the log:
    [high] never exceeds the larger of 1 and [minScale]; [bestBlob], when
    set, is the conforming probe of largest scale, made at scale [low]. *)
Definition bracketInv (ceiling minScale : Q) (st : Png.Search) (l : Log) : Prop :=
  (Png.high st <= 1 \/ Png.high st <= minScale) /\
  match Png.bestBlob st with
  | Some b =>
      Png.bestScale st = Png.low st /\
      exists c, pngProbe c /\ produced c = Some b /\ size b <= ceiling /\
                drawn (surface c) = Png.low st /\ tops ceiling c l
  | None => noneConform ceiling l
  end.

(** What holds of the blob, scale and canvas the scale search hands over:
    the blob is the largest conforming probe, made at the recorded scale,
    or the minimum was forced. *)
Definition foundInv (ceiling minScale : Q) (found : Blob * Q * Canvas)
    (l : Log) : Prop :=
  let '(b, bs, _) := found in
  (exists c, pngProbe c /\ produced c = Some b /\ size b <= ceiling /\
             drawn (surface c) = bs /\ tops ceiling c l) \/
  (bs = minScale /\ (noneConform ceiling l \/ largestConforming ceiling l b)).

(** [b] was encoded from a canvas drawn at [scale]. *)
Definition renderedAt (l : Log) (b : Blob) (scale : Q) : Prop :=
  exists c, In c l /\ produced c = Some b /\ drawn (surface c) = scale.

(** What a loop yields: [I] of the state it ends in, [R] of the value
    returned from inside it. *)
Definition flowPost {S R : Type} (I : S -> Log -> Prop) (Rt : R -> Log -> Prop)
    (f : Flow S R) (l : Log) : Prop :=
  match f with
  | Continue s | Break s => I s l
  | Return r => Rt r l
  end.

(** The log [l] is [l0] with later calls that all satisfy [p]. *)
Definition grown (p : Call -> Prop) (l0 l : Log) : Prop :=
  exists new, l = new ++ l0 /\ Forall p new.

Definition onCanvas (canvas : Canvas) (c : Call) : Prop := surface c = canvas.

(** A blob under the ceiling [target + buffer] but outside the tolerance
    band, hence below [target - buffer]. *)
Definition fitsBelow (target buffer : Q) (b : Blob) : Prop :=
  size b <= target + buffer /\ withinBuffer (size b) target buffer = false.

(** What the opening probes and rounds of [fitByQuality] establish, in
    terms of the probe at [minQ] that opens it. *)
Definition qualityOutcome (P : Platform) (canvas : Canvas) (mime : Mime)
    (target buffer minQ : Q) (l : Log)
    (f : Flow Raster.QSearch (option Blob)) (l' : Log) : Prop :=
  let b1 := encoded P l canvas mime (Some minQ) in
  grown (onCanvas canvas) (mkCall canvas (ToBlob mime (Some minQ)) b1 :: l) l' /\
  match f with
  | Return None =>
      b1 = None \/ exists b, b1 = Some b /\ target + buffer < size b
  | Return (Some q) =>
      withinBuffer (size q) target buffer = true /\
      exists b, b1 = Some b /\ size b <= target + buffer
  | Continue st | Break st =>
      (exists q, Raster.best st = Some q /\ fitsBelow target buffer q) /\
      exists b, b1 = Some b /\ size b <= target + buffer
  end.

(** What [fitByQuality] establishes: [None] exactly when the probe at
    [minQ] gave no blob or one above the ceiling, else a blob under the
    ceiling; every call was made on the canvas. *)
Definition fitOutcome (P : Platform) (canvas : Canvas) (mime : Mime)
    (target buffer minQ : Q) (l : Log) (r : option Blob) (l' : Log) : Prop :=
  let b1 := encoded P l canvas mime (Some minQ) in
  grown (onCanvas canvas) (mkCall canvas (ToBlob mime (Some minQ)) b1 :: l) l' /\
  match r with
  | None => b1 = None \/ exists b, b1 = Some b /\ target + buffer < size b
  | Some q =>
      size q <= target + buffer /\
      exists b, b1 = Some b /\ size b <= target + buffer
  end.

(** The call by which [testMimeSupport] tries the requested type. *)
Definition supportCall (P : Platform) (l : Log) (canvas : Canvas) (mime : Mime)
  : Call :=
  mkCall canvas (ToBlob mime (Some (9 # 10)))
    (encoded P l canvas mime (Some (9 # 10))).

(** The type [resizeRasterToTarget] encodes to: the requested one when the
    test blob has it, else JPEG. *)
Definition effectiveMime (P : Platform) (l : Log) (canvas : Canvas)
    (mime : Mime) : Mime :=
  match encoded P l canvas mime (Some (9 # 10)) with
  | Some b => if Mime_eqb (type b) mime then mime else image_jpeg
  | None => image_jpeg
  end.

(** [b] was encoded at [quality] from a canvas drawn at [scale]. *)
Definition renderedWith (l : Log) (b : Blob) (scale quality : Q) : Prop :=
  exists c m, In c l /\ produced c = Some b /\ drawn (surface c) = scale /\
              request c = ToBlob m (Some quality).

(** Every answer of [canvas.toBlob] is a blob larger than the ceiling. *)
Definition alwaysAbove (P : Platform) (ceiling : Q) : Prop :=
  forall n canvas mime quality,
    exists sz ty, toBlob P n canvas mime quality = Some (sz, ty) /\ ceiling < sz.

(** The bracket [lo', hi'] lies within the bracket [lo, hi]. *)
Definition narrows (lo hi lo' hi' : Q) : Prop :=
  lo <= lo' /\ hi' <= hi /\ lo' <= hi'.

(** Two to the power [k]. *)
Definition pow2 (k : nat) : Q := inject_Z (2 ^ Z.of_nat k).

(** What the PNG scale search keeps true after [k] rounds when the encoded
    size is 512000 times the square of the scale and the target is 150 KB:
    the bracket is within [0, 1] and not wider than [1 / 2 ^ k], [high] is
    oversized, and the best probe, when set, was made at scale [low] and
    is not above the target. *)
Definition quadraticInv (k : nat) (st : Png.Search) (l : Log) : Prop :=
  0 <= Png.low st /\ Png.low st <= Png.high st /\ Png.high st <= 1 /\
  1 # 2 < Png.high st /\
  3 # 10 < Png.high st * Png.high st /\
  (Png.high st - Png.low st) * pow2 k <= 1 /\
  match Png.bestBlob st with
  | Some b =>
      Png.low st * Png.low st <= 3 # 10 /\
      size b == 512000 * (Png.low st * Png.low st) /\
      renderedAt l b (Png.low st)
  | None => Png.low st == 0
  end.

(** The options with another [targetKB]. *)
Definition withTargetKB (kb : Q) (o : Png.ResizeOptions) : Png.ResizeOptions :=
  Png.mkOptions kb (Png.bufferKB o) (Png.maxIterations o) (Png.minScale o)
    (Png.useQuantization o) (Png.paletteColors o).

(** ** Sample platforms *)

(** A square root that is exact on the squares of small dyadic numbers. *)
Definition sqrtQ (q : Q) : Q :=
  Qred (Z.sqrt (Qnum q * 2 ^ 64 / Z.pos (Qden q)) # 2 ^ 32).

Definition sampleImage : Image := mkImage 1000 1000.

(** Every encoder gives [sz] bytes, of the type asked for. *)
Definition constantPlatform (sz : Q) (upng : bool) : Platform :=
  mkPlatform sqrtQ (fun _ => Some sampleImage)
    (fun _ _ m _ => Some (sz, m))
    (if upng then Some (fun _ _ _ => sz) else None).

(** The encoded size is [k] times the square of the scale. *)
Definition quadraticEncoder (k : Q) : nat -> Canvas -> Mime -> option Q -> option (Q * Mime) :=
  fun _ c m _ => Some (k * (drawn c * drawn c), m).

(** The encoded size is [small] up to a scale and [large] above it. *)
Definition stepPlatform (upTo small large : Q) : Platform :=
  mkPlatform sqrtQ (fun _ => Some sampleImage)
    (fun _ c m _ => Some (if drawn c <=? upTo then small else large, m))
    None.

Definition quadraticPlatform (k : Q) : Platform :=
  mkPlatform sqrtQ (fun _ => Some sampleImage) (quadraticEncoder k) None.

(** No file decodes. *)
Definition undecodablePlatform : Platform :=
  mkPlatform sqrtQ (fun _ => None) (fun _ _ m _ => Some (1000, m)) None.

(** Every [canvas.toBlob] gives a null blob. *)
Definition nullBlobPlatform : Platform :=
  mkPlatform sqrtQ (fun _ => Some sampleImage) (fun _ _ _ _ => None) None.

(** A browser that decodes every file to the sample image, reads the
    given bytes from every canvas and encodes to every type asked for,
    with 1000 bytes. *)
Section SampleBrowsers.
Import String.

Definition sampleDataURL (mime : string) : string :=
  ("data:" ++ mime ++ ";base64,AAAA")%string.

Definition sampleBrowser (data : list Z) : Dimensions.Browser :=
  Dimensions.mkBrowser true (fun _ => Some sampleImage)
    (fun _ _ _ => Some data) sampleDataURL
    (fun _ _ mime _ => Some (Dimensions.mkBlob 1000 mime))
    (fun _ _ mime _ => sampleDataURL mime).

(** Two pixels, the second with the given alpha. *)
Definition twoPixels (alpha : Z) : list Z :=
  [10; 20; 30; 255; 40; 50; 60; alpha]%Z.

(** A request for 400 by 300 at quality 80, and an original of 1000 by
    1000 like the sample image. *)
Definition sampleSettings (mode : Dimensions.FitMode) (keep : bool)
    (format : string) : Dimensions.ResizeSettings :=
  Dimensions.mkSettings 400 300 None None (Some mode) (Some keep) format 80
    None.

Definition sampleOriginal : Dimensions.OriginalDimensions :=
  Dimensions.mkOriginal 1000 1000.

End SampleBrowsers.

(** ** Vocabulary of the further properties *)

(** The log an outcome leaves, returned or thrown. *)
Definition logOf {A : Type} (o : Outcome A) : Log :=
  match o with
  | Returned _ l => l
  | Threw _ l => l
  end.

(** A computation adds at most [k] calls to the log, whether it returns
    or throws. *)
Definition spends {A : Type} (k : nat) (m : M A) : Prop :=
  forall l, (length (logOf (m l)) <= length l + k)%nat.

(** A scale within the configured bounds. *)
Definition withinScales (minScale : Q) (s : Q) : Prop := minScale <= s <= 1.

(** A call of [resizePngToTarget]: a PNG probe or a [UPNG.encode], on a
    canvas whose scale satisfies [ok]. *)
Definition pngCall (ok : Q -> Prop) (c : Call) : Prop :=
  ok (drawn (surface c)) /\ (pngProbe c \/ quantized c).

(** A call of [resizeRasterToTarget]: a [toBlob] with a quality, where
    the scale of the canvas, the type asked for and the quality satisfy
    [okS], [okM] and [okQ]. *)
Definition rasterCall (okS : Q -> Prop) (okM : Mime -> Prop) (okQ : Q -> Prop)
    (c : Call) : Prop :=
  okS (drawn (surface c)) /\
  exists m q, request c = ToBlob m (Some q) /\ okM m /\ okQ q.

(** How [resizePngToTarget] fails on a null blob: the last call of the
    log is the PNG probe for which [canvas.toBlob] gave null. *)
Definition probeFailed (P : Platform) (e : Exn) (l : Log) : Prop :=
  e = ToBlobFailed /\
  exists cv rest,
    l = mkCall cv (ToBlob image_png None) None :: rest /\
    toBlob P (length rest) cv image_png None = None.

(** The last call of the log asked for [quality] on a canvas drawn at
    [scale] and got a null blob. *)
Definition nullAt (scale quality : Q) (l : Log) : Prop :=
  exists c rest m,
    l = c :: rest /\ produced c = None /\ drawn (surface c) = scale /\
    request c = ToBlob m (Some quality).

(** ** Reasoning about numbers *)

Lemma leb_le (a b : Q) : (a <=? b) = true <-> a <= b.
Proof. apply Qle_bool_iff. Qed.

Lemma leb_gt (a b : Q) : (a <=? b) = false <-> b < a.
Proof.
  unfold leb. split; intro H.
  - apply Qnot_le_lt. intro L. apply Qle_bool_iff in L. congruence.
  - destruct (Qle_bool a b) eqn:E; [|reflexivity].
    apply Qle_bool_iff in E. exfalso. apply (Qlt_not_le _ _ H E).
Qed.

Lemma ltb_lt (a b : Q) : (a <? b) = true <-> a < b.
Proof.
  unfold ltb. rewrite negb_true_iff. apply leb_gt.
Qed.

Lemma ltb_ge (a b : Q) : (a <? b) = false <-> b <= a.
Proof.
  unfold ltb. rewrite negb_false_iff. apply leb_le.
Qed.

Lemma geb_ge (a b : Q) : (a >=? b) = true <-> b <= a.
Proof. apply leb_le. Qed.

Lemma geb_lt (a b : Q) : (a >=? b) = false <-> a < b.
Proof. apply leb_gt. Qed.

Lemma gtb_gt (a b : Q) : (a >? b) = true <-> b < a.
Proof. apply ltb_lt. Qed.

Lemma gtb_le (a b : Q) : (a >? b) = false <-> a <= b.
Proof. apply ltb_ge. Qed.

(** Turns the boolean comparisons among the hypotheses into
    propositions. *)
Ltac props :=
  repeat match goal with
  | H : (_ <=? _) = true |- _ => apply leb_le in H
  | H : (_ <=? _) = false |- _ => apply leb_gt in H
  | H : (_ <? _) = true |- _ => apply ltb_lt in H
  | H : (_ <? _) = false |- _ => apply ltb_ge in H
  | H : (_ >=? _) = true |- _ => apply geb_ge in H
  | H : (_ >=? _) = false |- _ => apply geb_lt in H
  | H : (_ >? _) = true |- _ => apply gtb_gt in H
  | H : (_ >? _) = false |- _ => apply gtb_le in H
  end.

Lemma Math_max_cases (a b : Q) :
  (a <= b /\ Math_max a b = b) \/ (b < a /\ Math_max a b = a).
Proof.
  unfold Math_max. destruct (a <=? b) eqn:E; props; auto.
Qed.

Lemma Math_min_cases (a b : Q) :
  (a <= b /\ Math_min a b = a) \/ (b < a /\ Math_min a b = b).
Proof.
  unfold Math_min. destruct (a <=? b) eqn:E; props; auto.
Qed.

Lemma midpoint_eq (a b : Q) : midpoint a b == (a + b) * (1 # 2).
Proof. unfold midpoint. rewrite Qred_correct. field. Qed.

Lemma clamp_lower (x a b : Q) : a <= clamp x a b.
Proof.
  unfold clamp. destruct (Math_max_cases a (Math_min b x)) as [[H E]|[H E]];
    rewrite E; lra.
Qed.

Lemma clamp_upper (x a b : Q) : a <= b -> clamp x a b <= b.
Proof.
  intro L. unfold clamp.
  destruct (Math_max_cases a (Math_min b x)) as [[H E]|[H E]]; rewrite E;
    destruct (Math_min_cases b x) as [[H' E']|[H' E']]; rewrite ?E' in *; lra.
Qed.

(** The value of [clamp x a b]: [a] when [x] or [b] is below it, else the
    smaller of [x] and [b]. *)
Lemma clamp_cases (x a b : Q) :
  (clamp x a b = a /\ (x < a \/ b < a)) \/
  (clamp x a b = x /\ a <= x /\ x < b) \/
  (clamp x a b = b /\ a <= b /\ b <= x).
Proof.
  unfold clamp.
  destruct (Math_min_cases b x) as [[H' E']|[H' E']]; rewrite E';
    destruct (Math_max_cases a b) as [[H E]|[H E]];
    destruct (Math_max_cases a x) as [[H2 E2]|[H2 E2]];
    rewrite ?E, ?E2; auto; try (right; auto; fail).
Qed.

Lemma withinBuffer_iff (s t b : Q) :
  withinBuffer s t b = true <-> t - b <= s /\ s <= t + b.
Proof.
  unfold withinBuffer. rewrite andb_true_iff, geb_ge, leb_le. tauto.
Qed.

Lemma withinBuffer_not (s t b : Q) :
  withinBuffer s t b = false <-> s < t - b \/ t + b < s.
Proof.
  unfold withinBuffer. rewrite andb_false_iff, geb_lt, leb_gt. tauto.
Qed.

(** ** Reasoning about computations *)

Lemma wp_ret {A : Type} (a : A) (l : Log) Q E : Q a l -> wp (ret a) l Q E.
Proof. intro H. exact H. Qed.

Lemma wp_bind {A B : Type} (m : M A) (k : A -> M B) (l : Log) Q E :
  wp m l (fun a l1 => wp (k a) l1 Q E) E -> wp (bind m k) l Q E.
Proof.
  unfold wp, bind. destruct (m l); auto.
Qed.

Lemma wp_weaken {A : Type} (m : M A) (l : Log) (Q Q' : A -> Log -> Prop)
    (E E' : Exn -> Log -> Prop) :
  wp m l Q E ->
  (forall a l', Q a l' -> Q' a l') ->
  (forall e l', E e l' -> E' e l') ->
  wp m l Q' E'.
Proof.
  unfold wp. destruct (m l); auto.
Qed.

Lemma wp_returned {A : Type} (m : M A) (l : Log) Q E a l' :
  wp m l Q E -> m l = Returned a l' -> Q a l'.
Proof.
  unfold wp. intros H R. rewrite R in H. exact H.
Qed.

Lemma wp_total {A : Type} (m : M A) (l : Log) Q :
  wp m l Q noExn -> exists a l', m l = Returned a l' /\ Q a l'.
Proof.
  unfold wp, noExn. destruct (m l); [eauto | tauto].
Qed.

Section CallFacts.
Variable P : Platform.

(** [canvas.toBlob] always answers, and logs exactly one call. *)
Lemma wp_canvas_toBlob canvas mime quality l (Q : option Blob -> Log -> Prop) E :
  Q (encoded P l canvas mime quality)
    (mkCall canvas (ToBlob mime quality) (encoded P l canvas mime quality) :: l) ->
  wp (canvas_toBlob P canvas mime quality) l Q E.
Proof.
  intro H. exact H.
Qed.

Lemma encoded_Some canvas mime quality l b :
  encoded P l canvas mime quality = Some b ->
  toBlob P (length l) canvas mime quality = Some (size b, type b).
Proof.
  unfold encoded. destruct (toBlob P _ _ _ _) as [[sz ty]|]; [|discriminate].
  intro E. injection E as <-. reflexivity.
Qed.

Lemma encoded_None canvas mime quality l :
  encoded P l canvas mime quality = None ->
  toBlob P (length l) canvas mime quality = None.
Proof.
  unfold encoded. destruct (toBlob P _ _ _ _) as [[sz ty]|]; [discriminate|].
  reflexivity.
Qed.

Lemma wp_upng_encode enc canvas colors l (Q : Blob -> Log -> Prop) E :
  (forall b,
     b = mkBlob (enc (length l) canvas colors) image_png (length l) ->
     Q b (mkCall canvas (UpngEncode colors) (Some b) :: l)) ->
  wp (upng_encode enc canvas colors) l Q E.
Proof.
  intro H. unfold wp, upng_encode. apply H. reflexivity.
Qed.

Lemma wp_loadImage file l (Q : Image -> Log -> Prop) (E : Exn -> Log -> Prop) :
  (forall img, decode P file = Some img -> Q img l) ->
  (decode P file = None -> E DecodeError l) ->
  wp (loadImage P file) l Q E.
Proof.
  intros HQ HE. unfold wp, loadImage.
  destruct (decode P file); [apply HQ | apply HE]; reflexivity.
Qed.

End CallFacts.

(** ** The PNG scale search, step by step *)

Section PngSteps.
Variable P : Platform.
Variable img : Image.

Import Png.

(** A render at a scale is one [toBlob] call on a canvas drawn at that
    scale; it throws when the blob is null. *)
Lemma wp_renderAtScale scale l (Q : Blob * Canvas -> Log -> Prop) E :
  (forall b cv,
     drawn cv = scale ->
     toBlob P (length l) cv image_png None = Some (size b, type b) ->
     Q (b, cv) (mkCall cv (ToBlob image_png None) (Some b) :: l)) ->
  (forall cv,
     drawn cv = scale ->
     toBlob P (length l) cv image_png None = None ->
     E ToBlobFailed (mkCall cv (ToBlob image_png None) None :: l)) ->
  wp (renderAtScale P img scale) l Q E.
Proof.
  intros HQ HE. unfold renderAtScale, toBlobAsync.
  apply wp_bind. apply wp_bind. apply wp_canvas_toBlob.
  destruct (encoded P l _ image_png None) as [b|] eqn:T.
  - apply wp_ret. apply wp_ret.
    apply HQ; [reflexivity | apply encoded_Some; exact T].
  - unfold wp, throw. apply HE; [reflexivity | apply encoded_None; exact T].
Qed.

Lemma wp_tryGuess targetBytes guess st l (Q : Search -> Log -> Prop) E :
  (forall b cv,
     drawn cv = guess ->
     toBlob P (length l) cv image_png None = Some (size b, type b) ->
     let c := mkCall cv (ToBlob image_png None) (Some b) in
     (size b <= targetBytes ->
      Q (mkSearch guess (high st) (Some b) guess cv) (c :: l)) /\
     (targetBytes < size b ->
      Q (mkSearch (low st) guess (bestBlob st) (bestScale st) cv) (c :: l))) ->
  (forall cv,
     drawn cv = guess ->
     toBlob P (length l) cv image_png None = None ->
     E ToBlobFailed (mkCall cv (ToBlob image_png None) None :: l)) ->
  wp (tryGuess P img targetBytes guess st) l Q E.
Proof.
  intros HQ HE. unfold tryGuess. apply wp_bind.
  apply wp_renderAtScale; [|exact HE].
  intros b cv D T. destruct (HQ b cv D T) as [Hle Hgt].
  destruct (size b <=? targetBytes) eqn:C; props; apply wp_ret; auto.
Qed.

Lemma wp_bisect targetBytes minScale st l (Q : Search -> Log -> Prop) E :
  let mid := clamp (midpoint (low st) (high st)) minScale 1 in
  (forall b cv,
     drawn cv = mid ->
     toBlob P (length l) cv image_png None = Some (size b, type b) ->
     let c := mkCall cv (ToBlob image_png None) (Some b) in
     (targetBytes < size b ->
      Q (mkSearch (low st) mid (bestBlob st) (bestScale st) cv) (c :: l)) /\
     (size b <= targetBytes ->
      Q (mkSearch mid (high st) (Some b) mid cv) (c :: l))) ->
  (forall cv,
     drawn cv = mid ->
     toBlob P (length l) cv image_png None = None ->
     E ToBlobFailed (mkCall cv (ToBlob image_png None) None :: l)) ->
  wp (bisect P img targetBytes minScale st) l Q E.
Proof.
  intros mid HQ HE. unfold bisect. apply wp_bind.
  apply wp_renderAtScale; [|exact HE].
  intros b cv D T. destruct (HQ b cv D T) as [Hgt Hle].
  destruct (size b >? targetBytes) eqn:C; props; apply wp_ret; auto.
Qed.

(** The loop keeps an invariant indexed by the number of rounds done, and
    ends either narrow or with its rounds used up. *)
Lemma wp_bisectLoop (I : nat -> Search -> Log -> Prop) E targetBytes minScale :
  (forall k st l,
     I k st l -> eps < high st - low st ->
     wp (bisect P img targetBytes minScale st) l (I (S k)) E) ->
  forall n k st l,
    I k st l ->
    wp (bisectLoop P n img targetBytes minScale st) l
       (fun st' l' =>
          exists m, I m st' l' /\
                    (m = (k + n)%nat \/ high st' - low st' <= eps))
       E.
Proof.
  intros Step. induction n as [|n IH]; intros k st l HI; simpl.
  - apply wp_ret. exists k. split; [exact HI | left; lia].
  - destruct (high st - low st >? eps) eqn:C; props.
    + apply wp_bind.
      eapply wp_weaken; [apply (Step k st l HI C) | | auto].
      intros st' l' HI'. cbv beta.
      eapply wp_weaken; [apply (IH (S k) st' l' HI') | | auto].
      intros st'' l'' [m [Hm Hn]]. exists m. split; [exact Hm|].
      destruct Hn as [Hn|Hn]; [left; lia | right; exact Hn].
    + apply wp_ret. exists k. split; [exact HI | right; exact C].
Qed.

Lemma wp_forceMinimum minScale st l (Q : Blob * Q * Canvas -> Log -> Prop) E :
  (forall b, bestBlob st = Some b -> Q (b, bestScale st, canvas st) l) ->
  (bestBlob st = None ->
   wp (renderAtScale P img (Math_max minScale (1 # 100))) l
      (fun r l' => Q (fst r, minScale, snd r) l') E) ->
  wp (forceMinimum P img minScale st) l Q E.
Proof.
  intros HS HN. unfold forceMinimum. destruct (bestBlob st) as [b|].
  - apply wp_ret. apply HS. reflexivity.
  - apply wp_bind. eapply wp_weaken; [apply HN; reflexivity | | auto].
    intros [b cv] l' H. apply wp_ret. exact H.
Qed.

End PngSteps.

(** ** The retained probe is the largest conforming one *)

Lemma clamp_bounded (x a : Q) : clamp x a 1 <= 1 \/ clamp x a 1 <= a.
Proof.
  destruct (clamp_cases x a 1) as [[E _]|[[E [_ H]]|[E _]]]; rewrite E.
  - right. lra.
  - left. lra.
  - left. lra.
Qed.

(** While the loop runs, the scale it probes lies strictly above [low]. *)
Lemma mid_above_low (lo hi a : Q) :
  (hi <= 1 \/ hi <= a) -> eps < hi - lo ->
  lo < clamp (midpoint lo hi) a 1.
Proof.
  unfold eps. intros B W.
  assert (M := midpoint_eq lo hi).
  destruct (clamp_cases (midpoint lo hi) a 1)
    as [[E H]|[[E [H1 H2]]|[E [H1 H2]]]]; rewrite E.
  - destruct H as [H|H]; destruct B as [B|B]; lra.
  - lra.
  - destruct B as [B|B]; lra.
Qed.

Lemma tops_cons_other ceiling c c0 l :
  tops ceiling c l ->
  (pngProbe c0 -> conforms ceiling c0 -> drawn (surface c0) < drawn (surface c)) ->
  tops ceiling c (c0 :: l).
Proof.
  intros [I H] N. split; [right; exact I|].
  intros c' [->|I'] Pr Cf; [right; auto | auto].
Qed.

Lemma noneConform_cons ceiling c0 l :
  noneConform ceiling l ->
  (pngProbe c0 -> ~ conforms ceiling c0) ->
  noneConform ceiling (c0 :: l).
Proof.
  intros H N c [<-|I]; auto.
Qed.

Lemma tops_cons_new ceiling c l :
  (forall c', In c' l -> pngProbe c' -> conforms ceiling c' ->
     drawn (surface c') < drawn (surface c)) ->
  tops ceiling c (c :: l).
Proof.
  intro H. split; [left; reflexivity|].
  intros c' [<-|I] Pr Cf; [left; reflexivity | right; auto].
Qed.

Lemma oversize_not_conforms ceiling cv rq b :
  ceiling < size b -> ~ conforms ceiling (mkCall cv rq (Some b)).
Proof.
  intros H [b' [E L]]. simpl in E. injection E as <-. lra.
Qed.

Section PngLargest.
Import Png.
Variable P : Platform.
Variable img : Image.
Variables targetBytes minScale : Q.

Lemma bracketInv_guess guess st l :
  noneConform targetBytes l -> bestBlob st = None -> high st = 1 ->
  wp (tryGuess P img targetBytes (clamp guess minScale 1) st) l
     (bracketInv targetBytes minScale) anyExn.
Proof.
  intros N B H. apply wp_tryGuess; [|intros; exact I].
  intros b cv D T c. split; intro S; unfold bracketInv; simpl.
  - split; [left; rewrite H; lra|]. split; [reflexivity|].
    exists c. repeat split; auto; try reflexivity.
    + left. reflexivity.
    + intros c' [<-|I'] Pr Cf; [left; reflexivity|].
      exfalso. exact (N c' I' Pr Cf).
  - split; [apply clamp_bounded|]. rewrite B.
    apply noneConform_cons; [exact N|]. intros _.
    apply oversize_not_conforms. exact S.
Qed.

Lemma bracketInv_bisect st l :
  bracketInv targetBytes minScale st l -> eps < high st - low st ->
  wp (bisect P img targetBytes minScale st) l
     (bracketInv targetBytes minScale) anyExn.
Proof.
  intros [HB HI] W. apply wp_bisect; [|intros; exact I].
  intros b cv D T c.
  assert (A := mid_above_low (low st) (high st) minScale HB W).
  split; intro S; unfold bracketInv; simpl.
  - split; [apply clamp_bounded|].
    destruct (bestBlob st) as [b0|].
    + destruct HI as [E [c0 [Pr [Pd [Sz [Dr Tp]]]]]].
      split; [exact E|]. exists c0. repeat split; auto; try apply Tp.
      * right. apply Tp.
      * intros c' [<-|I'] Pr' Cf.
        -- exfalso. revert Cf. apply oversize_not_conforms. exact S.
        -- destruct Tp as [_ Tp]. auto.
    + apply noneConform_cons; [exact HI|]. intros _.
      apply oversize_not_conforms. exact S.
  - split; [exact HB|]. split; [reflexivity|].
    exists c. repeat split; auto; try reflexivity.
    + left. reflexivity.
    + intros c' [<-|I'] Pr' Cf; [left; reflexivity|]. right.
      simpl. rewrite D.
      destruct (bestBlob st) as [b0|].
      * destruct HI as [E [c0 [Pr [Pd [Sz [Dr [_ Tp]]]]]]].
        destruct (Tp c' I' Pr' Cf) as [->|Lt]; [rewrite Dr; exact A|].
        rewrite Dr in Lt. lra.
      * exfalso. exact (HI c' I' Pr' Cf).
Qed.

Lemma bracketInv_search guess n :
  wp (searchRounds P img targetBytes (clamp guess minScale 1) minScale n) []
     (bracketInv targetBytes minScale) anyExn.
Proof.
  unfold searchRounds. apply wp_bind.
  eapply wp_weaken; [apply bracketInv_guess | | auto];
    try reflexivity; [intros c []|].
  intros st l HI. cbv beta.
  eapply wp_weaken;
    [apply (wp_bisectLoop P img (fun _ => bracketInv targetBytes minScale)
              anyExn targetBytes minScale) with (k := O) | | auto].
  - intros k st' l' HI' W. apply bracketInv_bisect; assumption.
  - exact HI.
  - intros st' l' [m [HI' _]]. exact HI'.
Qed.

End PngLargest.

Lemma mid_below_high (lo hi a : Q) :
  a <= lo -> eps < hi - lo -> clamp (midpoint lo hi) a 1 < hi.
Proof.
  unfold eps. intros L W.
  assert (M := midpoint_eq lo hi).
  destruct (clamp_cases (midpoint lo hi) a 1)
    as [[E H]|[[E [H1 H2]]|[E [H1 H2]]]]; rewrite E; lra.
Qed.

Lemma upng_not_probe cv colors b : ~ pngProbe (mkCall cv (UpngEncode colors) b).
Proof. unfold pngProbe. simpl. discriminate. Qed.

Lemma foundInv_largest ceiling minScale b bs cv l :
  foundInv ceiling minScale (b, bs, cv) l ->
  (exists c, In c l /\ pngProbe c /\ conforms ceiling c) ->
  largestConforming ceiling l b.
Proof.
  intros [[c [Pr [Pd [Sz [_ Tp]]]]]|[_ [N|L]]] [c' [I' [Pr' Cf']]].
  - exists c. auto.
  - exfalso. exact (N c' I' Pr' Cf').
  - exact L.
Qed.

Section PngFinish.
Import Png.
Variable P : Platform.
Variable img : Image.
Variables targetBytes bufferBytes minScale : Q.

Lemma foundInv_force st l :
  bracketInv targetBytes minScale st l ->
  wp (forceMinimum P img minScale st) l (foundInv targetBytes minScale) anyExn.
Proof.
  intros [_ HI]. apply wp_forceMinimum.
  - intros b E. rewrite E in HI. destruct HI as [Es [c [Pr [Pd [Sz [Dr Tp]]]]]].
    left. exists c. rewrite Es. auto.
  - intro E. rewrite E in HI. apply wp_renderAtScale; [|intros; exact I].
    intros b cv D T. simpl. right. split; [reflexivity|].
    destruct (size b <=? targetBytes) eqn:C; props.
    + right. exists (mkCall cv (ToBlob image_png None) (Some b)).
      split; [reflexivity|]. split; [reflexivity|]. split; [exact C|].
      apply tops_cons_new.
      intros c' I' Pr' Cf'. exfalso. exact (HI c' I' Pr' Cf').
    + left. apply noneConform_cons; [exact HI|]. intros _.
      apply oversize_not_conforms. exact C.
Qed.

Lemma quantLoop_narrow enc colors n st l :
  qhigh st - qlow st <= eps ->
  quantLoop P n enc img minScale targetBytes bufferBytes colors st l
  = Returned (qbest st) l.
Proof.
  intro W. apply gtb_le in W. destruct n; simpl; [reflexivity|].
  rewrite W. reflexivity.
Qed.

(** The renders of the quantization refinement stay strictly below the
    scale it starts from, so the retained probe still tops the log; what
    the refinement returns is the output of a [UPNG.encode] call. *)
Lemma refine_keeps_top enc colors c bs n :
  drawn (surface c) = bs ->
  forall st l,
    minScale <= qlow st -> qhigh st <= bs -> tops targetBytes c l ->
    (forall q, qbest st = Some q ->
       exists cq, In cq l /\ quantized cq /\ produced cq = Some q) ->
    wp (quantLoop P n enc img minScale targetBytes bufferBytes colors st) l
       (fun r l' =>
          tops targetBytes c l' /\
          forall q, r = Some q ->
            exists cq, In cq l' /\ quantized cq /\ produced cq = Some q)
       anyExn.
Proof.
  intro D. induction n as [|n IH]; intros st l Lo Hi Tp Qb; simpl.
  - apply wp_ret. auto.
  - destruct (qhigh st - qlow st >? eps) eqn:C; props;
      [|apply wp_ret; auto].
    assert (A := mid_below_high (qlow st) (qhigh st) minScale Lo C).
    apply wp_bind. unfold quantBisect. apply wp_bind.
    apply wp_renderAtScale; [|intros; exact I].
    intros b cv Dc T. apply wp_bind. apply wp_upng_encode. intros q Eq.
    set (c1 := mkCall cv (ToBlob image_png None) (Some b)).
    set (c2 := mkCall cv (UpngEncode colors) (Some q)).
    assert (Tp' : tops targetBytes c (c2 :: c1 :: l)).
    { apply tops_cons_other; [apply tops_cons_other; [exact Tp|]|].
      - intros _ _. simpl. rewrite Dc, D. lra.
      - intro Pr. exfalso. revert Pr. apply upng_not_probe. }
    destruct (size q >? targetBytes) eqn:C1.
    + apply wp_ret. apply IH; simpl; auto; try lra.
      intros q0 E0. destruct (Qb q0 E0) as [cq [Iq Hq]].
      exists cq. split; [right; right; exact Iq | exact Hq].
    + destruct (withinBuffer (size q) targetBytes bufferBytes) eqn:C2.
      * apply wp_ret. apply wp_ret. split; [exact Tp'|].
        intros q0 E0. injection E0 as <-. exists c2.
        split; [left; reflexivity|]. split; [exists colors|]; reflexivity.
      * apply wp_ret. apply IH; simpl; auto.
        -- apply clamp_lower.
        -- intros q0 E0. injection E0 as <-. exists c2.
           split; [left; reflexivity|]. split; [exists colors|]; reflexivity.
Qed.

Lemma finish_largest n uq colors found l :
  foundInv targetBytes minScale found l ->
  wp (finish P img targetBytes bufferBytes minScale n uq colors found) l
     (fun r l' =>
        (exists c, In c l' /\ quantized c /\ produced c = Some r) \/
        ((exists c, In c l' /\ pngProbe c /\ conforms targetBytes c) ->
         largestConforming targetBytes l' r))
     anyExn.
Proof.
  destruct found as [[b bs] cv]. intro F. unfold finish.
  destruct (withinBuffer (size b) targetBytes bufferBytes).
  { apply wp_ret. right. apply (foundInv_largest _ _ _ _ _ _ F). }
  destruct uq; [|apply wp_ret; right; apply (foundInv_largest _ _ _ _ _ _ F)].
  destruct (UPNG P) as [enc|];
    [|apply wp_ret; right; apply (foundInv_largest _ _ _ _ _ _ F)].
  apply wp_bind. apply wp_upng_encode. intros q Eq.
  set (cq := mkCall cv (UpngEncode colors) (Some q)).
  destruct (withinBuffer (size q) targetBytes bufferBytes).
  { apply wp_ret. left. exists cq.
    split; [left; reflexivity|]. split; [exists colors|]; reflexivity. }
  apply wp_bind. unfold binarySearchWithQuantization.
  destruct F as [[c [Pr [Pd [Sz [Dr Tp]]]]]|[Es F]].
  - assert (Tq : tops targetBytes c (cq :: l)).
    { apply tops_cons_other; [exact Tp|]. intro Pr'. exfalso.
      revert Pr'. apply upng_not_probe. }
    eapply wp_weaken;
      [apply (refine_keeps_top enc colors c bs n Dr
                (mkRefine minScale bs None cv) (cq :: l)
                (Qle_refl _) (Qle_refl _) Tq)
      | | auto].
    + simpl. discriminate.
    + intros [r|] l' [Tp' Hr]; apply wp_ret.
      * left. apply Hr. reflexivity.
      * right. intros _. exists c. auto.
  - unfold wp. rewrite quantLoop_narrow;
      [|simpl; rewrite Es; unfold eps; lra].
    simpl. right. intros [c' [[<-|I'] [Pr' Cf']]].
    { exfalso. revert Pr'. apply upng_not_probe. }
    destruct F as [N|[c [Pr [Pd [Sz Tp]]]]].
    + exfalso. exact (N c' I' Pr' Cf').
    + exists c. repeat split; auto.
      * right. apply Tp.
      * intros c'' [<-|I''] Pr'' Cf''.
        -- exfalso. revert Pr''. apply upng_not_probe.
        -- destruct Tp as [_ Tp]. auto.
Qed.

End PngFinish.

(** C1.  In a run of [resizePngToTarget] some PNG probe of which had a
    size not above [targetBytes], the blob returned is, unless it is the
    output of the quantization refinement, the blob of the probe with the
    largest scale among all PNG probes whose size was not above
    [targetBytes]; every other such probe has a strictly smaller scale. *)
Theorem retained_probe_is_largest_conforming
    (P : Platform) (file : Blob) (opts : Png.ResizeOptions)
    (b : Blob) (l : Log) :
  Png.resizePngToTarget P file opts [] = Returned b l ->
  (exists c, In c l /\ pngProbe c /\ conforms (Png.targetBytesOf opts) c) ->
  (exists c, In c l /\ quantized c /\ produced c = Some b) \/
  largestConforming (Png.targetBytesOf opts) l b.
Proof.
  intros R Ex.
  assert (W : wp (Png.resizePngToTarget P file opts) []
                (fun r l' =>
                   (exists c, In c l' /\ pngProbe c /\
                              conforms (Png.targetBytesOf opts) c) ->
                   (exists c, In c l' /\ quantized c /\ produced c = Some r) \/
                   largestConforming (Png.targetBytesOf opts) l' r)
                anyExn).
  { unfold Png.resizePngToTarget.
    destruct (_ && _); [apply wp_ret; intros [c [[] _]]|].
    apply wp_bind. apply wp_loadImage; [|intros; exact I]. intros img _.
    destruct (size file <=? _); [apply wp_ret; intros [c [[] _]]|].
    apply wp_bind. unfold Png.scaleSearch. apply wp_bind.
    eapply wp_weaken; [apply bracketInv_search | | auto].
    intros st l1 HI. cbv beta.
    eapply wp_weaken; [apply foundInv_force; exact HI | | auto].
    intros found l2 F. cbv beta.
    eapply wp_weaken; [apply finish_largest; exact F | | auto].
    intros r l3 [H|H] Ex'; [left; exact H | right; exact (H Ex')]. }
  exact (wp_returned _ _ _ _ _ _ W R Ex).
Qed.

Lemma retained_probe_is_largest_conforming_witness :
  exists b l,
    Png.resizePngToTarget (quadraticPlatform 512000)
      (mkBlob 512000 image_png 0)
      (Png.mkOptions 150 None (Some 3%nat) None None None) [] = Returned b l /\
    largestConforming (150 * 1024) l b.
Proof.
  eexists. eexists. split; [vm_compute; reflexivity|].
  match goal with
  | |- largestConforming _ ?L ?B =>
      assert (R : Png.resizePngToTarget (quadraticPlatform 512000)
                    (mkBlob 512000 image_png 0)
                    (Png.mkOptions 150 None (Some 3%nat) None None None) []
                  = Returned B L) by (vm_compute; reflexivity)
  end.
  destruct (retained_probe_is_largest_conforming _ _ _ _ _ R) as [[c [I [[k Q] _]]]|L].
  - eexists. split; [do 3 right; left; reflexivity|]. split; [reflexivity|].
    eexists. split; [reflexivity|]. apply leb_le. vm_compute. reflexivity.
  - exfalso. simpl in I.
    repeat (destruct I as [<-|I]; [discriminate Q|]). exact I.
  - exact L.
Defined.

(** ** The clamped target of the PNG resizer *)

Lemma png_targetBytes_range (opts : Png.ResizeOptions) :
  10 * 1024 <= Png.targetBytesOf opts <= 200 * 1024.
Proof.
  unfold Png.targetBytesOf.
  destruct (Math_min_cases (200 * 1024) (Png.targetKB opts * 1024))
    as [[H E]|[H E]]; rewrite E;
    destruct (Math_max_cases (10 * 1024) (200 * 1024)) as [[H1 E1]|[H1 E1]];
    destruct (Math_max_cases (10 * 1024) (Png.targetKB opts * 1024))
      as [[H2 E2]|[H2 E2]];
    rewrite ?E1, ?E2; lra.
Qed.

Lemma png_targetBytes_above (opts : Png.ResizeOptions) :
  200 < Png.targetKB opts -> Png.targetBytesOf opts = 200 * 1024.
Proof.
  intro H. unfold Png.targetBytesOf.
  destruct (Math_min_cases (200 * 1024) (Png.targetKB opts * 1024))
    as [[H' E]|[H' E]]; [rewrite E; reflexivity | lra].
Qed.

Lemma png_targetBytes_below (opts : Png.ResizeOptions) :
  Png.targetKB opts < 10 -> Png.targetBytesOf opts = 10 * 1024.
Proof.
  intro H. unfold Png.targetBytesOf.
  destruct (Math_min_cases (200 * 1024) (Png.targetKB opts * 1024))
    as [[H' E]|[H' E]]; [lra|]. rewrite E.
  destruct (Math_max_cases (10 * 1024) (Png.targetKB opts * 1024))
    as [[H2 E2]|[H2 E2]]; [lra | exact E2].
Qed.

Lemma png_targetBytes_inside (opts : Png.ResizeOptions) :
  10 <= Png.targetKB opts <= 200 ->
  Png.targetBytesOf opts == Png.targetKB opts * 1024.
Proof.
  intros [H1 H2]. unfold Png.targetBytesOf.
  destruct (Math_min_cases (200 * 1024) (Png.targetKB opts * 1024))
    as [[H' E]|[H' E]]; rewrite E.
  - destruct (Math_max_cases (10 * 1024) (200 * 1024)) as [[H3 E3]|[H3 E3]];
      rewrite E3; lra.
  - destruct (Math_max_cases (10 * 1024) (Png.targetKB opts * 1024))
      as [[H3 E3]|[H3 E3]]; rewrite E3; lra.
Qed.

(** The run depends on [targetKB] through [targetBytes] only. *)
Lemma png_run_by_target (P : Platform) (file : Blob)
    (opts : Png.ResizeOptions) (kb : Q) (l : Log) :
  Png.targetBytesOf (withTargetKB kb opts) = Png.targetBytesOf opts ->
  Png.resizePngToTarget P file (withTargetKB kb opts) l
  = Png.resizePngToTarget P file opts l.
Proof.
  intro H. unfold Png.resizePngToTarget, Png.guessScaleOf. rewrite H.
  reflexivity.
Qed.

Lemma png_within_band_returned (P : Platform) (file : Blob)
    (opts : Png.ResizeOptions) (l : Log) :
  Png.targetBytesOf opts - Png.bufferBytesOf opts <= size file
  <= Png.targetBytesOf opts + Png.bufferBytesOf opts ->
  Png.resizePngToTarget P file opts l = Returned file l.
Proof.
  unfold Png.resizePngToTarget.
  intros [H1 H2]. apply geb_ge in H1. apply leb_le in H2.
  rewrite H1, H2. reflexivity.
Qed.

Lemma png_below_ceiling_returned (P : Platform) (file : Blob)
    (opts : Png.ResizeOptions) (l : Log) :
  size file <= Png.targetBytesOf opts + Png.bufferBytesOf opts ->
  decode P file <> None ->
  Png.resizePngToTarget P file opts l = Returned file l.
Proof.
  unfold Png.resizePngToTarget.
  intros H D. apply leb_le in H.
  destruct (_ && _); [reflexivity|].
  unfold bind, loadImage. destruct (decode P file); [|congruence].
  unfold ret. rewrite H. reflexivity.
Qed.


(** ** The quality search, step by step *)

Lemma grown_refl (p : Call -> Prop) (l : Log) : grown p l l.
Proof. exists []. split; [reflexivity | constructor]. Qed.

Lemma grown_cons (p : Call -> Prop) (l0 l : Log) (c : Call) :
  grown p l0 l -> p c -> grown p l0 (c :: l).
Proof.
  intros [new [E F]] H. exists (c :: new). split.
  - rewrite E. reflexivity.
  - constructor; assumption.
Qed.

Lemma grown_trans (p : Call -> Prop) (l0 l1 l2 : Log) :
  grown p l0 l1 -> grown p l1 l2 -> grown p l0 l2.
Proof.
  intros [n1 [E1 F1]] [n2 [E2 F2]]. exists (n2 ++ n1). split.
  - rewrite E2, E1. apply app_assoc.
  - apply Forall_app. split; assumption.
Qed.

Lemma grown_weaken (p q : Call -> Prop) (l0 l : Log) :
  (forall c, p c -> q c) -> grown p l0 l -> grown q l0 l.
Proof.
  intros H [new [E F]]. exists new. split; [exact E|].
  eapply Forall_impl; [exact H | exact F].
Qed.

Lemma fitsBelow_lt (t b : Q) (x : Blob) : fitsBelow t b x -> size x < t - b.
Proof.
  intros [L W]. apply withinBuffer_not in W. destruct W as [W|W]; lra.
Qed.

Section QualitySteps.
Import Raster.
Variable P : Platform.
Variable canvas : Canvas.
Variable mime : Mime.
Variables targetBytes bufferBytes minQ maxQ : Q.

Lemma wp_qualityStep st l (Q : Flow QSearch (option Blob) -> Log -> Prop) E :
  let mid := clamp (midpoint (lo st) (hi st)) minQ maxQ in
  let r := encoded P l canvas mime (Some mid) in
  let l' := mkCall canvas (ToBlob mime (Some mid)) r :: l in
  (r = None -> Q (Break st) l') ->
  (forall b, r = Some b -> targetBytes + bufferBytes < size b ->
     Q (Continue (mkQSearch (lo st) mid (best st))) l') ->
  (forall b, r = Some b -> size b <= targetBytes + bufferBytes ->
     withinBuffer (size b) targetBytes bufferBytes = true ->
     Q (Return (Some b)) l') ->
  (forall b, r = Some b -> fitsBelow targetBytes bufferBytes b ->
     Q (Continue (mkQSearch mid (hi st) (Some b))) l') ->
  wp (qualityStep P canvas mime targetBytes bufferBytes minQ maxQ st) l Q E.
Proof.
  intros mid r l' HN HO HW HB. unfold qualityStep, toBlobAsync.
  apply wp_bind. apply wp_canvas_toBlob. fold mid. fold r. fold l'.
  destruct r as [b|] eqn:Er; [|apply wp_ret; apply HN; reflexivity].
  destruct (size b >? targetBytes + bufferBytes) eqn:C; props.
  - apply wp_ret. apply (HO b); auto.
  - destruct (withinBuffer (size b) targetBytes bufferBytes) eqn:W;
      apply wp_ret.
    + apply (HW b); auto.
    + apply (HB b); [reflexivity | split; assumption].
Qed.

Lemma wp_qualityLoop (I : QSearch -> Log -> Prop)
    (Rt : option Blob -> Log -> Prop) E :
  (forall st l,
     I st l -> eps < hi st - lo st ->
     wp (qualityStep P canvas mime targetBytes bufferBytes minQ maxQ st) l
        (flowPost I Rt) E) ->
  forall n st l,
    I st l ->
    wp (qualityLoop P n canvas mime targetBytes bufferBytes minQ maxQ st) l
       (flowPost I Rt) E.
Proof.
  intro Step. induction n as [|n IH]; intros st l HI; simpl.
  - apply wp_ret. exact HI.
  - destruct (hi st - lo st >? eps) eqn:C; props; [|apply wp_ret; exact HI].
    apply wp_bind.
    eapply wp_weaken; [apply (Step st l HI C) | | auto].
    intros [st'|st'|r] l' H; simpl in H.
    + apply IH. exact H.
    + apply wp_ret. exact H.
    + apply wp_ret. exact H.
Qed.

(** The rounds of [fitByQuality] never throw; they end with a best probe
    under the ceiling and outside the band, or return a probe within the
    band, or [None] when the probe at [minQ] does not fit. *)
Lemma qualityRounds_outcome n l :
  wp (qualityRounds P canvas mime targetBytes bufferBytes minQ maxQ n) l
     (qualityOutcome P canvas mime targetBytes bufferBytes minQ l) noExn.
Proof.
  unfold qualityOutcome. cbv zeta.
  remember (encoded P l canvas mime (Some minQ)) as b1 eqn:E1.
  match goal with |- wp _ _ ?Q _ => set (Post := Q) end.
  unfold qualityRounds. apply wp_bind. unfold openQuality, toBlobAsync.
  apply wp_bind. apply wp_canvas_toBlob. rewrite <- E1.
  set (c1 := mkCall canvas (ToBlob mime (Some minQ)) b1).
  assert (G1 : grown (onCanvas canvas) (c1 :: l) (c1 :: l)) by apply grown_refl.
  destruct b1 as [minTry|].
  2:{ apply wp_ret. apply wp_ret. split; [exact G1 | left; reflexivity]. }
  destruct (size minTry >? targetBytes + bufferBytes) eqn:C1; props.
  { apply wp_ret. apply wp_ret. split; [exact G1|]. right. eauto. }
  destruct (withinBuffer (size minTry) targetBytes bufferBytes) eqn:W1.
  { apply wp_ret. apply wp_ret. split; [exact G1|]. split; eauto. }
  apply wp_bind. apply wp_canvas_toBlob.
  set (b2 := encoded P (c1 :: l) canvas mime (Some maxQ)).
  set (c2 := mkCall canvas (ToBlob mime (Some maxQ)) b2).
  assert (G2 : grown (onCanvas canvas) (c1 :: l) (c2 :: c1 :: l))
    by (apply grown_cons; [exact G1 | reflexivity]).
  (* the loop, from any state whose best probe fits below the band *)
  assert (Loop : forall st,
            (exists q, best st = Some q /\ fitsBelow targetBytes bufferBytes q) ->
            wp (qualityLoop P n canvas mime targetBytes bufferBytes minQ maxQ st)
               (c2 :: c1 :: l) Post noExn).
  { intros st Hb.
    eapply wp_weaken;
      [apply (wp_qualityLoop
                (fun st l' => grown (onCanvas canvas) (c1 :: l) l' /\
                              exists q, best st = Some q /\
                                        fitsBelow targetBytes bufferBytes q)
                (fun r l' => grown (onCanvas canvas) (c1 :: l) l' /\
                             exists q, r = Some q /\
                               withinBuffer (size q) targetBytes bufferBytes = true)
                noExn)
      | | auto].
    - intros st' l' [G Hq] W. apply wp_qualityStep; simpl.
      + intros _. split; [apply grown_cons; [exact G | reflexivity] | exact Hq].
      + intros b _ _. split; [apply grown_cons; [exact G | reflexivity] | exact Hq].
      + intros b _ _ Wb. split; [apply grown_cons; [exact G | reflexivity]|].
        eauto.
      + intros b _ Fb. split; [apply grown_cons; [exact G | reflexivity]|].
        eauto.
    - split; [exact G2 | exact Hb].
    - intros [st'|st'|[q|]] l' H; simpl in H; destruct H as [G H];
        (split; [exact G|]).
      + split; [exact H | eauto].
      + split; [exact H | eauto].
      + destruct H as [q' [Eq Wq]]. injection Eq as <-. split; eauto.
      + destruct H as [q' [Eq _]]. discriminate Eq. }
  destruct b2 as [maxTry|].
  2:{ apply wp_ret. apply Loop. exists minTry. split; [reflexivity|].
      split; assumption. }
  destruct (size maxTry <=? targetBytes + bufferBytes) eqn:C2; props.
  2:{ apply wp_ret. apply Loop. exists minTry. split; [reflexivity|].
      split; assumption. }
  destruct (withinBuffer (size maxTry) targetBytes bufferBytes) eqn:W2.
  { apply wp_ret. apply wp_ret. split; [exact G2|]. split; eauto. }
  apply wp_ret. apply Loop. exists maxTry. split; [reflexivity|].
  split; assumption.
Qed.

Lemma fitByQuality_outcome n l :
  wp (fitByQuality P canvas mime targetBytes bufferBytes minQ maxQ n) l
     (fitOutcome P canvas mime targetBytes bufferBytes minQ l) noExn.
Proof.
  unfold fitByQuality. apply wp_bind.
  eapply wp_weaken; [apply qualityRounds_outcome | | auto].
  unfold qualityOutcome, fitOutcome.
  intros [st|st|[q|]] l' [G H]; apply wp_ret; (split; [exact G|]).
  - destruct H as [[q [Eq Fq]] Hb]. rewrite Eq. split; [apply Fq | exact Hb].
  - destruct H as [[q [Eq Fq]] Hb]. rewrite Eq. split; [apply Fq | exact Hb].
  - destruct H as [W Hb]. split; [|exact Hb].
    apply withinBuffer_iff in W. lra.
  - exact H.
Qed.

End QualitySteps.

(** ** The raster scale search, step by step *)

Section ScaleSteps.
Import Raster.
Variable P : Platform.
Variable file : Blob.
Variable img : Image.
Variable effMime : Mime.
Variables targetBytes bufferBytes minQuality maxQuality : Q.
Variable qualityIterations : nat.
Variable minScale : Q.

Lemma wp_tryScale scale l (Q : option Blob -> Log -> Prop) :
  (forall r l',
     fitOutcome P (drawAtScale img scale) effMime targetBytes bufferBytes
       minQuality l r l' ->
     Q r l') ->
  wp (tryScale P img effMime targetBytes bufferBytes minQuality maxQuality
        qualityIterations scale) l Q noExn.
Proof.
  intro H. unfold tryScale.
  eapply wp_weaken; [apply fitByQuality_outcome | exact H | auto].
Qed.

Lemma wp_seed st l (Q : Search -> Log -> Prop) :
  let mid0 :=
    Math_max minScale (Math_sqrt P (targetBytes / Math_max 1 (size file))) in
  (forall r l',
     fitOutcome P (drawAtScale img mid0) effMime targetBytes bufferBytes
       minQuality l r l' ->
     match r with
     | Some b => Q (mkSearch mid0 (high st) (Some b) mid0) l'
     | None => Q (mkSearch (low st) mid0 (bestBlob st) (bestScale st)) l'
     end) ->
  wp (seed P img effMime file targetBytes bufferBytes minQuality maxQuality
        qualityIterations minScale st) l Q noExn.
Proof.
  intros mid0 H. unfold seed. fold mid0. apply wp_bind. apply wp_tryScale.
  intros r l' F. specialize (H r l' F). destruct r as [b|].
  - destruct F as [_ [Sz _]]. apply leb_le in Sz. rewrite Sz.
    apply wp_ret. exact H.
  - apply wp_ret. exact H.
Qed.

Lemma wp_scaleStep st l (Q : Flow Search Blob -> Log -> Prop) :
  let mid := clamp (midpoint (low st) (high st)) minScale 1 in
  (forall r l',
     fitOutcome P (drawAtScale img mid) effMime targetBytes bufferBytes
       minQuality l r l' ->
     match r with
     | Some b =>
         (withinBuffer (size b) targetBytes bufferBytes = true ->
          Q (Return b) l') /\
         (fitsBelow targetBytes bufferBytes b ->
          Q (Continue (mkSearch mid (high st) (Some b) mid)) l')
     | None => Q (Continue (mkSearch (low st) mid (bestBlob st) (bestScale st))) l'
     end) ->
  wp (scaleStep P img effMime targetBytes bufferBytes minQuality maxQuality
        qualityIterations minScale st) l Q noExn.
Proof.
  intros mid H. unfold scaleStep. fold mid. apply wp_bind. apply wp_tryScale.
  intros r l' F. specialize (H r l' F). destruct r as [b|].
  - destruct F as [_ [Sz _]]. destruct H as [HW HB].
    assert (C : (size b >? targetBytes + bufferBytes) = false)
      by (apply gtb_le; exact Sz).
    rewrite C.
    destruct (withinBuffer (size b) targetBytes bufferBytes) eqn:W;
      apply wp_ret; [apply HW; reflexivity | apply HB; split; assumption].
  - apply wp_ret. exact H.
Qed.

Lemma wp_scaleLoop (I : Search -> Log -> Prop) (Rt : Blob -> Log -> Prop) :
  (forall st l,
     I st l -> eps < high st - low st ->
     wp (scaleStep P img effMime targetBytes bufferBytes minQuality maxQuality
           qualityIterations minScale st) l (flowPost I Rt) noExn) ->
  forall n st l,
    I st l ->
    wp (scaleLoop P n img effMime targetBytes bufferBytes minQuality maxQuality
          qualityIterations minScale st) l (flowPost I Rt) noExn.
Proof.
  intro Step. induction n as [|n IH]; intros st l HI; simpl.
  - apply wp_ret. exact HI.
  - destruct (high st - low st >? eps) eqn:C; props; [|apply wp_ret; exact HI].
    apply wp_bind.
    eapply wp_weaken; [apply (Step st l HI C) | | auto].
    intros [st'|st'|r] l' H; simpl in H.
    + apply IH. exact H.
    + apply wp_ret. exact H.
    + apply wp_ret. exact H.
Qed.

End ScaleSteps.

(** ** Phase A of the raster resizer *)

Lemma fitOutcome_grown P canvas mime t b minQ l r l' :
  fitOutcome P canvas mime t b minQ l r l' ->
  grown (onCanvas canvas) l l' /\
  grown (fun _ => True) (mkCall canvas (ToBlob mime (Some minQ))
                           (encoded P l canvas mime (Some minQ)) :: l) l'.
Proof.
  intros [G _]. split.
  - eapply grown_trans; [|exact G].
    apply grown_cons; [apply grown_refl | reflexivity].
  - eapply grown_weaken; [|exact G]. auto.
Qed.

Section PhaseA.
Import Raster.
Variable P : Platform.
Variable img : Image.
Variable mime : Mime.
Variables targetBytes bufferBytes minQuality maxQuality : Q.
Variable qualityIterations : nat.

(** Phase A makes the support test, then runs the quality search with the
    effective type on the full-size canvas; it never throws. *)
Lemma phaseA_outcome l :
  wp (phaseA P img mime targetBytes bufferBytes minQuality maxQuality
        qualityIterations) l
     (fun r l' =>
        fst r = effectiveMime P l (fullCanvas img) mime /\
        fitOutcome P (fullCanvas img) (fst r) targetBytes bufferBytes
          minQuality (supportCall P l (fullCanvas img) mime :: l) (snd r) l')
     noExn.
Proof.
  unfold phaseA, testMimeSupport, toBlobAsync.
  apply wp_bind. apply wp_bind. apply wp_canvas_toBlob.
  change (mkCall (fullCanvas img) (ToBlob mime (Some (9 # 10)))
            (encoded P l (fullCanvas img) mime (Some (9 # 10))))
    with (supportCall P l (fullCanvas img) mime).
  remember (supportCall P l (fullCanvas img) mime) as c0 eqn:Ec0.
  assert (Fit : forall m,
            m = effectiveMime P l (fullCanvas img) mime ->
            wp (qOnly <- fitByQuality P (fullCanvas img) m targetBytes
                           bufferBytes minQuality maxQuality qualityIterations ;;
                ret (m, qOnly))
               (c0 :: l)
               (fun r l' =>
                  fst r = effectiveMime P l (fullCanvas img) mime /\
                  fitOutcome P (fullCanvas img) (fst r) targetBytes bufferBytes
                    minQuality (c0 :: l) (snd r) l')
               noExn).
  { intros m Em. apply wp_bind.
    eapply wp_weaken; [apply fitByQuality_outcome | | auto].
    intros r l' F. apply wp_ret. simpl. split; [exact Em | exact F]. }
  destruct (encoded P l (fullCanvas img) mime (Some (9 # 10))) as [b|] eqn:E;
    apply wp_ret.
  - apply Fit. unfold effectiveMime. rewrite E.
    destruct (Mime_eqb (type b) mime); reflexivity.
  - apply Fit. unfold effectiveMime. rewrite E. reflexivity.
Qed.

End PhaseA.

(** C3.  When the quality-only search on the full-size canvas finds a
    probe, [resizeRasterToTarget] (hence [resizeJpegToTarget] and
    [resizeWebpToTarget]) returns that probe with the log as phase A left
    it, whether the probe is within the tolerance band or not: its size is
    not above [targetBytes + bufferBytes], and every encoder call of the
    run was made on the full-size canvas. *)
Theorem full_resolution_fit_is_returned
    (P : Platform) (file : Blob) (mime : Mime) (opts : Raster.RasterOptions)
    (img : Image) (effMime : Mime) (q : Blob) (l l2 : Log) :
  withinBuffer (size file) (Raster.targetBytesOf opts)
    (Raster.bufferBytesOf opts) = false ->
  decode P file = Some img ->
  Raster.phaseA P img mime (Raster.targetBytesOf opts)
    (Raster.bufferBytesOf opts) (Raster.minQualityOf opts)
    (Raster.maxQualityOf opts) (Raster.qualityIterationsOf opts) l
  = Returned (effMime, Some q) l2 ->
  Raster.resizeRasterToTarget P file mime opts l = Returned q l2 /\
  size q <= Raster.targetBytesOf opts + Raster.bufferBytesOf opts /\
  grown (onCanvas (Raster.fullCanvas img)) l l2.
Proof.
  intros W D A.
  assert (O := wp_returned _ _ _ _ _ _
                 (phaseA_outcome P img mime _ _ _ _ _ l) A).
  simpl in O. destruct O as [_ F].
  assert (Sz : size q <= Raster.targetBytesOf opts + Raster.bufferBytesOf opts)
    by apply F.
  split; [|split; [exact Sz|]].
  - unfold Raster.resizeRasterToTarget. rewrite W.
    unfold bind at 1. unfold loadImage. rewrite D. unfold ret at 1.
    unfold bind. rewrite A.
    destruct (withinBuffer (size q) _ _); [reflexivity|].
    apply gtb_le in Sz. rewrite Sz. reflexivity.
  - apply fitOutcome_grown in F. destruct F as [G _].
    eapply grown_trans; [|exact G].
    apply grown_cons; [apply grown_refl | reflexivity].
Qed.

Lemma full_resolution_fit_is_returned_witness :
  exists q l2,
    Raster.resizeRasterToTarget (constantPlatform 50000 false)
      (mkBlob 2000000 image_png 0) image_jpeg
      (Raster.mkOptions 100 None None None (Some 1%nat) None None) []
    = Returned q l2 /\
    size q <= 100 * 1024 + 5 * 1024 /\
    grown (onCanvas (Raster.fullCanvas sampleImage)) [] l2.
Proof.
  eexists. eexists.
  refine (full_resolution_fit_is_returned (constantPlatform 50000 false)
            (mkBlob 2000000 image_png 0) image_jpeg
            (Raster.mkOptions 100 None None None (Some 1%nat) None None)
            sampleImage image_jpeg _ [] _ _ _ _).
  - vm_compute. reflexivity.
  - reflexivity.
  - vm_compute. reflexivity.
Defined.

(** ** The first probe within the tolerance band *)

(** In [fitByQuality] a probe at [minQ] within the band is returned after
    that single encoder call. *)
Lemma fitByQuality_first_probe_within_band
    (P : Platform) (canvas : Canvas) (mime : Mime)
    (targetBytes bufferBytes minQ maxQ : Q) (n : nat) (l : Log) (b : Blob) :
  encoded P l canvas mime (Some minQ) = Some b ->
  withinBuffer (size b) targetBytes bufferBytes = true ->
  Raster.fitByQuality P canvas mime targetBytes bufferBytes minQ maxQ n l
  = Returned (Some b) (mkCall canvas (ToBlob mime (Some minQ)) (Some b) :: l).
Proof.
  intros E W.
  unfold Raster.fitByQuality, Raster.qualityRounds, Raster.openQuality,
    Raster.toBlobAsync, bind, canvas_toBlob.
  rewrite E.
  assert (C : (size b >? targetBytes + bufferBytes) = false).
  { apply gtb_le. apply withinBuffer_iff in W. lra. }
  rewrite C, W. reflexivity.
Qed.

Lemma phaseA_unfold
    (P : Platform) (img : Image) (mime : Mime)
    (targetBytes bufferBytes minQ maxQ : Q) (n : nat) (l : Log) :
  Raster.phaseA P img mime targetBytes bufferBytes minQ maxQ n l
  = match Raster.fitByQuality P (Raster.fullCanvas img)
            (effectiveMime P l (Raster.fullCanvas img) mime)
            targetBytes bufferBytes minQ maxQ n
            (supportCall P l (Raster.fullCanvas img) mime :: l) with
    | Returned r l' =>
        Returned (effectiveMime P l (Raster.fullCanvas img) mime, r) l'
    | Threw e l' => Threw e l'
    end.
Proof.
  unfold Raster.phaseA, Raster.testMimeSupport, Raster.toBlobAsync, bind,
    canvas_toBlob, effectiveMime, supportCall.
  destruct (encoded P l (Raster.fullCanvas img) mime (Some (9 # 10))) as [b|];
    unfold ret; [destruct (Mime_eqb (type b) mime)|]; reflexivity.
Qed.

(** C6, as amended.  In the raster searches a first probe within
    [targetBytes - bufferBytes, targetBytes + bufferBytes] ends the search
    at once: the quality search on the full-size canvas returns the probe
    at [minQuality] after that single encoder call, and
    [resizeRasterToTarget] returns it after two encoder calls in all, the
    test of the requested type and that probe. *)
Theorem raster_first_probe_within_band_is_returned
    (P : Platform) (file : Blob) (mime : Mime) (opts : Raster.RasterOptions)
    (img : Image) (l : Log) (b : Blob) :
  withinBuffer (size file) (Raster.targetBytesOf opts)
    (Raster.bufferBytesOf opts) = false ->
  decode P file = Some img ->
  encoded P (supportCall P l (Raster.fullCanvas img) mime :: l)
    (Raster.fullCanvas img) (effectiveMime P l (Raster.fullCanvas img) mime)
    (Some (Raster.minQualityOf opts)) = Some b ->
  withinBuffer (size b) (Raster.targetBytesOf opts)
    (Raster.bufferBytesOf opts) = true ->
  Raster.fitByQuality P (Raster.fullCanvas img)
    (effectiveMime P l (Raster.fullCanvas img) mime)
    (Raster.targetBytesOf opts) (Raster.bufferBytesOf opts)
    (Raster.minQualityOf opts) (Raster.maxQualityOf opts)
    (Raster.qualityIterationsOf opts)
    (supportCall P l (Raster.fullCanvas img) mime :: l)
  = Returned (Some b)
      (mkCall (Raster.fullCanvas img)
         (ToBlob (effectiveMime P l (Raster.fullCanvas img) mime)
            (Some (Raster.minQualityOf opts))) (Some b)
       :: supportCall P l (Raster.fullCanvas img) mime :: l) /\
  Raster.resizeRasterToTarget P file mime opts l
  = Returned b
      (mkCall (Raster.fullCanvas img)
         (ToBlob (effectiveMime P l (Raster.fullCanvas img) mime)
            (Some (Raster.minQualityOf opts))) (Some b)
       :: supportCall P l (Raster.fullCanvas img) mime :: l).
Proof.
  intros W D E Wb.
  assert (F := fitByQuality_first_probe_within_band P _ _ _ _ _
                 (Raster.maxQualityOf opts) (Raster.qualityIterationsOf opts)
                 _ _ E Wb).
  split; [exact F|].
  unfold Raster.resizeRasterToTarget. rewrite W.
  unfold bind at 1. unfold loadImage. rewrite D. unfold ret at 1.
  unfold bind. rewrite phaseA_unfold, F, Wb. reflexivity.
Qed.

Lemma raster_first_probe_within_band_is_returned_witness :
  exists b c1 c0,
    Raster.resizeRasterToTarget (constantPlatform 100000 false)
      (mkBlob 2000000 image_png 0) image_jpeg
      (Raster.mkOptions 100 None None None None None None) []
    = Returned b [c1; c0] /\
    produced c1 = Some b /\
    request c1 = ToBlob image_jpeg (Some (3 # 10)).
Proof.
  eexists. eexists. eexists. split; [|split].
  - refine (proj2 (raster_first_probe_within_band_is_returned
                     (constantPlatform 100000 false)
                     (mkBlob 2000000 image_png 0) image_jpeg
                     (Raster.mkOptions 100 None None None None None None)
                     sampleImage [] (mkBlob 100000 image_jpeg 1) _ _ _ _));
      vm_compute; reflexivity.
  - reflexivity.
  - reflexivity.
Defined.

(** C6, the counterexample.  With an encoder that gives 150000 bytes at
    every scale, a 614400-byte input and a target of 150 KB, the first
    probe of [resizePngToTarget] (scale 1/2) is within the band, yet the
    run makes ten encoder calls and returns the blob of the last one. *)
Lemma png_first_probe_within_band_keeps_searching :
  exists b l c first,
    Png.resizePngToTarget (constantPlatform 150000 false)
      (mkBlob 614400 image_png 0)
      (Png.mkOptions 150 None None None None None) [] = Returned b l /\
    nth_error (rev l) 0 = Some c /\
    produced c = Some first /\
    withinBuffer (size first) (150 * 1024) (5 * 1024) = true /\
    length l = 10%nat /\
    serial first = 0%nat /\ serial b = 9%nat.
Proof.
  eexists. eexists. eexists. eexists.
  split; [vm_compute; reflexivity|].
  split; [vm_compute; reflexivity|].
  split; [reflexivity|].
  repeat split; vm_compute; reflexivity.
Qed.

(** ** Phase B of the raster resizer *)

Section PhaseB.
Import Raster.
Variable P : Platform.
Variable file : Blob.
Variable img : Image.
Variable effMime : Mime.
Variables targetBytes bufferBytes minQuality maxQuality : Q.
Variable qualityIterations : nat.
Variable minScale : Q.

(** The seed and the rounds never throw and only add calls to the log. *)
Lemma searchRounds_grows n l :
  wp (searchRounds P file img effMime targetBytes bufferBytes minQuality
        maxQuality qualityIterations minScale n) l
     (fun _ l' => grown (fun _ => True) l l') noExn.
Proof.
  unfold searchRounds. apply wp_bind. apply wp_seed.
  intros r l1 F1. apply fitOutcome_grown in F1. destruct F1 as [G1 _].
  assert (G1' : grown (fun _ => True) l l1)
    by (eapply grown_weaken; [|exact G1]; auto).
  assert (Loop : forall st,
            wp (scaleLoop P n img effMime targetBytes bufferBytes minQuality
                  maxQuality qualityIterations minScale st) l1
               (fun _ l' => grown (fun _ => True) l l') noExn).
  { intro st.
    eapply wp_weaken;
      [apply (wp_scaleLoop P img effMime targetBytes bufferBytes minQuality
                maxQuality qualityIterations minScale
                (fun _ l' => grown (fun _ => True) l l')
                (fun _ l' => grown (fun _ => True) l l'))
      | | auto].
    - intros st' l' G _. apply wp_scaleStep.
      intros r' l2 F2. apply fitOutcome_grown in F2. destruct F2 as [G2 _].
      assert (G2' : grown (fun _ => True) l l2).
      { eapply grown_trans; [exact G|]. eapply grown_weaken; [|exact G2]. auto. }
      destruct r'; simpl; auto.
    - exact G1'.
    - intros [st'|st'|b] l' H; exact H. }
  destruct r; apply Loop.
Qed.

Lemma phaseB_grows n l :
  wp (phaseB P file img effMime targetBytes bufferBytes minQuality maxQuality
        qualityIterations minScale n) l
     (fun _ l' => grown (fun _ => True) l l') noExn.
Proof.
  unfold phaseB. apply wp_bind.
  eapply wp_weaken; [apply searchRounds_grows | | auto].
  intros f l' G. cbv beta.
  assert (Last : forall st,
            wp match bestBlob st with
               | Some b => ret b
               | None =>
                   tiny <- toBlobAsync P (drawAtScale img minScale) effMime
                             (Some minQuality) ;;
                   match tiny with
                   | Some t => ret t
                   | None => ret file
                   end
               end l' (fun _ l'' => grown (fun _ => True) l l'') noExn).
  { intro st. destruct (bestBlob st); [apply wp_ret; exact G|].
    apply wp_bind. unfold toBlobAsync. apply wp_canvas_toBlob.
    destruct (encoded P l' _ _ _); apply wp_ret;
      (apply grown_cons; [exact G | exact I]). }
  destruct f as [st|st|b]; [apply Last | apply Last | apply wp_ret; exact G].
Qed.

End PhaseB.

(** After the decode, [resizeRasterToTarget] never throws, and when the
    input is not within the band it makes at least the support test and
    the probe at [minQuality] on the full-size canvas. *)
Lemma raster_run_encodes
    (P : Platform) (file : Blob) (mime : Mime) (opts : Raster.RasterOptions)
    (img : Image) (l : Log) :
  withinBuffer (size file) (Raster.targetBytesOf opts)
    (Raster.bufferBytesOf opts) = false ->
  decode P file = Some img ->
  exists b l',
    Raster.resizeRasterToTarget P file mime opts l = Returned b l' /\
    grown (fun _ => True)
      (mkCall (Raster.fullCanvas img)
         (ToBlob (effectiveMime P l (Raster.fullCanvas img) mime)
            (Some (Raster.minQualityOf opts)))
         (encoded P (supportCall P l (Raster.fullCanvas img) mime :: l)
            (Raster.fullCanvas img)
            (effectiveMime P l (Raster.fullCanvas img) mime)
            (Some (Raster.minQualityOf opts)))
       :: supportCall P l (Raster.fullCanvas img) mime :: l) l'.
Proof.
  intros W D. apply wp_total.
  unfold Raster.resizeRasterToTarget. rewrite W.
  apply wp_bind. apply wp_loadImage; [|congruence].
  intros img' D'. assert (img' = img) by congruence. subst img'.
  apply wp_bind.
  eapply wp_weaken; [apply phaseA_outcome | | auto].
  intros [m r] l1 [Em F]. simpl in Em, F. subst m.
  apply fitOutcome_grown in F. destruct F as [_ G].
  assert (B : wp (Raster.phaseB P file img
                    (effectiveMime P l (Raster.fullCanvas img) mime)
                    (Raster.targetBytesOf opts) (Raster.bufferBytesOf opts)
                    (Raster.minQualityOf opts) (Raster.maxQualityOf opts)
                    (Raster.qualityIterationsOf opts) (Raster.minScaleOf opts)
                    (Raster.scaleIterationsOf opts)) l1
                 (fun _ l' =>
                    grown (fun _ => True)
                      (mkCall (Raster.fullCanvas img)
                         (ToBlob (effectiveMime P l (Raster.fullCanvas img) mime)
                            (Some (Raster.minQualityOf opts)))
                         (encoded P
                            (supportCall P l (Raster.fullCanvas img) mime :: l)
                            (Raster.fullCanvas img)
                            (effectiveMime P l (Raster.fullCanvas img) mime)
                            (Some (Raster.minQualityOf opts)))
                       :: supportCall P l (Raster.fullCanvas img) mime :: l) l')
                 noExn).
  { eapply wp_weaken; [apply phaseB_grows | | auto].
    intros b' l' G'. eapply grown_trans; [exact G | exact G']. }
  destruct r as [q|]; [|exact B].
  destruct (withinBuffer (size q) _ _); [apply wp_ret; exact G|].
  destruct (size q >? _); [exact B | apply wp_ret; exact G].
Qed.

(** ** Inputs that are already small *)

(** C10, as amended.  An input whose size is within the tolerance band of
    the target is returned as it is by [resizePngToTarget] and by
    [resizeRasterToTarget], with no decode and no encoder call: the log is
    unchanged and the answer does not depend on [decode].  An input of at
    most [targetBytes + bufferBytes] that decodes is returned as it is by
    [resizePngToTarget], again without an encoder call.  An input below
    [targetBytes - bufferBytes] that decodes makes [resizeRasterToTarget]
    encode: the run returns with at least the support test and the probe
    at [minQuality] added to the log.  An input outside the band that does
    not decode is rejected by [resizePngToTarget] with the decode error,
    however small it is. *)
Theorem inputs_already_small
    (P : Platform) (file : Blob) (popts : Png.ResizeOptions)
    (ropts : Raster.RasterOptions) (mime : Mime) (l : Log) :
  (withinBuffer (size file) (Png.targetBytesOf popts)
     (Png.bufferBytesOf popts) = true ->
   Png.resizePngToTarget P file popts l = Returned file l) /\
  (withinBuffer (size file) (Raster.targetBytesOf ropts)
     (Raster.bufferBytesOf ropts) = true ->
   Raster.resizeRasterToTarget P file mime ropts l = Returned file l) /\
  (size file <= Png.targetBytesOf popts + Png.bufferBytesOf popts ->
   decode P file <> None ->
   Png.resizePngToTarget P file popts l = Returned file l) /\
  (size file < Raster.targetBytesOf ropts - Raster.bufferBytesOf ropts ->
   forall img, decode P file = Some img ->
   exists b l' new c1 c0,
     Raster.resizeRasterToTarget P file mime ropts l = Returned b l' /\
     l' = new ++ c1 :: c0 :: l /\
     surface c0 = Raster.fullCanvas img /\
     surface c1 = Raster.fullCanvas img /\
     request c0 = ToBlob mime (Some (9 # 10)) /\
     exists m, request c1 = ToBlob m (Some (Raster.minQualityOf ropts))) /\
  (withinBuffer (size file) (Png.targetBytesOf popts)
     (Png.bufferBytesOf popts) = false ->
   decode P file = None ->
   Png.resizePngToTarget P file popts l = Threw DecodeError l).
Proof.
  split; [|split; [|split; [|split]]].
  - intro W. apply withinBuffer_iff in W.
    apply png_within_band_returned. exact W.
  - intro W. unfold Raster.resizeRasterToTarget. rewrite W. reflexivity.
  - intros H D. apply png_below_ceiling_returned; assumption.
  - intros H img D.
    assert (W : withinBuffer (size file) (Raster.targetBytesOf ropts)
                  (Raster.bufferBytesOf ropts) = false).
    { apply withinBuffer_not. left. exact H. }
    destruct (raster_run_encodes P file mime ropts img l W D)
      as [b [l' [R [new [E _]]]]].
    exists b, l', new. eexists. eexists.
    split; [exact R|]. split; [exact E|].
    repeat split. eexists. reflexivity.
  - intros W D. unfold Png.resizePngToTarget.
    unfold withinBuffer in W. rewrite W.
    unfold bind, loadImage. rewrite D. reflexivity.
Qed.

Lemma inputs_already_small_witness :
  Png.resizePngToTarget (constantPlatform 1000000 false)
    (mkBlob 1000 image_png 0) (Png.mkOptions 100 None None None None None) []
  = Returned (mkBlob 1000 image_png 0) [].
Proof.
  apply (proj1 (proj2 (proj2
           (inputs_already_small (constantPlatform 1000000 false)
              (mkBlob 1000 image_png 0)
              (Png.mkOptions 100 None None None None None)
              (Raster.mkOptions 100 None None None None None None)
              image_jpeg [])))).
  - vm_compute. discriminate.
  - discriminate.
Defined.

(** C10, the counterexample.  No file decodes, the input has 1000 bytes
    and the target is 100 KB with 5 KB of tolerance.  The input is far
    below [targetBytes - bufferBytes], hence at most
    [targetBytes + bufferBytes], and [resizePngToTarget] does not return
    it: the decode comes before the second test, and the run rejects with
    the decode error. *)
Lemma png_undersized_undecodable_is_rejected :
  size (mkBlob 1000 image_png 0)
  < Png.targetBytesOf (Png.mkOptions 100 None None None None None)
    - Png.bufferBytesOf (Png.mkOptions 100 None None None None None) /\
  size (mkBlob 1000 image_png 0)
  <= Png.targetBytesOf (Png.mkOptions 100 None None None None None)
     + Png.bufferBytesOf (Png.mkOptions 100 None None None None None) /\
  Png.resizePngToTarget undecodablePlatform (mkBlob 1000 image_png 0)
    (Png.mkOptions 100 None None None None None) []
  = Threw DecodeError [].
Proof.
  split; [vm_compute; reflexivity|].
  split; [vm_compute; discriminate|].
  vm_compute. reflexivity.
Qed.

(** ** The floor fallback *)

Lemma alwaysAbove_encoded P ceiling l canvas mime quality :
  alwaysAbove P ceiling ->
  exists b, encoded P l canvas mime quality = Some b /\ ceiling < size b.
Proof.
  intro A. destruct (A (length l) canvas mime quality) as [sz [ty [E H]]].
  unfold encoded. rewrite E. eexists. split; [reflexivity | exact H].
Qed.

Section PngFloor.
Import Png.
Variable P : Platform.
Variable img : Image.
Variables targetBytes bufferBytes minScale : Q.
Hypothesis Above : alwaysAbove P targetBytes.

Lemma above_not_None n cv : toBlob P n cv image_png None <> None.
Proof.
  destruct (Above n cv image_png None) as [sz [ty [E _]]]. congruence.
Qed.

Lemma above_size n cv b :
  toBlob P n cv image_png None = Some (size b, type b) -> targetBytes < size b.
Proof.
  intro T. destruct (Above n cv image_png None) as [sz [ty [E H]]].
  rewrite T in E. injection E as <- _. exact H.
Qed.

(** When every probe is above the target, the scale search hands over
    the render at the larger of [minScale] and [0.01]. *)
Lemma scaleSearch_floor guess n l :
  wp (scaleSearch P img targetBytes guess minScale n) l
     (fun found l' =>
        snd (fst found) = minScale /\
        drawn (snd found) = Math_max minScale (1 # 100) /\
        exists rest,
          l' = mkCall (snd found) (ToBlob image_png None)
                 (Some (fst (fst found))) :: rest)
     noExn.
Proof.
  unfold scaleSearch, searchRounds. apply wp_bind. apply wp_bind.
  apply wp_tryGuess.
  2:{ intros cv _ T. exfalso. revert T. apply above_not_None. }
  intros b cv D T c.
  assert (S := above_size _ _ _ T). split; [lra|]. intros _.
  eapply wp_weaken;
    [apply (wp_bisectLoop P img (fun _ st _ => bestBlob st = None) noExn
              targetBytes minScale) with (k := O)
    | | auto].
  - intros k st l' B W. apply wp_bisect.
    2:{ intros cv' _ T'. exfalso. revert T'. apply above_not_None. }
    intros b' cv' D' T' c'. assert (S' := above_size _ _ _ T').
    split; [intros _; exact B | lra].
  - reflexivity.
  - intros st l' [m [B _]]. cbv beta. apply wp_forceMinimum.
    + intros b' E. congruence.
    + intros _. apply wp_renderAtScale.
      2:{ intros cv' _ T'. exfalso. revert T'. apply above_not_None. }
      intros b' cv' D' T'. simpl. split; [reflexivity|].
      split; [exact D'|]. eexists. reflexivity.
Qed.

Lemma finish_floor n uq colors found l rest :
  snd (fst found) = minScale ->
  l = mkCall (snd found) (ToBlob image_png None) (Some (fst (fst found))) :: rest ->
  wp (finish P img targetBytes bufferBytes minScale n uq colors found) l
     (fun r l' => renderedAt l' r (drawn (snd found))) noExn.
Proof.
  destruct found as [[b bs] cv]. simpl. intros Es El. unfold finish.
  assert (Rb : forall l', (exists new, l' = new ++ l) ->
                          renderedAt l' b (drawn cv)).
  { intros l' [new E]. exists (mkCall cv (ToBlob image_png None) (Some b)).
    split; [|split; reflexivity].
    rewrite E, El. apply in_or_app. right. left. reflexivity. }
  assert (R0 : renderedAt l b (drawn cv)) by (apply Rb; exists []; reflexivity).
  destruct (withinBuffer (size b) targetBytes bufferBytes);
    [apply wp_ret; exact R0|].
  destruct uq; [|apply wp_ret; exact R0].
  destruct (UPNG P) as [enc|]; [|apply wp_ret; exact R0].
  apply wp_bind. apply wp_upng_encode. intros q Eq.
  set (cq := mkCall cv (UpngEncode colors) (Some q)).
  destruct (withinBuffer (size q) targetBytes bufferBytes).
  - apply wp_ret. exists cq. split; [left; reflexivity|].
    split; reflexivity.
  - apply wp_bind. unfold binarySearchWithQuantization, wp.
    rewrite quantLoop_narrow; [|simpl; rewrite Es; unfold eps; lra].
    simpl. apply Rb. exists [cq]. reflexivity.
Qed.

End PngFloor.

Section RasterFloor.
Import Raster.
Variable P : Platform.
Variable file : Blob.
Variable img : Image.
Variables targetBytes bufferBytes minQuality maxQuality : Q.
Variable qualityIterations : nat.
Variable minScale : Q.
Hypothesis Above : alwaysAbove P (targetBytes + bufferBytes).

Lemma fitOutcome_above canvas mime l r l' :
  fitOutcome P canvas mime targetBytes bufferBytes minQuality l r l' ->
  r = None.
Proof.
  intros [_ H]. destruct r as [q|]; [|reflexivity].
  destruct H as [_ [b [E S]]].
  destruct (alwaysAbove_encoded P _ l canvas mime (Some minQuality) Above)
    as [b' [E' S']].
  rewrite E in E'. injection E' as <-. lra.
Qed.

(** When every probe is above the ceiling, phase B returns the blob
    encoded at [minQuality] from the canvas drawn at [minScale]. *)
Lemma phaseB_floor effMime n l :
  wp (phaseB P file img effMime targetBytes bufferBytes minQuality maxQuality
        qualityIterations minScale n) l
     (fun b l' =>
        exists rest,
          l' = mkCall (drawAtScale img minScale)
                 (ToBlob effMime (Some minQuality)) (Some b) :: rest)
     noExn.
Proof.
  unfold phaseB, searchRounds. apply wp_bind. apply wp_bind. apply wp_seed.
  intros r l1 F1. rewrite (fitOutcome_above _ _ _ _ _ F1).
  eapply wp_weaken;
    [apply (wp_scaleLoop P img effMime targetBytes bufferBytes minQuality
              maxQuality qualityIterations minScale
              (fun st _ => bestBlob st = None) (fun _ _ => False))
    | | auto].
  - intros st l' B _. apply wp_scaleStep.
    intros r' l2 F2. rewrite (fitOutcome_above _ _ _ _ _ F2). exact B.
  - reflexivity.
  - assert (Last : forall st l',
              bestBlob st = None ->
              wp match bestBlob st with
                 | Some b => ret b
                 | None =>
                     tiny <- toBlobAsync P (drawAtScale img minScale) effMime
                               (Some minQuality) ;;
                     match tiny with
                     | Some t => ret t
                     | None => ret file
                     end
                 end l'
                 (fun b l'' =>
                    exists rest,
                      l'' = mkCall (drawAtScale img minScale)
                              (ToBlob effMime (Some minQuality)) (Some b) :: rest)
                 noExn).
    { intros st l' B. rewrite B. apply wp_bind. unfold toBlobAsync.
      apply wp_canvas_toBlob.
      destruct (alwaysAbove_encoded P _ l' (drawAtScale img minScale) effMime
                  (Some minQuality) Above) as [t [E _]].
      rewrite E. apply wp_ret. eexists. reflexivity. }
    intros [st|st|b] l' H; simpl in H; [apply Last | apply Last | tauto];
      exact H.
Qed.

End RasterFloor.


Lemma constantPlatform_above (sz ceiling : Q) (upng : bool) :
  ceiling < sz -> alwaysAbove (constantPlatform sz upng) ceiling.
Proof.
  intros H n canvas mime quality. exists sz, mime.
  split; [reflexivity | exact H].
Qed.



(** ** The best-so-far probe *)

Section BestSoFar.
Variable P : Platform.

(** In the PNG scale search a stored probe is never above the target. *)
Lemma png_best_under_target img targetBytes guess minScale n l :
  wp (Png.searchRounds P img targetBytes guess minScale n) l
     (fun st _ => forall b, Png.bestBlob st = Some b -> size b <= targetBytes)
     anyExn.
Proof.
  unfold Png.searchRounds. apply wp_bind.
  apply wp_tryGuess; [|intros; exact I].
  intros b cv D T c.
  assert (Loop : forall st l',
            (forall b', Png.bestBlob st = Some b' -> size b' <= targetBytes) ->
            wp (Png.bisectLoop P n img targetBytes minScale st) l'
               (fun st' _ =>
                  forall b', Png.bestBlob st' = Some b' -> size b' <= targetBytes)
               anyExn).
  { intros st l' H.
    eapply wp_weaken;
      [apply (wp_bisectLoop P img
                (fun _ st' _ =>
                   forall b', Png.bestBlob st' = Some b' -> size b' <= targetBytes)
                anyExn targetBytes minScale) with (k := O)
      | | auto].
    - intros k st' l'' H' W. apply wp_bisect; [|intros; exact I].
      intros b' cv' D' T' c'. split; intro S; simpl.
      + exact H'.
      + intros b'' E. injection E as <-. exact S.
    - exact H.
    - intros st' l'' [m [H' _]]. exact H'. }
  split; intro S; apply Loop; simpl.
  - intros b' E. injection E as <-. exact S.
  - discriminate.
Qed.

(** In the raster scale search a stored probe is never above the ceiling
    [targetBytes + bufferBytes]. *)
Lemma raster_best_under_ceiling file img effMime targetBytes bufferBytes
    minQuality maxQuality qualityIterations minScale n l :
  wp (Raster.searchRounds P file img effMime targetBytes bufferBytes
        minQuality maxQuality qualityIterations minScale n) l
     (flowPost
        (fun st _ => forall b, Raster.bestBlob st = Some b ->
                               size b <= targetBytes + bufferBytes)
        (fun _ _ => True))
     noExn.
Proof.
  unfold Raster.searchRounds. apply wp_bind. apply wp_seed.
  intros r l1 F1.
  assert (Loop : forall st,
            (forall b, Raster.bestBlob st = Some b ->
                       size b <= targetBytes + bufferBytes) ->
            wp (Raster.scaleLoop P n img effMime targetBytes bufferBytes
                  minQuality maxQuality qualityIterations minScale st) l1
               (flowPost
                  (fun st _ => forall b, Raster.bestBlob st = Some b ->
                                         size b <= targetBytes + bufferBytes)
                  (fun _ _ => True))
               noExn).
  { intros st H. apply wp_scaleLoop; [|exact H].
    intros st' l' H' _. apply wp_scaleStep.
    intros r' l2 F2. destruct r' as [b'|]; simpl; [|exact H'].
    split; [auto|]. intros [S _] b'' E. injection E as <-. exact S. }
  destruct r as [b|]; apply Loop; simpl.
  - intros b' E. injection E as <-. apply F1.
  - discriminate.
Qed.

(** A round of the raster scale search that goes on either leaves the
    stored probe as it is or stores one below [targetBytes - bufferBytes]. *)
Lemma raster_round_stores_below img effMime targetBytes bufferBytes
    minQuality maxQuality qualityIterations minScale st l :
  wp (Raster.scaleStep P img effMime targetBytes bufferBytes minQuality
        maxQuality qualityIterations minScale st) l
     (flowPost
        (fun st' _ =>
           Raster.bestBlob st' = Raster.bestBlob st \/
           exists b, Raster.bestBlob st' = Some b /\
                     size b < targetBytes - bufferBytes)
        (fun b _ => withinBuffer (size b) targetBytes bufferBytes = true))
     noExn.
Proof.
  apply wp_scaleStep.
  intros r l' F. destruct r as [b|]; simpl; [|left; reflexivity].
  split; [auto|]. intro Fb. right. exists b.
  split; [reflexivity | apply fitsBelow_lt; exact Fb].
Qed.

End BestSoFar.

(** C5, as amended.  Whenever the best-so-far probe is set and the
    search goes on: in the guess and the rounds of [resizePngToTarget]'s
    scale search its size is not above [targetBytes]; in the rounds of
    [fitByQuality] it is below [targetBytes - bufferBytes]; in
    [resizeRasterToTarget]'s scale search it is not above
    [targetBytes + bufferBytes], and a round that stores a probe and goes
    on stores one below [targetBytes - bufferBytes]. *)
Theorem best_so_far_is_under_the_ceiling (P : Platform) :
  (forall img targetBytes guess minScale n l st l' b,
     Png.searchRounds P img targetBytes guess minScale n l = Returned st l' ->
     Png.bestBlob st = Some b -> size b <= targetBytes) /\
  (forall canvas mime targetBytes bufferBytes minQ maxQ n l st l',
     Raster.qualityRounds P canvas mime targetBytes bufferBytes minQ maxQ n l
     = Returned (Continue st) l' ->
     exists b, Raster.best st = Some b /\ size b < targetBytes - bufferBytes) /\
  (forall file img effMime targetBytes bufferBytes minQuality maxQuality
          qualityIterations minScale n l st l' b,
     Raster.searchRounds P file img effMime targetBytes bufferBytes
       minQuality maxQuality qualityIterations minScale n l
     = Returned (Continue st) l' ->
     Raster.bestBlob st = Some b -> size b <= targetBytes + bufferBytes) /\
  (forall img effMime targetBytes bufferBytes minQuality maxQuality
          qualityIterations minScale st l st' l',
     Raster.scaleStep P img effMime targetBytes bufferBytes minQuality
       maxQuality qualityIterations minScale st l = Returned (Continue st') l' ->
     Raster.bestBlob st' = Raster.bestBlob st \/
     exists b, Raster.bestBlob st' = Some b /\
               size b < targetBytes - bufferBytes).
Proof.
  split; [|split; [|split]].
  - intros img targetBytes guess minScale n l st l' b R.
    exact (wp_returned _ _ _ _ _ _
             (png_best_under_target P img targetBytes guess minScale n l) R b).
  - intros canvas mime targetBytes bufferBytes minQ maxQ n l st l' R.
    destruct (wp_returned _ _ _ _ _ _
                (qualityRounds_outcome P canvas mime targetBytes bufferBytes
                   minQ maxQ n l) R) as [_ [[q [E F]] _]].
    exists q. split; [exact E | apply fitsBelow_lt; exact F].
  - intros file img effMime targetBytes bufferBytes minQuality maxQuality
      qualityIterations minScale n l st l' b R.
    exact (wp_returned _ _ _ _ _ _
             (raster_best_under_ceiling P file img effMime targetBytes
                bufferBytes minQuality maxQuality qualityIterations minScale
                n l) R b).
  - intros img effMime targetBytes bufferBytes minQuality maxQuality
      qualityIterations minScale st l st' l' R.
    exact (wp_returned _ _ _ _ _ _
             (raster_round_stores_below P img effMime targetBytes
                bufferBytes minQuality maxQuality qualityIterations minScale
                st l) R).
Qed.

(** C5, the counterexample.  The encoder gives 105000 bytes up to scale
    1/2 and 500000 bytes above it, the input has 409600 bytes and the
    target is 100 KB with 5 KB of tolerance.  The quality-only search at
    full size does not fit; the seed probe at scale 1/2 has 105000 bytes,
    above [targetBytes] and within the band; it is stored as best-so-far,
    the rounds run without an early return, and the run ends by returning
    it as the best probe recorded. *)
Lemma raster_seed_keeps_probe_above_target :
  exists eff l0 st l b,
    Raster.phaseA (stepPlatform (1 # 2) 105000 500000) sampleImage image_jpeg
      (100 * 1024) (5 * 1024) (3 # 10) (95 # 100) 12 []
    = Returned (eff, None) l0 /\
    Raster.searchRounds (stepPlatform (1 # 2) 105000 500000)
      (mkBlob 409600 image_png 0) sampleImage eff
      (100 * 1024) (5 * 1024) (3 # 10) (95 # 100) 12 (5 # 100) 12 l0
    = Returned (Continue st) l /\
    Raster.bestBlob st = Some b /\
    100 * 1024 < size b /\
    size b <= 100 * 1024 + 5 * 1024 /\
    Raster.resizeRasterToTarget (stepPlatform (1 # 2) 105000 500000)
      (mkBlob 409600 image_png 0) image_jpeg
      (Raster.mkOptions 100 None None None None None None) []
    = Returned b l.
Proof.
  eexists. eexists. eexists. eexists. eexists.
  split; [vm_compute; reflexivity|].
  split; [vm_compute; reflexivity|].
  split; [reflexivity|].
  split; [vm_compute; reflexivity|].
  split; [apply leb_le; vm_compute; reflexivity|].
  vm_compute. reflexivity.
Qed.

(** ** The quality search and its best probe *)

(** [fitByQuality] returns [None] exactly when the probe at [minQ] gives
    no blob or a blob above the ceiling. *)
Lemma fitByQuality_none_exactly
    (P : Platform) (canvas : Canvas) (mime : Mime)
    (targetBytes bufferBytes minQ maxQ : Q) (n : nat) (l : Log) :
  exists r l',
    Raster.fitByQuality P canvas mime targetBytes bufferBytes minQ maxQ n l
    = Returned r l' /\
    (r = None <->
     encoded P l canvas mime (Some minQ) = None \/
     exists b, encoded P l canvas mime (Some minQ) = Some b /\
               targetBytes + bufferBytes < size b).
Proof.
  destruct (wp_total _ _ _
              (fitByQuality_outcome P canvas mime targetBytes bufferBytes
                 minQ maxQ n l)) as [r [l' [R [_ H]]]].
  exists r, l'. split; [exact R|].
  destruct r as [q|]; split; try discriminate; auto.
  destruct H as [_ [b [E S]]].
  intros [N|[b' [E' S']]]; rewrite E in *; [discriminate|].
  injection E' as <-. lra.
Qed.

(** C2, at the failing input.  Every encode gives 1000 bytes; the target
    is 100 KB with 5 KB of tolerance and the quality bounds are 0.3 and
    0.95.  The probe at [maxQ = 0.95] is under the ceiling, yet
    [fitByQuality] returns the probe of a later round, made at a quality
    below 0.95. *)
Theorem fitByQuality_drops_the_maxQ_probe :
  exists b l c q cmax bmax,
    Raster.fitByQuality (constantPlatform 1000 false) (mkCanvas 1000 1000 1)
      image_jpeg (100 * 1024) (5 * 1024) (3 # 10) (95 # 100) 12 []
    = Returned (Some b) l /\
    In c l /\ produced c = Some b /\
    request c = ToBlob image_jpeg (Some q) /\ q < 95 # 100 /\
    In cmax l /\ request cmax = ToBlob image_jpeg (Some (95 # 100)) /\
    produced cmax = Some bmax /\ size bmax <= 100 * 1024 + 5 * 1024.
Proof.
  eexists. eexists. eexists. eexists. eexists. eexists.
  split; [vm_compute; reflexivity|].
  split; [left; reflexivity|].
  split; [reflexivity|].
  split; [reflexivity|].
  split; [vm_compute; reflexivity|].
  split; [do 9 right; left; reflexivity|].
  split; [reflexivity|].
  split; [reflexivity|].
  apply leb_le. vm_compute. reflexivity.
Qed.

(** ** The brackets *)

Section Brackets.
Variable P : Platform.

(** A round of the PNG scale search narrows the bracket and probes inside
    it, once [high] is not below [minScale]. *)
Lemma png_round_narrows img targetBytes minScale st l :
  minScale <= Png.high st -> Png.high st <= 1 ->
  eps < Png.high st - Png.low st ->
  wp (Png.bisect P img targetBytes minScale st) l
     (fun st' l' =>
        narrows (Png.low st) (Png.high st) (Png.low st') (Png.high st') /\
        minScale <= Png.high st' /\
        exists c rest, l' = c :: rest /\
                       minScale <= drawn (surface c) <= 1)
     anyExn.
Proof.
  unfold eps. intros Hm H1 W.
  assert (M := midpoint_eq (Png.low st) (Png.high st)).
  assert (Lo := clamp_lower (midpoint (Png.low st) (Png.high st)) minScale 1).
  assert (Up : clamp (midpoint (Png.low st) (Png.high st)) minScale 1
               <= Png.high st).
  { destruct (clamp_cases (midpoint (Png.low st) (Png.high st)) minScale 1)
      as [[E H]|[[E [Ha Hb]]|[E [Ha Hb]]]]; rewrite E; lra. }
  assert (Dn : Png.low st
               <= clamp (midpoint (Png.low st) (Png.high st)) minScale 1).
  { destruct (clamp_cases (midpoint (Png.low st) (Png.high st)) minScale 1)
      as [[E H]|[[E [Ha Hb]]|[E [Ha Hb]]]]; rewrite E; lra. }
  apply wp_bisect; [|intros; exact I].
  intros b cv D T c. split; intros _; simpl; unfold narrows; simpl.
  - split; [split; [lra | split; [lra | exact Dn]]|].
    split; [exact Lo|]. eexists. eexists. split; [reflexivity|].
    simpl. rewrite D. split; [exact Lo | lra].
  - split; [split; [exact Dn | split; [lra | exact Up]]|].
    split; [exact Hm|]. eexists. eexists. split; [reflexivity|].
    simpl. rewrite D. split; [exact Lo | lra].
Qed.

(** A round of [fitByQuality] narrows the bracket, for quality bounds in
    order. *)
Lemma quality_round_narrows canvas mime targetBytes bufferBytes minQ maxQ st l :
  minQ <= Raster.hi st -> Raster.hi st <= maxQ ->
  eps < Raster.hi st - Raster.lo st ->
  wp (Raster.qualityStep P canvas mime targetBytes bufferBytes minQ maxQ st) l
     (flowPost
        (fun st' _ =>
           narrows (Raster.lo st) (Raster.hi st) (Raster.lo st') (Raster.hi st')
           /\ minQ <= Raster.hi st' <= maxQ)
        (fun _ _ => True))
     anyExn.
Proof.
  unfold eps. intros Hm H1 W.
  assert (M := midpoint_eq (Raster.lo st) (Raster.hi st)).
  assert (Lo := clamp_lower (midpoint (Raster.lo st) (Raster.hi st)) minQ maxQ).
  assert (Up : clamp (midpoint (Raster.lo st) (Raster.hi st)) minQ maxQ
               <= Raster.hi st).
  { destruct (clamp_cases (midpoint (Raster.lo st) (Raster.hi st)) minQ maxQ)
      as [[E H]|[[E [Ha Hb]]|[E [Ha Hb]]]]; rewrite E; lra. }
  assert (Dn : Raster.lo st
               <= clamp (midpoint (Raster.lo st) (Raster.hi st)) minQ maxQ).
  { destruct (clamp_cases (midpoint (Raster.lo st) (Raster.hi st)) minQ maxQ)
      as [[E H]|[[E [Ha Hb]]|[E [Ha Hb]]]]; rewrite E; lra. }
  apply wp_qualityStep; simpl; unfold narrows; simpl; intros; auto;
    repeat split; try lra; assumption.
Qed.

(** A round of the raster scale search narrows the bracket and probes
    inside the bounds, once [high] is not below [minScale] and [low] not
    above 1. *)
Lemma raster_round_narrows img effMime targetBytes bufferBytes minQuality
    maxQuality qualityIterations minScale st l :
  minScale <= Raster.high st -> minScale <= 1 -> Raster.low st <= 1 ->
  eps < Raster.high st - Raster.low st ->
  minScale <= clamp (midpoint (Raster.low st) (Raster.high st)) minScale 1 <= 1 /\
  wp (Raster.scaleStep P img effMime targetBytes bufferBytes minQuality
        maxQuality qualityIterations minScale st) l
     (flowPost
        (fun st' _ =>
           narrows (Raster.low st) (Raster.high st)
             (Raster.low st') (Raster.high st') /\
           minScale <= Raster.high st' /\ Raster.low st' <= 1)
        (fun _ _ => True))
     noExn.
Proof.
  unfold eps. intros Hm H1 L1 W.
  assert (M := midpoint_eq (Raster.low st) (Raster.high st)).
  assert (Lo := clamp_lower (midpoint (Raster.low st) (Raster.high st))
                  minScale 1).
  assert (Up1 := clamp_upper (midpoint (Raster.low st) (Raster.high st))
                   minScale 1 H1).
  assert (Up : clamp (midpoint (Raster.low st) (Raster.high st)) minScale 1
               <= Raster.high st).
  { destruct (clamp_cases (midpoint (Raster.low st) (Raster.high st)) minScale 1)
      as [[E H]|[[E [Ha Hb]]|[E [Ha Hb]]]]; rewrite E; lra. }
  assert (Dn : Raster.low st
               <= clamp (midpoint (Raster.low st) (Raster.high st)) minScale 1).
  { destruct (clamp_cases (midpoint (Raster.low st) (Raster.high st)) minScale 1)
      as [[E H]|[[E [Ha Hb]]|[E [Ha Hb]]]]; rewrite E; lra. }
  split; [split; assumption|].
  apply wp_scaleStep. intros r l' F.
  destruct r as [b|]; simpl; unfold narrows; simpl.
  - split; [auto|]. intros _. repeat split; try lra; assumption.
  - repeat split; try lra; assumption.
Qed.

End Brackets.

(** C4, at the failing input.  Every encode gives 200000 bytes, the input
    has 25600 bytes and the target is 100 KB, so the quality-only search
    at full size does not fit and the first scale of phase B is
    [max(minScale, sqrt(102400 / 25600)) = 2].  The seed probes at scale
    2, outside [minScale, 1], and sets [high] to 2, above the 1 it was. *)
Theorem raster_seed_raises_high :
  exists eff l0 st l c,
    Raster.phaseA (constantPlatform 200000 false) sampleImage image_jpeg
      (100 * 1024) (5 * 1024) (3 # 10) (95 # 100) 12 []
    = Returned (eff, None) l0 /\
    Raster.seed (constantPlatform 200000 false) sampleImage eff
      (mkBlob 25600 image_png 0) (100 * 1024) (5 * 1024) (3 # 10) (95 # 100)
      12 (5 # 100) (Raster.mkSearch (5 # 100) 1 None (5 # 100)) l0
    = Returned st l /\
    Raster.low st = 5 # 100 /\
    Raster.high st = 2 /\
    nth_error l 0 = Some c /\
    drawn (surface c) = 2 /\
    1 < drawn (surface c).
Proof.
  eexists. eexists. eexists. eexists. eexists.
  split; [vm_compute; reflexivity|].
  split; [vm_compute; reflexivity|].
  split; [reflexivity|].
  split; [reflexivity|].
  split; [reflexivity|].
  split; [reflexivity|].
  vm_compute. reflexivity.
Qed.

(** ** The quadratic encoder *)

Lemma pow2_S (k : nat) : pow2 (S k) == 2 * pow2 k.
Proof.
  unfold pow2. rewrite Nat2Z.inj_succ, Z.pow_succ_r by lia.
  rewrite inject_Z_mult. reflexivity.
Qed.

Lemma square_mono (a b : Q) : 0 <= a -> a <= b -> a * a <= b * b.
Proof. intros. nra. Qed.

Lemma above_half (x : Q) : 0 <= x -> 3 # 10 < x * x -> 1 # 2 < x.
Proof. intros. nra. Qed.

Lemma renderedAt_cons (l : Log) (b : Blob) (s : Q) (c : Call) :
  renderedAt l b s -> renderedAt (c :: l) b s.
Proof.
  intros [c' [I H]]. exists c'. split; [right; exact I | exact H].
Qed.

Section Quadratic.
Import Png.
Variable P : Platform.
Variable img : Image.
Hypothesis Enc : toBlob P = quadraticEncoder 512000.

Lemma quadratic_not_None n cv : toBlob P n cv image_png None <> None.
Proof. rewrite Enc. discriminate. Qed.

Lemma quadratic_size n cv b :
  toBlob P n cv image_png None = Some (size b, type b) ->
  size b = 512000 * (drawn cv * drawn cv).
Proof.
  rewrite Enc. unfold quadraticEncoder. intro E. injection E as <- _.
  reflexivity.
Qed.

Lemma quadraticInv_guess x l :
  wp (tryGuess P img (150 * 1024) (clamp x (5 # 100) 1)
        (mkSearch 0 1 None 1 newCanvas)) l
     (quadraticInv 0) noExn.
Proof.
  assert (Lo := clamp_lower x (5 # 100) 1).
  assert (Up : clamp x (5 # 100) 1 <= 1) by (apply clamp_upper; lra).
  apply wp_tryGuess.
  2:{ intros cv _ T. exfalso. revert T. apply quadratic_not_None. }
  intros b cv D T c. apply quadratic_size in T. rewrite D in T.
  set (g := clamp x (5 # 100) 1) in *.
  assert (P0 : pow2 0 == 1) by reflexivity.
  split; intro S; unfold quadraticInv; simpl; rewrite T in S.
  - split; [lra|]. split; [lra|]. split; [lra|]. split; [lra|].
    split; [lra|]. split; [rewrite P0; lra|].
    split; [lra|]. split; [rewrite T; reflexivity|].
    exists c. split; [left; reflexivity|]. split; [reflexivity | exact D].
  - assert (3 # 10 < g * g) by lra.
    assert (1 # 2 < g) by (apply above_half; lra).
    split; [lra|]. split; [lra|]. split; [lra|]. split; [lra|].
    split; [lra|]. split; [rewrite P0; lra|]. reflexivity.
Qed.

Lemma quadraticInv_bisect k st l :
  quadraticInv k st l -> eps < high st - low st ->
  wp (bisect P img (150 * 1024) (5 # 100) st) l (quadraticInv (S k)) noExn.
Proof.
  unfold eps. intros [L0 [LH [H1 [Hh [Hq [W B]]]]]] Wd.
  assert (M := midpoint_eq (low st) (high st)).
  assert (Em : clamp (midpoint (low st) (high st)) (5 # 100) 1
               == (low st + high st) * (1 # 2)).
  { destruct (clamp_cases (midpoint (low st) (high st)) (5 # 100) 1)
      as [[E H]|[[E [Ha Hb]]|[E [Ha Hb]]]]; rewrite E; lra. }
  apply wp_bisect.
  2:{ intros cv _ T. exfalso. revert T. apply quadratic_not_None. }
  intros b cv D T c. apply quadratic_size in T. rewrite D in T.
  set (mid := clamp (midpoint (low st) (high st)) (5 # 100) 1) in *.
  assert (P2 := pow2_S k).
  assert (Wl : (mid - low st) * pow2 (S k) == (high st - low st) * pow2 k)
    by (rewrite P2, Em; ring).
  assert (Wh : (high st - mid) * pow2 (S k) == (high st - low st) * pow2 k)
    by (rewrite P2, Em; ring).
  split; intro S; unfold quadraticInv; simpl; rewrite T in S.
  - assert (3 # 10 < mid * mid) by lra.
    assert (1 # 2 < mid) by (apply above_half; lra).
    split; [lra|]. split; [lra|]. split; [lra|]. split; [lra|].
    split; [lra|]. split; [rewrite Wl; exact W|].
    destruct (bestBlob st) as [b0|]; [|exact B].
    destruct B as [B1 [B2 B3]]. split; [exact B1|]. split; [exact B2|].
    apply renderedAt_cons. exact B3.
  - split; [lra|]. split; [lra|]. split; [lra|]. split; [lra|].
    split; [lra|]. split; [rewrite Wh; exact W|].
    split; [lra|]. split; [rewrite T; reflexivity|].
    exists c. split; [left; reflexivity|]. split; [reflexivity | exact D].
Qed.

(** After the guess and eighteen rounds the bracket is narrow and the best
    probe, made at scale [low], sits just under the target. *)
Lemma quadratic_search x l :
  wp (scaleSearch P img (150 * 1024) (clamp x (5 # 100) 1) (5 # 100) 18) l
     (fun found l' =>
        let b := fst (fst found) in
        exists s,
          renderedAt l' b s /\ size b == 512000 * (s * s) /\
          0 <= s <= 1 /\ s * s <= 3 # 10 /\ 3 # 10 < (s + eps) * (s + eps))
     noExn.
Proof.
  unfold scaleSearch, searchRounds. apply wp_bind. apply wp_bind.
  eapply wp_weaken; [apply quadraticInv_guess | | auto].
  intros st0 l0 J0. cbv beta.
  eapply wp_weaken;
    [apply (wp_bisectLoop P img quadraticInv noExn (150 * 1024) (5 # 100))
       with (k := O)
    | | auto].
  - intros k st l' J W. apply quadraticInv_bisect; assumption.
  - exact J0.
  - intros st l' [m [[L0 [LH [H1 [Hh [Hq [W B]]]]]] End]]. cbv beta.
    assert (N : high st - low st <= eps).
    { destruct End as [->|N]; [|exact N].
      assert (P18 : pow2 (0 + 18) == 262144) by reflexivity.
      rewrite P18 in W. unfold eps. lra. }
    unfold eps in N.
    apply wp_forceMinimum.
    + intros b Eb. rewrite Eb in B. destruct B as [B1 [B2 B3]]. simpl.
      exists (low st). split; [exact B3|]. split; [exact B2|].
      split; [lra|]. split; [exact B1|].
      assert (high st * high st <= (low st + eps) * (low st + eps))
        by (apply square_mono; unfold eps; lra).
      lra.
    + intro Eb. rewrite Eb in B. exfalso. lra.
Qed.

End Quadratic.

(** C8.  The encoded size is 512000 times the square of the scale, the
    input has 512000 bytes, the target is 150 KB and the tolerance 5 KB,
    with the default 18 rounds and [minScale = 0.05].  Whatever
    [Math.sqrt] gives for the first guess and whether or not UPNG is
    present, [resizePngToTarget] returns a blob of size within
    [145 * 1024, 155 * 1024], encoded at a scale [s] with
    [s * s <= 3/10 < (s + 1/1000) * (s + 1/1000)]: [s] is within one
    thousandth below the square root of 150/500. *)
Theorem quadratic_encoder_converges
    (P : Platform) (file : Blob) (img : Image)
    (useQuantization : option bool) (paletteColors : option Q) :
  toBlob P = quadraticEncoder 512000 ->
  decode P file = Some img ->
  size file = 512000 ->
  exists b l s,
    Png.resizePngToTarget P file
      (Png.mkOptions 150 (Some 5) None None useQuantization paletteColors) []
    = Returned b l /\
    145 * 1024 <= size b <= 155 * 1024 /\
    renderedAt l b s /\
    s * s <= 3 # 10 /\ 3 # 10 < (s + eps) * (s + eps).
Proof.
  intros Enc D Sz.
  assert (W : wp (Png.resizePngToTarget P file
                    (Png.mkOptions 150 (Some 5) None None useQuantization
                       paletteColors)) []
                (fun b l =>
                   exists s,
                     145 * 1024 <= size b <= 155 * 1024 /\
                     renderedAt l b s /\
                     s * s <= 3 # 10 /\ 3 # 10 < (s + eps) * (s + eps))
                noExn).
  { unfold Png.resizePngToTarget, Png.guessScaleOf.
    change (Png.targetBytesOf _) with (150 * 1024).
    change (Png.bufferBytesOf _) with (5 * 1024).
    change (Png.minScaleOf _) with (5 # 100).
    change (Png.maxIterationsOf _) with 18%nat.
    rewrite Sz.
    assert (C1 : (512000 <=? 150 * 1024 + 5 * 1024) = false) by reflexivity.
    rewrite C1, andb_false_r.
    apply wp_bind. apply wp_loadImage; [|congruence].
    intros img' D'. apply wp_bind.
    eapply wp_weaken; [apply quadratic_search; exact Enc | | auto].
    intros [[b bs] cv] l [s [R [Eb [[S0 S1] [S2 S3]]]]]. simpl in R, Eb.
    assert (B : 145 * 1024 <= size b <= 155 * 1024).
    { rewrite Eb. unfold eps in S3. split; lra. }
    unfold Png.finish.
    assert (Wb : withinBuffer (size b) (150 * 1024) (5 * 1024) = true).
    { apply withinBuffer_iff. destruct B. split; lra. }
    rewrite Wb. apply wp_ret. exists s. auto. }
  destruct (wp_total _ _ _ W) as [b [l [R [s H]]]].
  exists b, l, s. split; [exact R | exact H].
Qed.

Lemma quadratic_encoder_converges_witness :
  exists b l s,
    Png.resizePngToTarget (quadraticPlatform 512000)
      (mkBlob 512000 image_png 0)
      (Png.mkOptions 150 (Some 5) None None None None) [] = Returned b l /\
    145 * 1024 <= size b <= 155 * 1024 /\
    renderedAt l b s /\
    s * s <= 3 # 10 /\ 3 # 10 < (s + eps) * (s + eps).
Proof.
  apply (quadratic_encoder_converges (quadraticPlatform 512000)
           (mkBlob 512000 image_png 0) sampleImage None None);
    reflexivity.
Defined.

(** ** How many encoder calls a run makes *)

Lemma spends_ret {A : Type} (a : A) : spends 0 (ret a).
Proof. intro l. simpl. lia. Qed.

Lemma spends_throw {A : Type} (e : Exn) : spends 0 (@throw A e).
Proof. intro l. simpl. lia. Qed.

Lemma spends_weaken {A : Type} (k k' : nat) (m : M A) :
  (k <= k')%nat -> spends k m -> spends k' m.
Proof. intros H S l. specialize (S l). lia. Qed.

Lemma spends_bind {A B : Type} (k1 k2 : nat) (m : M A) (f : A -> M B) :
  spends k1 m -> (forall a, spends k2 (f a)) -> spends (k1 + k2) (bind m f).
Proof.
  intros S1 S2 l. unfold bind. specialize (S1 l).
  destruct (m l) as [a l1|e l1]; simpl in *.
  - specialize (S2 a l1). lia.
  - lia.
Qed.

Lemma spends_canvas_toBlob P canvas mime quality :
  spends 1 (canvas_toBlob P canvas mime quality).
Proof. intro l. simpl. lia. Qed.

Lemma spends_upng_encode enc canvas colors :
  spends 1 (upng_encode enc canvas colors).
Proof. intro l. simpl. lia. Qed.

Lemma spends_loadImage P file : spends 0 (loadImage P file).
Proof.
  unfold loadImage. destruct (decode P file);
    [apply spends_ret | apply spends_throw].
Qed.

Section PngBudget.
Import Png.
Variable P : Platform.
Variable img : Image.

Lemma spends_renderAtScale scale : spends 1 (renderAtScale P img scale).
Proof.
  unfold renderAtScale, toBlobAsync.
  apply (spends_bind 1 0). 2:{ intro b. apply spends_ret. }
  apply (spends_bind 1 0); [apply spends_canvas_toBlob|].
  intros [b|]; [apply spends_ret | apply spends_throw].
Qed.

Lemma spends_tryGuess targetBytes guess st :
  spends 1 (tryGuess P img targetBytes guess st).
Proof.
  unfold tryGuess. apply (spends_bind 1 0); [apply spends_renderAtScale|].
  intros [b cv]. destruct (size b <=? targetBytes); apply spends_ret.
Qed.

Lemma spends_bisect targetBytes minScale st :
  spends 1 (bisect P img targetBytes minScale st).
Proof.
  unfold bisect. apply (spends_bind 1 0); [apply spends_renderAtScale|].
  intros [b cv]. destruct (size b >? targetBytes); apply spends_ret.
Qed.

Lemma spends_bisectLoop targetBytes minScale n :
  forall st, spends n (bisectLoop P n img targetBytes minScale st).
Proof.
  induction n as [|n IH]; intro st; simpl; [apply spends_ret|].
  destruct (high st - low st >? eps).
  - apply (spends_bind 1 n); [apply spends_bisect | exact IH].
  - apply (spends_weaken 0); [lia | apply spends_ret].
Qed.

Lemma spends_forceMinimum minScale st :
  spends 1 (forceMinimum P img minScale st).
Proof.
  unfold forceMinimum. destruct (bestBlob st).
  - apply (spends_weaken 0); [lia | apply spends_ret].
  - apply (spends_bind 1 0); [apply spends_renderAtScale|].
    intros [b cv]. apply spends_ret.
Qed.

Lemma spends_scaleSearch targetBytes guess minScale n :
  spends (n + 2) (scaleSearch P img targetBytes guess minScale n).
Proof.
  unfold scaleSearch, searchRounds.
  apply (spends_weaken (1 + n + 1)); [lia|].
  apply (spends_bind (1 + n) 1).
  - apply (spends_bind 1 n); [apply spends_tryGuess|].
    intro st. apply spends_bisectLoop.
  - intro st. apply spends_forceMinimum.
Qed.

Lemma spends_quantBisect enc minScale targetBytes bufferBytes colors st :
  spends 2 (quantBisect P enc img minScale targetBytes bufferBytes colors st).
Proof.
  unfold quantBisect. apply (spends_bind 1 1); [apply spends_renderAtScale|].
  intros [b cv]. apply (spends_bind 1 0); [apply spends_upng_encode|].
  intro q. destruct (size q >? targetBytes); [apply spends_ret|].
  destruct (withinBuffer _ _ _); apply spends_ret.
Qed.

Lemma spends_quantLoop enc minScale targetBytes bufferBytes colors n :
  forall st,
    spends (2 * n)
      (quantLoop P n enc img minScale targetBytes bufferBytes colors st).
Proof.
  induction n as [|n IH]; intro st; simpl; [apply spends_ret|].
  destruct (qhigh st - qlow st >? eps).
  - apply (spends_weaken (2 + 2 * n)); [lia|].
    apply (spends_bind 2 (2 * n)); [apply spends_quantBisect|].
    intros [st'|st'|r].
    + apply IH.
    + apply (spends_weaken 0); [lia | apply spends_ret].
    + apply (spends_weaken 0); [lia | apply spends_ret].
  - apply (spends_weaken 0); [lia | apply spends_ret].
Qed.

Lemma spends_finish targetBytes bufferBytes minScale (n : nat) (uq : bool)
    colors found :
  spends (if uq
          then match UPNG P with Some _ => 2 * n + 1 | None => 0 end
          else 0)%nat
    (finish P img targetBytes bufferBytes minScale n uq colors found).
Proof.
  destruct found as [[b bs] cv]. unfold finish.
  destruct (withinBuffer (size b) targetBytes bufferBytes).
  { apply (spends_weaken 0); [lia | apply spends_ret]. }
  destruct uq; [|apply spends_ret].
  destruct (UPNG P) as [enc|]; [|apply spends_ret].
  apply (spends_weaken (1 + (2 * n + 0))); [lia|].
  apply (spends_bind 1 (2 * n + 0)); [apply spends_upng_encode|].
  intro q. destruct (withinBuffer (size q) targetBytes bufferBytes).
  { apply (spends_weaken 0); [lia | apply spends_ret]. }
  apply (spends_bind (2 * n) 0).
  - unfold binarySearchWithQuantization. apply spends_quantLoop.
  - intros [r|]; apply spends_ret.
Qed.

End PngBudget.

(** X1.  A run of [resizePngToTarget] makes at most
    [3 * maxIterations + 3] encoder calls, whether it returns or throws:
    the guess, the rounds and the forced minimum, then one [UPNG.encode]
    and two calls for each round of the refinement.  Without UPNG, or with
    [useQuantization] off, it makes at most [maxIterations + 2]. *)
Theorem png_run_call_budget
    (P : Platform) (file : Blob) (opts : Png.ResizeOptions) :
  (length (logOf (Png.resizePngToTarget P file opts []))
   <= 3 * Png.maxIterationsOf opts + 3)%nat /\
  (UPNG P = None \/ Png.useQuantizationOf opts = false ->
   (length (logOf (Png.resizePngToTarget P file opts []))
    <= Png.maxIterationsOf opts + 2)%nat).
Proof.
  assert (S : spends
                (Png.maxIterationsOf opts + 2 +
                 (if Png.useQuantizationOf opts
                  then match UPNG P with
                       | Some _ => 2 * Png.maxIterationsOf opts + 1
                       | None => 0
                       end
                  else 0))%nat
                (Png.resizePngToTarget P file opts)).
  { unfold Png.resizePngToTarget.
    destruct (_ && _); [apply (spends_weaken 0); [lia | apply spends_ret]|].
    apply (spends_bind 0); [apply spends_loadImage|]. intro img.
    destruct (size file <=? _);
      [apply (spends_weaken 0); [lia | apply spends_ret]|].
    apply spends_bind; [apply spends_scaleSearch|].
    intro found. apply spends_finish. }
  specialize (S []). simpl length in S. split.
  - destruct (Png.useQuantizationOf opts); [destruct (UPNG P)|]; lia.
  - intros [H|H]; rewrite H in S;
      [destruct (Png.useQuantizationOf opts)|]; lia.
Qed.

Lemma png_run_call_budget_witness :
  (length (logOf (Png.resizePngToTarget (constantPlatform 1000000 false)
                    (mkBlob 2000000 image_png 0)
                    (Png.mkOptions 150 None (Some 4%nat) None None None) []))
   <= 4 + 2)%nat.
Proof.
  apply (proj2 (png_run_call_budget (constantPlatform 1000000 false)
                  (mkBlob 2000000 image_png 0)
                  (Png.mkOptions 150 None (Some 4%nat) None None None))).
  left. reflexivity.
Defined.

Section RasterBudget.
Import Raster.
Variable P : Platform.

Lemma spends_toBlobAsync canvas mime quality :
  spends 1 (toBlobAsync P canvas mime quality).
Proof. apply spends_canvas_toBlob. Qed.

Lemma spends_qualityStep canvas mime targetBytes bufferBytes minQ maxQ st :
  spends 1 (qualityStep P canvas mime targetBytes bufferBytes minQ maxQ st).
Proof.
  unfold qualityStep. apply (spends_bind 1 0); [apply spends_toBlobAsync|].
  intros [b|]; [|apply spends_ret].
  destruct (size b >? _); [apply spends_ret|].
  destruct (withinBuffer _ _ _); apply spends_ret.
Qed.

Lemma spends_qualityLoop canvas mime targetBytes bufferBytes minQ maxQ n :
  forall st,
    spends n
      (qualityLoop P n canvas mime targetBytes bufferBytes minQ maxQ st).
Proof.
  induction n as [|n IH]; intro st; simpl; [apply spends_ret|].
  destruct (hi st - lo st >? eps).
  - apply (spends_bind 1 n); [apply spends_qualityStep|].
    intros [st'|st'|r].
    + apply IH.
    + apply (spends_weaken 0); [lia | apply spends_ret].
    + apply (spends_weaken 0); [lia | apply spends_ret].
  - apply (spends_weaken 0); [lia | apply spends_ret].
Qed.

Lemma spends_openQuality canvas mime targetBytes bufferBytes minQ maxQ :
  spends 2 (openQuality P canvas mime targetBytes bufferBytes minQ maxQ).
Proof.
  unfold openQuality. apply (spends_bind 1 1); [apply spends_toBlobAsync|].
  intros [minTry|]; [|apply (spends_weaken 0); [lia | apply spends_ret]].
  destruct (size minTry >? _);
    [apply (spends_weaken 0); [lia | apply spends_ret]|].
  destruct (withinBuffer _ _ _);
    [apply (spends_weaken 0); [lia | apply spends_ret]|].
  apply (spends_bind 1 0); [apply spends_toBlobAsync|].
  intros [maxTry|]; [|apply spends_ret].
  destruct (size maxTry <=? _); [|apply spends_ret].
  destruct (withinBuffer _ _ _); apply spends_ret.
Qed.

Lemma spends_fitByQuality canvas mime targetBytes bufferBytes minQ maxQ n :
  spends (n + 2)
    (fitByQuality P canvas mime targetBytes bufferBytes minQ maxQ n).
Proof.
  unfold fitByQuality, qualityRounds.
  apply (spends_weaken (2 + n + 0)); [lia|].
  apply (spends_bind (2 + n) 0).
  - apply (spends_bind 2 n); [apply spends_openQuality|].
    intros [st|st|r]; try apply spends_qualityLoop.
    apply (spends_weaken 0); [lia | apply spends_ret].
  - intros [st|st|r]; apply spends_ret.
Qed.

Variable file : Blob.
Variable img : Image.
Variable effMime : Mime.
Variables targetBytes bufferBytes minQuality maxQuality : Q.
Variable q : nat.
Variable minScale : Q.

Lemma spends_seed st :
  spends (q + 2)
    (seed P img effMime file targetBytes bufferBytes minQuality maxQuality
       q minScale st).
Proof.
  unfold seed, tryScale.
  apply (spends_weaken (q + 2 + 0)); [lia|].
  apply (spends_bind (q + 2) 0); [apply spends_fitByQuality|].
  intros [b|]; [|apply spends_ret].
  destruct (size b <=? _); apply spends_ret.
Qed.

Lemma spends_scaleStep st :
  spends (q + 2)
    (scaleStep P img effMime targetBytes bufferBytes minQuality maxQuality
       q minScale st).
Proof.
  unfold scaleStep, tryScale.
  apply (spends_weaken (q + 2 + 0)); [lia|].
  apply (spends_bind (q + 2) 0); [apply spends_fitByQuality|].
  intros [b|]; [|apply spends_ret].
  destruct (size b >? _); [apply spends_ret|].
  destruct (withinBuffer _ _ _); apply spends_ret.
Qed.

Lemma spends_scaleLoop n :
  forall st,
    spends (n * (q + 2))
      (scaleLoop P n img effMime targetBytes bufferBytes minQuality
         maxQuality q minScale st).
Proof.
  induction n as [|n IH]; intro st; simpl; [apply spends_ret|].
  destruct (high st - low st >? eps).
  - apply (spends_bind (q + 2) (n * (q + 2))); [apply spends_scaleStep|].
    intros [st'|st'|r].
    + apply IH.
    + apply (spends_weaken 0); [lia | apply spends_ret].
    + apply (spends_weaken 0); [lia | apply spends_ret].
  - apply (spends_weaken 0); [lia | apply spends_ret].
Qed.

Lemma spends_phaseB n :
  spends ((n + 1) * (q + 2) + 1)
    (phaseB P file img effMime targetBytes bufferBytes minQuality maxQuality
       q minScale n).
Proof.
  unfold phaseB, searchRounds.
  apply (spends_weaken (q + 2 + n * (q + 2) + 1)); [lia|].
  apply (spends_bind (q + 2 + n * (q + 2)) 1).
  - apply (spends_bind (q + 2) (n * (q + 2))); [apply spends_seed|].
    intro st. apply spends_scaleLoop.
  - assert (Last : forall st : Search,
              spends 1
                match bestBlob st with
                | Some b => ret b
                | None =>
                    tiny <- toBlobAsync P (drawAtScale img minScale) effMime
                              (Some minQuality) ;;
                    match tiny with
                    | Some t => ret t
                    | None => ret file
                    end
                end).
    { intro st. destruct (bestBlob st).
      - apply (spends_weaken 0); [lia | apply spends_ret].
      - apply (spends_bind 1 0); [apply spends_toBlobAsync|].
        intros [t|]; apply spends_ret. }
    intros [st|st|b]; try apply Last.
    apply (spends_weaken 0); [lia | apply spends_ret].
Qed.

End RasterBudget.

(** X2.  [fitByQuality] always returns, and makes at least one and at
    most [iterations + 2] encoder calls: the probes at [minQ] and [maxQ]
    and one for each round. *)
Theorem fitByQuality_call_budget
    (P : Platform) (canvas : Canvas) (mime : Mime)
    (targetBytes bufferBytes minQ maxQ : Q) (iterations : nat) (l : Log) :
  exists r l',
    Raster.fitByQuality P canvas mime targetBytes bufferBytes minQ maxQ
      iterations l = Returned r l' /\
    (length l + 1 <= length l' <= length l + (iterations + 2))%nat.
Proof.
  destruct (wp_total _ _ _
              (fitByQuality_outcome P canvas mime targetBytes bufferBytes
                 minQ maxQ iterations l)) as [r [l' [R [[new [E _]] _]]]].
  exists r, l'. split; [exact R|]. split.
  - rewrite E, length_app. simpl. lia.
  - assert (S := spends_fitByQuality P canvas mime targetBytes bufferBytes
                   minQ maxQ iterations l).
    rewrite R in S. exact S.
Qed.

(** X3.  A run of [resizeRasterToTarget] makes at most
    [(scaleIterations + 2) * (qualityIterations + 2) + 2] encoder calls:
    the support test, a quality search at full size, at the first scale
    and in each round, and the last resort. *)
Theorem raster_run_call_budget
    (P : Platform) (file : Blob) (mime : Mime) (opts : Raster.RasterOptions) :
  (length (logOf (Raster.resizeRasterToTarget P file mime opts []))
   <= (Raster.scaleIterationsOf opts + 2)
      * (Raster.qualityIterationsOf opts + 2) + 2)%nat.
Proof.
  set (qi := Raster.qualityIterationsOf opts).
  set (si := Raster.scaleIterationsOf opts).
  assert (S : spends (1 + (qi + 2) + ((si + 1) * (qi + 2) + 1))
                (Raster.resizeRasterToTarget P file mime opts)).
  { unfold Raster.resizeRasterToTarget. fold qi. fold si.
    destruct (withinBuffer _ _ _);
      [apply (spends_weaken 0); [lia | apply spends_ret]|].
    apply (spends_bind 0 (1 + (qi + 2) + ((si + 1) * (qi + 2) + 1)));
      [apply spends_loadImage|].
    intro img.
    apply (spends_bind (1 + (qi + 2)) ((si + 1) * (qi + 2) + 1)).
    - unfold Raster.phaseA, Raster.testMimeSupport.
      apply (spends_bind 1 (qi + 2)).
      + apply (spends_bind 1 0); [apply spends_toBlobAsync|].
        intros [b|]; apply spends_ret.
      + intro supported.
        apply (spends_weaken (qi + 2 + 0)); [lia|].
        apply (spends_bind (qi + 2) 0); [apply spends_fitByQuality|].
        intro r. apply spends_ret.
    - intros [effMime [qOnly|]]; [|apply spends_phaseB].
      destruct (withinBuffer _ _ _);
        [apply (spends_weaken 0); [lia | apply spends_ret]|].
      destruct (size qOnly >? _);
        [apply spends_phaseB
        | apply (spends_weaken 0); [lia | apply spends_ret]]. }
  specialize (S []). simpl length in S. nia.
Qed.

(** ** The scales and the requests of a run *)

Section PngCalls.
Import Png.
Variable P : Platform.
Variable img : Image.
Variables targetBytes bufferBytes minScale : Q.
Variable ok : Q -> Prop.
Hypothesis ok_clamp : forall x, ok (clamp x minScale 1).
Hypothesis ok_floor : ok (Math_max minScale (1 # 100)).

Let kept (l : Log) : Prop := Forall (pngCall ok) l.

Lemma kept_probe cv b l :
  ok (drawn cv) -> kept l -> kept (mkCall cv (ToBlob image_png None) b :: l).
Proof.
  intros H K. constructor; [|exact K]. split; [exact H | left; reflexivity].
Qed.

Lemma kept_upng cv colors b l :
  ok (drawn cv) -> kept l -> kept (mkCall cv (UpngEncode colors) b :: l).
Proof.
  intros H K. constructor; [|exact K].
  split; [exact H | right; exists colors; reflexivity].
Qed.

Lemma kept_render scale l (Q : Blob * Canvas -> Log -> Prop) :
  ok scale -> kept l ->
  (forall b cv l', ok (drawn cv) -> kept l' -> Q (b, cv) l') ->
  wp (renderAtScale P img scale) l Q (fun _ l' => kept l').
Proof.
  intros H K HQ. apply wp_renderAtScale.
  - intros b cv D _. apply HQ; [rewrite D; exact H|].
    apply kept_probe; [rewrite D; exact H | exact K].
  - intros cv D _. apply kept_probe; [rewrite D; exact H | exact K].
Qed.

Lemma kept_scaleSearch x n l :
  kept l ->
  wp (scaleSearch P img targetBytes (clamp x minScale 1) minScale n) l
     (fun found l' => ok (drawn (snd found)) /\ kept l')
     (fun _ l' => kept l').
Proof.
  intro K. unfold scaleSearch, searchRounds. apply wp_bind. apply wp_bind.
  unfold tryGuess. apply wp_bind. apply kept_render; [apply ok_clamp | exact K|].
  intros b cv l1 Hc K1.
  assert (Loop : forall st,
            ok (drawn (canvas st)) ->
            wp (bisectLoop P n img targetBytes minScale st) l1
               (fun st' l' =>
                  wp (forceMinimum P img minScale st') l'
                     (fun found l'' => ok (drawn (snd found)) /\ kept l'')
                     (fun _ l'' => kept l''))
               (fun _ l' => kept l')).
  { intros st Hs.
    eapply wp_weaken;
      [apply (wp_bisectLoop P img
                (fun _ st' l' => ok (drawn (canvas st')) /\ kept l')
                (fun _ l' => kept l') targetBytes minScale) with (k := O)
      | | auto].
    - intros k st' l' [Hs' K'] _. unfold bisect. apply wp_bind.
      apply kept_render; [apply ok_clamp | exact K'|].
      intros b' cv' l'' Hc' K''.
      destruct (size b' >? targetBytes); apply wp_ret; split; assumption.
    - split; assumption.
    - intros st' l' [m [[Hs' K'] _]]. cbv beta.
      unfold forceMinimum. destruct (bestBlob st').
      + apply wp_ret. split; assumption.
      + apply wp_bind. apply kept_render; [exact ok_floor | exact K'|].
        intros b' cv' l'' Hc' K''. apply wp_ret. split; assumption. }
  destruct (size b <=? targetBytes); apply wp_ret; apply Loop; exact Hc.
Qed.

Lemma kept_quantLoop enc colors n :
  forall st l,
    kept l ->
    wp (quantLoop P n enc img minScale targetBytes bufferBytes colors st) l
       (fun _ l' => kept l') (fun _ l' => kept l').
Proof.
  induction n as [|n IH]; intros st l K; simpl; [apply wp_ret; exact K|].
  destruct (qhigh st - qlow st >? eps); [|apply wp_ret; exact K].
  apply wp_bind. unfold quantBisect. apply wp_bind.
  apply kept_render; [apply ok_clamp | exact K|].
  intros b cv l1 Hc K1. apply wp_bind. apply wp_upng_encode. intros q _.
  assert (K2 := kept_upng cv colors (Some q) l1 Hc K1).
  destruct (size q >? targetBytes); [apply wp_ret; apply IH; exact K2|].
  destruct (withinBuffer _ _ _); apply wp_ret;
    [apply wp_ret; exact K2 | apply IH; exact K2].
Qed.

Lemma kept_finish n uq colors found l :
  ok (drawn (snd found)) -> kept l ->
  wp (finish P img targetBytes bufferBytes minScale n uq colors found) l
     (fun _ l' => kept l') (fun _ l' => kept l').
Proof.
  destruct found as [[b bs] cv]. simpl. intros Hc K. unfold finish.
  destruct (withinBuffer (size b) targetBytes bufferBytes);
    [apply wp_ret; exact K|].
  destruct uq; [|apply wp_ret; exact K].
  destruct (UPNG P) as [enc|]; [|apply wp_ret; exact K].
  apply wp_bind. apply wp_upng_encode. intros q _.
  assert (K1 := kept_upng cv colors (Some q) l Hc K).
  destruct (withinBuffer (size q) targetBytes bufferBytes);
    [apply wp_ret; exact K1|].
  apply wp_bind. unfold binarySearchWithQuantization.
  eapply wp_weaken; [apply kept_quantLoop; exact K1 | | auto].
  intros [r|] l' K'; apply wp_ret; exact K'.
Qed.

End PngCalls.

(** X4.  With [minScale] not above 1, every encoder call of a run of
    [resizePngToTarget], returned or thrown, is a PNG [toBlob] or a
    [UPNG.encode] on a canvas drawn at a scale within [minScale, 1]: the
    image is never enlarged and never drawn below [minScale]. *)
Theorem png_scales_within_bounds
    (P : Platform) (file : Blob) (opts : Png.ResizeOptions) (c : Call) :
  Png.minScaleOf opts <= 1 ->
  In c (logOf (Png.resizePngToTarget P file opts [])) ->
  Png.minScaleOf opts <= drawn (surface c) <= 1 /\
  (pngProbe c \/ quantized c).
Proof.
  intros H1 I.
  assert (W : wp (Png.resizePngToTarget P file opts) []
                (fun _ l =>
                   Forall (pngCall (withinScales (Png.minScaleOf opts))) l)
                (fun _ l =>
                   Forall (pngCall (withinScales (Png.minScaleOf opts))) l)).
  { assert (Oc : forall x,
              withinScales (Png.minScaleOf opts)
                (clamp x (Png.minScaleOf opts) 1)).
    { intro x. split; [apply clamp_lower | apply clamp_upper; exact H1]. }
    assert (Of : withinScales (Png.minScaleOf opts)
                   (Math_max (Png.minScaleOf opts) (1 # 100))).
    { unfold withinScales.
      destruct (Math_max_cases (Png.minScaleOf opts) (1 # 100))
        as [[L E]|[L E]]; rewrite E; lra. }
    unfold Png.resizePngToTarget, Png.guessScaleOf.
    destruct (_ && _); [apply wp_ret; constructor|].
    apply wp_bind. apply wp_loadImage; [|intros; constructor].
    intros img _. destruct (size file <=? _); [apply wp_ret; constructor|].
    apply wp_bind.
    eapply wp_weaken;
      [apply (kept_scaleSearch P img _ _ _ Oc Of); constructor | | auto].
    intros found l [Hc K]. cbv beta.
    apply (kept_finish P img _ _ _ _ Oc); assumption. }
  unfold wp in W. unfold logOf in I.
  destruct (Png.resizePngToTarget P file opts []) as [b l|e l];
    (rewrite Forall_forall in W; destruct (W c I) as [R K];
     split; [exact R | exact K]).
Qed.

Lemma png_scales_within_bounds_witness :
  exists c,
    In c (logOf (Png.resizePngToTarget (constantPlatform 1000000 true)
                   (mkBlob 2000000 image_png 0)
                   (Png.mkOptions 150 None (Some 2%nat) None None None) [])) /\
    5 # 100 <= drawn (surface c) <= 1 /\ (pngProbe c \/ quantized c).
Proof.
  eexists. split; [vm_compute; left; reflexivity|].
  apply (png_scales_within_bounds (constantPlatform 1000000 true)
           (mkBlob 2000000 image_png 0)
           (Png.mkOptions 150 None (Some 2%nat) None None None)).
  - vm_compute. discriminate.
  - vm_compute. left. reflexivity.
Defined.

Section RasterCalls.
Import Raster.
Variable P : Platform.
Variable okS : Q -> Prop.
Variable okM : Mime -> Prop.
Variable okQ : Q -> Prop.
Variables targetBytes bufferBytes minQ maxQ : Q.
Variable qualityIterations : nat.
Variable minScale : Q.
Hypothesis okQ_min : okQ minQ.
Hypothesis okQ_max : okQ maxQ.
Hypothesis okQ_clamp : forall x, okQ (clamp x minQ maxQ).
Hypothesis okS_clamp : forall x, okS (clamp x minScale 1).
Hypothesis okS_min : okS minScale.

Let held (l : Log) : Prop := Forall (rasterCall okS okM okQ) l.

Lemma held_call canvas m q b l :
  okS (drawn canvas) -> okM m -> okQ q -> held l ->
  held (mkCall canvas (ToBlob m (Some q)) b :: l).
Proof.
  intros Hs Hm Hq K. constructor; [|exact K].
  split; [exact Hs|]. exists m, q. auto.
Qed.

Lemma held_qualityLoop canvas m n :
  okS (drawn canvas) -> okM m ->
  forall st l,
    held l ->
    wp (qualityLoop P n canvas m targetBytes bufferBytes minQ maxQ st) l
       (fun _ l' => held l') noExn.
Proof.
  intros Hs Hm. induction n as [|n IH]; intros st l K; simpl;
    [apply wp_ret; exact K|].
  destruct (hi st - lo st >? eps); [|apply wp_ret; exact K].
  apply wp_bind. unfold qualityStep, toBlobAsync. apply wp_bind.
  apply wp_canvas_toBlob.
  assert (K1 := held_call canvas m
                  (clamp (midpoint (lo st) (hi st)) minQ maxQ)
                  (encoded P l canvas m
                     (Some (clamp (midpoint (lo st) (hi st)) minQ maxQ)))
                  l Hs Hm (okQ_clamp _) K).
  destruct (encoded P l canvas m _) as [b|];
    [|apply wp_ret; apply wp_ret; exact K1].
  destruct (size b >? _); [apply wp_ret; apply IH; exact K1|].
  destruct (withinBuffer _ _ _); apply wp_ret;
    [apply wp_ret; exact K1 | apply IH; exact K1].
Qed.

Lemma held_fitByQuality canvas m l :
  okS (drawn canvas) -> okM m -> held l ->
  wp (fitByQuality P canvas m targetBytes bufferBytes minQ maxQ
        qualityIterations) l
     (fun _ l' => held l') noExn.
Proof.
  intros Hs Hm K. unfold fitByQuality, qualityRounds. apply wp_bind.
  apply wp_bind. unfold openQuality, toBlobAsync. apply wp_bind.
  apply wp_canvas_toBlob.
  assert (K1 := held_call canvas m minQ
                  (encoded P l canvas m (Some minQ)) l Hs Hm okQ_min K).
  set (l1 := mkCall canvas (ToBlob m (Some minQ))
               (encoded P l canvas m (Some minQ)) :: l) in *.
  assert (Done : forall (r : option Blob) l',
            held l' ->
            wp (ret (Return r : Flow QSearch (option Blob))) l'
               (fun f l2 =>
                  wp match f with
                     | Continue st | Break st =>
                         qualityLoop P qualityIterations canvas m targetBytes
                           bufferBytes minQ maxQ st
                     | Return r0 => ret (Return r0)
                     end l2
                     (fun f' l3 =>
                        wp match f' with
                           | Continue st | Break st => ret (best st)
                           | Return r0 => ret r0
                           end l3 (fun _ l4 => held l4) noExn)
                     noExn)
               noExn).
  { intros r l' K'. apply wp_ret. apply wp_ret. apply wp_ret. exact K'. }
  assert (Go : forall st l',
            held l' ->
            wp (ret (Continue st : Flow QSearch (option Blob))) l'
               (fun f l2 =>
                  wp match f with
                     | Continue st | Break st =>
                         qualityLoop P qualityIterations canvas m targetBytes
                           bufferBytes minQ maxQ st
                     | Return r0 => ret (Return r0)
                     end l2
                     (fun f' l3 =>
                        wp match f' with
                           | Continue st | Break st => ret (best st)
                           | Return r0 => ret r0
                           end l3 (fun _ l4 => held l4) noExn)
                     noExn)
               noExn).
  { intros st l' K'. apply wp_ret.
    eapply wp_weaken; [apply held_qualityLoop; eassumption | | auto].
    intros [st'|st'|r] l2 K2; apply wp_ret; exact K2. }
  destruct (encoded P l canvas m (Some minQ)) as [minTry|];
    [|apply Done; exact K1].
  destruct (size minTry >? _); [apply Done; exact K1|].
  destruct (withinBuffer _ _ _); [apply Done; exact K1|].
  apply wp_bind. apply wp_canvas_toBlob.
  assert (K2 := held_call canvas m maxQ
                  (encoded P l1 canvas m (Some maxQ)) l1 Hs Hm okQ_max K1).
  destruct (encoded P l1 canvas m (Some maxQ)) as [maxTry|];
    [|apply Go; exact K2].
  destruct (size maxTry <=? _); [|apply Go; exact K2].
  destruct (withinBuffer _ _ _); [apply Done | apply Go]; exact K2.
Qed.

Variable file : Blob.
Variable img : Image.
Variable effMime : Mime.
Hypothesis okM_eff : okM effMime.

Lemma held_tryScale scale l :
  okS scale -> held l ->
  wp (tryScale P img effMime targetBytes bufferBytes minQ maxQ
        qualityIterations scale) l
     (fun _ l' => held l') noExn.
Proof.
  intros Hs K. unfold tryScale. apply held_fitByQuality; assumption.
Qed.

Lemma held_scaleLoop n :
  forall st l,
    held l ->
    wp (scaleLoop P n img effMime targetBytes bufferBytes minQ maxQ
          qualityIterations minScale st) l
       (fun _ l' => held l') noExn.
Proof.
  induction n as [|n IH]; intros st l K; simpl; [apply wp_ret; exact K|].
  destruct (high st - low st >? eps); [|apply wp_ret; exact K].
  apply wp_bind. unfold scaleStep. apply wp_bind.
  eapply wp_weaken; [apply held_tryScale; [apply okS_clamp | exact K] | | auto].
  intros [b|] l' K'; cbv beta.
  - destruct (size b >? _); [apply wp_ret; apply IH; exact K'|].
    destruct (withinBuffer _ _ _); apply wp_ret;
      [apply wp_ret; exact K' | apply IH; exact K'].
  - apply wp_ret. apply IH. exact K'.
Qed.

Lemma held_phaseB n l :
  okS (Math_max minScale
         (Math_sqrt P (targetBytes / Math_max 1 (size file)))) ->
  held l ->
  wp (phaseB P file img effMime targetBytes bufferBytes minQ maxQ
        qualityIterations minScale n) l
     (fun _ l' => held l') noExn.
Proof.
  intros H0 K. unfold phaseB, searchRounds. apply wp_bind. apply wp_bind.
  unfold seed. apply wp_bind.
  eapply wp_weaken; [apply held_tryScale; [exact H0 | exact K] | | auto].
  assert (Rest : forall st l',
            held l' ->
            wp (scaleLoop P n img effMime targetBytes bufferBytes minQ maxQ
                  qualityIterations minScale st) l'
               (fun f l2 =>
                  wp match f with
                     | Continue st0 | Break st0 =>
                         match bestBlob st0 with
                         | Some b => ret b
                         | None =>
                             tiny <- toBlobAsync P (drawAtScale img minScale)
                                       effMime (Some minQ) ;;
                             match tiny with
                             | Some t => ret t
                             | None => ret file
                             end
                         end
                     | Return b => ret b
                     end l2 (fun _ l3 => held l3) noExn)
               noExn).
  { intros st l' K'.
    eapply wp_weaken; [apply held_scaleLoop; exact K' | | auto].
    intros [st0|st0|b] l2 K2; try (apply wp_ret; exact K2);
      (destruct (bestBlob st0); [apply wp_ret; exact K2|];
       apply wp_bind; unfold toBlobAsync; apply wp_canvas_toBlob;
       assert (K3 := held_call (drawAtScale img minScale) effMime minQ
                       (encoded P l2 (drawAtScale img minScale) effMime
                          (Some minQ)) l2 okS_min okM_eff okQ_min K2);
       destruct (encoded P l2 _ _ _); apply wp_ret; exact K3). }
  intros [b|] l' K'; cbv beta.
  - destruct (size b <=? _); apply wp_ret; apply Rest; exact K'.
  - apply wp_ret. apply Rest. exact K'.
Qed.

End RasterCalls.

(** Every call of a run of [resizeRasterToTarget] satisfies [okS], [okM]
    and [okQ], once these hold of what the code computes. *)
Lemma raster_run_calls
    (P : Platform) (file : Blob) (mime : Mime) (opts : Raster.RasterOptions)
    (okS : Q -> Prop) (okM : Mime -> Prop) (okQ : Q -> Prop) :
  okQ (Raster.minQualityOf opts) -> okQ (Raster.maxQualityOf opts) ->
  (forall x, okQ (clamp x (Raster.minQualityOf opts) (Raster.maxQualityOf opts))) ->
  okQ (9 # 10) ->
  (forall x, okS (clamp x (Raster.minScaleOf opts) 1)) ->
  okS (Raster.minScaleOf opts) -> okS 1 ->
  okS (Math_max (Raster.minScaleOf opts)
         (Math_sqrt P (Raster.targetBytesOf opts / Math_max 1 (size file)))) ->
  okM mime -> okM image_jpeg ->
  Forall (rasterCall okS okM okQ)
    (logOf (Raster.resizeRasterToTarget P file mime opts [])).
Proof.
  intros Q1 Q2 Q3 Q4 S1 S2 S3 S4 M1 M2.
  assert (W : wp (Raster.resizeRasterToTarget P file mime opts) []
                (fun _ l => Forall (rasterCall okS okM okQ) l)
                (fun _ l => Forall (rasterCall okS okM okQ) l)).
  { unfold Raster.resizeRasterToTarget.
    destruct (withinBuffer _ _ _); [apply wp_ret; constructor|].
    apply wp_bind. apply wp_loadImage; [|intros; constructor].
    intros img _. apply wp_bind. unfold Raster.phaseA. apply wp_bind.
    unfold Raster.testMimeSupport, Raster.toBlobAsync. apply wp_bind.
    apply wp_canvas_toBlob.
    assert (K0 : Forall (rasterCall okS okM okQ)
                   [mkCall (Raster.fullCanvas img) (ToBlob mime (Some (9 # 10)))
                      (encoded P [] (Raster.fullCanvas img) mime
                         (Some (9 # 10)))]).
    { constructor; [|constructor]. split; [exact S3|].
      exists mime, (9 # 10). auto. }
    assert (Run : forall effMime l0,
              okM effMime ->
              Forall (rasterCall okS okM okQ) l0 ->
              wp (qOnly <- Raster.fitByQuality P (Raster.fullCanvas img)
                             effMime (Raster.targetBytesOf opts)
                             (Raster.bufferBytesOf opts)
                             (Raster.minQualityOf opts)
                             (Raster.maxQualityOf opts)
                             (Raster.qualityIterationsOf opts) ;;
                  ret (effMime, qOnly)) l0
                 (fun a l1 =>
                    wp (let '(effMime, qOnly) := a in
                        match qOnly with
                        | Some q =>
                            if withinBuffer (size q) (Raster.targetBytesOf opts)
                                 (Raster.bufferBytesOf opts)
                            then ret q
                            else if size q >? Raster.targetBytesOf opts
                                              + Raster.bufferBytesOf opts
                                 then Raster.phaseB P file img effMime
                                        (Raster.targetBytesOf opts)
                                        (Raster.bufferBytesOf opts)
                                        (Raster.minQualityOf opts)
                                        (Raster.maxQualityOf opts)
                                        (Raster.qualityIterationsOf opts)
                                        (Raster.minScaleOf opts)
                                        (Raster.scaleIterationsOf opts)
                                 else ret q
                        | None =>
                            Raster.phaseB P file img effMime
                              (Raster.targetBytesOf opts)
                              (Raster.bufferBytesOf opts)
                              (Raster.minQualityOf opts)
                              (Raster.maxQualityOf opts)
                              (Raster.qualityIterationsOf opts)
                              (Raster.minScaleOf opts)
                              (Raster.scaleIterationsOf opts)
                        end) l1
                       (fun _ l2 => Forall (rasterCall okS okM okQ) l2)
                       (fun _ l2 => Forall (rasterCall okS okM okQ) l2))
                 (fun _ l1 => Forall (rasterCall okS okM okQ) l1)).
    { intros effMime l0 Me K. apply wp_bind.
      eapply wp_weaken;
        [eapply held_fitByQuality; eassumption | | intros e l1 []].
      intros r l1 K1. apply wp_ret.
      assert (B : wp (Raster.phaseB P file img effMime
                        (Raster.targetBytesOf opts) (Raster.bufferBytesOf opts)
                        (Raster.minQualityOf opts) (Raster.maxQualityOf opts)
                        (Raster.qualityIterationsOf opts)
                        (Raster.minScaleOf opts)
                        (Raster.scaleIterationsOf opts)) l1
                     (fun _ l2 => Forall (rasterCall okS okM okQ) l2)
                     (fun _ l2 => Forall (rasterCall okS okM okQ) l2)).
      { eapply wp_weaken;
          [eapply held_phaseB; eassumption | auto | intros e l2 []]. }
      destruct r as [q|]; [|exact B].
      destruct (withinBuffer _ _ _); [apply wp_ret; exact K1|].
      destruct (size q >? _); [exact B | apply wp_ret; exact K1]. }
    destruct (encoded P [] (Raster.fullCanvas img) mime (Some (9 # 10)))
      as [b|]; apply wp_ret.
    - destruct (Mime_eqb (type b) mime); apply Run; assumption.
    - apply Run; assumption. }
  unfold wp in W. unfold logOf.
  destruct (Raster.resizeRasterToTarget P file mime opts []); exact W.
Qed.

(** X5.  With [minScale] not above 1 and a first scale
    [sqrt(targetBytes / max(1, file.size))] not above 1, every encoder
    call of a run of [resizeRasterToTarget] is made on a canvas drawn at a
    scale within [minScale, 1]. *)
Theorem raster_scales_within_bounds
    (P : Platform) (file : Blob) (mime : Mime) (opts : Raster.RasterOptions)
    (c : Call) :
  Raster.minScaleOf opts <= 1 ->
  Math_sqrt P (Raster.targetBytesOf opts / Math_max 1 (size file)) <= 1 ->
  In c (logOf (Raster.resizeRasterToTarget P file mime opts [])) ->
  Raster.minScaleOf opts <= drawn (surface c) <= 1.
Proof.
  intros H1 Hs I.
  assert (F := raster_run_calls P file mime opts
                 (withinScales (Raster.minScaleOf opts))
                 (fun _ => True) (fun _ => True)).
  rewrite Forall_forall in F.
  apply F; auto; unfold withinScales.
  - intro x. split; [apply clamp_lower | apply clamp_upper; exact H1].
  - lra.
  - lra.
  - destruct (Math_max_cases (Raster.minScaleOf opts)
                (Math_sqrt P (Raster.targetBytesOf opts
                              / Math_max 1 (size file))))
      as [[L E]|[L E]]; rewrite E; lra.
Qed.

Lemma raster_scales_within_bounds_witness :
  exists c,
    In c (logOf (Raster.resizeRasterToTarget (constantPlatform 200000 false)
                   (mkBlob 2000000 image_png 0) image_webp
                   (Raster.mkOptions 100 None None None (Some 1%nat) None
                      (Some 1%nat)) [])) /\
    5 # 100 <= drawn (surface c) <= 1.
Proof.
  eexists. split; [vm_compute; left; reflexivity|].
  apply (raster_scales_within_bounds (constantPlatform 200000 false)
           (mkBlob 2000000 image_png 0) image_webp
           (Raster.mkOptions 100 None None None (Some 1%nat) None
              (Some 1%nat))).
  - vm_compute. discriminate.
  - vm_compute. discriminate.
  - vm_compute. left. reflexivity.
Defined.

(** X6.  With [minQuality] not above [maxQuality], every encoder call of
    a run of [resizeRasterToTarget] is a [toBlob] with a quality, for the
    requested type or for JPEG, at a quality within
    [minQuality, maxQuality] or at the 0.9 of the support test; so
    [resizeJpegToTarget] only ever asks for JPEG. *)
Theorem raster_requests
    (P : Platform) (file : Blob) (mime : Mime) (opts : Raster.RasterOptions)
    (c : Call) :
  Raster.minQualityOf opts <= Raster.maxQualityOf opts ->
  In c (logOf (Raster.resizeRasterToTarget P file mime opts [])) ->
  exists m q,
    request c = ToBlob m (Some q) /\
    (m = mime \/ m = image_jpeg) /\
    (Raster.minQualityOf opts <= q <= Raster.maxQualityOf opts \/ q = 9 # 10).
Proof.
  intros H I.
  assert (F := raster_run_calls P file mime opts (fun _ => True)
                 (fun m => m = mime \/ m = image_jpeg)
                 (fun q => Raster.minQualityOf opts <= q
                           <= Raster.maxQualityOf opts \/ q = 9 # 10)).
  rewrite Forall_forall in F.
  destruct (F) with (x := c) as [_ R]; auto.
  - left. lra.
  - left. lra.
  - intro x. left. split; [apply clamp_lower | apply clamp_upper; exact H].
Qed.

Lemma raster_requests_witness :
  exists c m q,
    In c (logOf (Raster.resizeJpegToTarget (constantPlatform 200000 false)
                   (mkBlob 2000000 image_png 0)
                   (Raster.mkOptions 100 None None None (Some 1%nat) None
                      (Some 1%nat)) [])) /\
    request c = ToBlob m (Some q) /\
    (m = image_jpeg \/ m = image_jpeg) /\
    (3 # 10 <= q <= 95 # 100 \/ q = 9 # 10).
Proof.
  eexists.
  assert (I : In ?[c]
                (logOf (Raster.resizeJpegToTarget
                          (constantPlatform 200000 false)
                          (mkBlob 2000000 image_png 0)
                          (Raster.mkOptions 100 None None None (Some 1%nat)
                             None (Some 1%nat)) [])))
    by (vm_compute; left; reflexivity).
  destruct (raster_requests (constantPlatform 200000 false)
              (mkBlob 2000000 image_png 0) image_jpeg
              (Raster.mkOptions 100 None None None (Some 1%nat) None
                 (Some 1%nat)) _
              ltac:(vm_compute; discriminate) I) as [m [q H]].
  exists m, q. split; [exact I | exact H].
Defined.

(** ** When a run rejects *)

Lemma resizeRasterToTargetOn_given
    (P : Platform) (file : Blob) (mime : Mime) (opts : Raster.RasterOptions)
    (l : Log) :
  Raster.resizeRasterToTargetOn P true file mime opts l
  = Raster.resizeRasterToTarget P file mime opts l.
Proof.
  unfold Raster.resizeRasterToTargetOn, Raster.resizeRasterToTarget.
  destruct (withinBuffer _ _ _); [reflexivity|].
  unfold bind at 1 3. unfold loadImage.
  destruct (decode P file); reflexivity.
Qed.

Lemma resizePngToTargetOn_given
    (P : Platform) (file : Blob) (opts : Png.ResizeOptions) (l : Log) :
  Png.resizePngToTargetOn P true file opts l
  = Png.resizePngToTarget P file opts l.
Proof.
  unfold Png.resizePngToTargetOn, Png.resizePngToTarget.
  destruct (_ && _); [reflexivity|].
  unfold bind at 1 3. unfold loadImage.
  destruct (decode P file); [|reflexivity].
  unfold ret at 1 3. destruct (size file <=? _); reflexivity.
Qed.

(** X7.  [resizeRasterToTarget] rejects only before it encodes anything,
    and only for an input outside the tolerance band: with [DecodeError]
    when the input cannot be decoded, and with [NullContext] when it
    decodes and no 2D context can be had.  A null blob from
    [canvas.toBlob] never makes it reject: an input that decodes, in a
    browser with a 2D context, always gives a result. *)
Theorem raster_rejects_before_encoding
    (P : Platform) (context2d : bool) (file : Blob) (mime : Mime)
    (opts : Raster.RasterOptions) (l : Log) :
  (withinBuffer (size file) (Raster.targetBytesOf opts)
     (Raster.bufferBytesOf opts) = false ->
   decode P file = None ->
   Raster.resizeRasterToTargetOn P context2d file mime opts l
   = Threw DecodeError l) /\
  (withinBuffer (size file) (Raster.targetBytesOf opts)
     (Raster.bufferBytesOf opts) = false ->
   decode P file <> None -> context2d = false ->
   Raster.resizeRasterToTargetOn P context2d file mime opts l
   = Threw NullContext l) /\
  (forall e l',
     Raster.resizeRasterToTargetOn P context2d file mime opts l = Threw e l' ->
     l' = l /\
     withinBuffer (size file) (Raster.targetBytesOf opts)
       (Raster.bufferBytesOf opts) = false /\
     ((e = DecodeError /\ decode P file = None) \/
      (e = NullContext /\ decode P file <> None /\ context2d = false))) /\
  (decode P file <> None -> context2d = true ->
   exists b l',
     Raster.resizeRasterToTargetOn P context2d file mime opts l
     = Returned b l').
Proof.
  assert (T : withinBuffer (size file) (Raster.targetBytesOf opts)
                (Raster.bufferBytesOf opts) = false ->
              decode P file = None ->
              Raster.resizeRasterToTargetOn P context2d file mime opts l
              = Threw DecodeError l).
  { intros W D. unfold Raster.resizeRasterToTargetOn. rewrite W.
    unfold bind, loadImage. rewrite D. reflexivity. }
  assert (N : withinBuffer (size file) (Raster.targetBytesOf opts)
                (Raster.bufferBytesOf opts) = false ->
              decode P file <> None -> context2d = false ->
              Raster.resizeRasterToTargetOn P context2d file mime opts l
              = Threw NullContext l).
  { intros W D ->. unfold Raster.resizeRasterToTargetOn. rewrite W.
    unfold bind, loadImage.
    destruct (decode P file); [reflexivity | congruence]. }
  assert (R : withinBuffer (size file) (Raster.targetBytesOf opts)
                (Raster.bufferBytesOf opts) = true \/
              (decode P file <> None /\ context2d = true) ->
              exists b l',
                Raster.resizeRasterToTargetOn P context2d file mime opts l
                = Returned b l').
  { destruct (withinBuffer (size file) (Raster.targetBytesOf opts)
                (Raster.bufferBytesOf opts)) eqn:W.
    - intros _. exists file, l. unfold Raster.resizeRasterToTargetOn.
      rewrite W. reflexivity.
    - intros [H|[H ->]]; [discriminate H|].
      destruct (decode P file) as [img|] eqn:D; [|congruence].
      destruct (raster_run_encodes P file mime opts img l W D)
        as [b [l' [E _]]].
      exists b, l'. rewrite resizeRasterToTargetOn_given. exact E. }
  split; [exact T|]. split; [exact N|]. split.
  - intros e l' E.
    destruct (withinBuffer (size file) (Raster.targetBytesOf opts)
                (Raster.bufferBytesOf opts)) eqn:W.
    { destruct R as [b [l'' E']]; [left; reflexivity|]. congruence. }
    destruct (decode P file) as [img|] eqn:D.
    + destruct context2d.
      { destruct R as [b [l'' E']];
          [right; split; [discriminate | reflexivity]|]. congruence. }
      rewrite N in E; [|reflexivity | discriminate | reflexivity].
      injection E as <- <-.
      split; [reflexivity|]. split; [reflexivity|]. right.
      split; [reflexivity|]. split; [discriminate | reflexivity].
    + rewrite (T eq_refl eq_refl) in E. injection E as <- <-. auto.
  - intros D C. apply R. right. auto.
Qed.

Lemma raster_rejects_before_encoding_witness :
  exists b l',
    Raster.resizeRasterToTargetOn nullBlobPlatform true
      (mkBlob 2000000 image_png 0) image_jpeg
      (Raster.mkOptions 100 None None None None None None) []
    = Returned b l'.
Proof.
  apply (proj2 (proj2 (proj2
           (raster_rejects_before_encoding nullBlobPlatform true
              (mkBlob 2000000 image_png 0) image_jpeg
              (Raster.mkOptions 100 None None None None None None) []))));
    [discriminate | reflexivity].
Defined.

Section PngFailures.
Import Png.
Variable P : Platform.
Variable img : Image.
Variables targetBytes bufferBytes minScale : Q.

Lemma failed_render scale l (Q : Blob * Canvas -> Log -> Prop) :
  (forall r l', Q r l') ->
  wp (renderAtScale P img scale) l Q (probeFailed P).
Proof.
  intro H. apply wp_renderAtScale; [intros; apply H|].
  intros cv _ T. split; [reflexivity|]. exists cv, l. auto.
Qed.

Lemma failed_scaleSearch guess n l :
  wp (scaleSearch P img targetBytes guess minScale n) l (fun _ _ => True)
     (probeFailed P).
Proof.
  unfold scaleSearch, searchRounds. apply wp_bind. apply wp_bind.
  unfold tryGuess. apply wp_bind. apply failed_render. intros [b cv] l1.
  assert (Loop : forall st,
            wp (bisectLoop P n img targetBytes minScale st) l1
               (fun st' l' =>
                  wp (forceMinimum P img minScale st') l' (fun _ _ => True)
                     (probeFailed P))
               (probeFailed P)).
  { intro st.
    eapply wp_weaken;
      [apply (wp_bisectLoop P img (fun _ _ _ => True) (probeFailed P)
                targetBytes minScale) with (k := O)
      | | auto].
    - intros k st' l' _ _. unfold bisect. apply wp_bind.
      apply failed_render. intros [b' cv'] l''.
      destruct (size b' >? targetBytes); apply wp_ret; exact I.
    - exact I.
    - intros st' l' _. cbv beta. unfold forceMinimum.
      destruct (bestBlob st'); [apply wp_ret; exact I|].
      apply wp_bind. apply failed_render. intros [b' cv'] l''.
      apply wp_ret. exact I. }
  destruct (size b <=? targetBytes); apply wp_ret; apply Loop.
Qed.

Lemma failed_quantLoop enc colors n :
  forall st l,
    wp (quantLoop P n enc img minScale targetBytes bufferBytes colors st) l
       (fun _ _ => True) (probeFailed P).
Proof.
  induction n as [|n IH]; intros st l; simpl; [apply wp_ret; exact I|].
  destruct (qhigh st - qlow st >? eps); [|apply wp_ret; exact I].
  apply wp_bind. unfold quantBisect. apply wp_bind.
  apply failed_render. intros [b cv] l1.
  apply wp_bind. apply wp_upng_encode. intros q _.
  destruct (size q >? targetBytes); [apply wp_ret; apply IH|].
  destruct (withinBuffer _ _ _); apply wp_ret;
    [apply wp_ret; exact I | apply IH].
Qed.

Lemma failed_finish n uq colors found l :
  wp (finish P img targetBytes bufferBytes minScale n uq colors found) l
     (fun _ _ => True) (probeFailed P).
Proof.
  destruct found as [[b bs] cv]. unfold finish.
  destruct (withinBuffer (size b) targetBytes bufferBytes);
    [apply wp_ret; exact I|].
  destruct uq; [|apply wp_ret; exact I].
  destruct (UPNG P) as [enc|]; [|apply wp_ret; exact I].
  apply wp_bind. apply wp_upng_encode. intros q _.
  destruct (withinBuffer (size q) targetBytes bufferBytes);
    [apply wp_ret; exact I|].
  apply wp_bind. unfold binarySearchWithQuantization.
  eapply wp_weaken; [apply failed_quantLoop | | auto].
  intros [r|] l' _; apply wp_ret; exact I.
Qed.

End PngFailures.

(** X8.  An input of [resizePngToTarget] outside the tolerance band that
    cannot be decoded is rejected with [DecodeError] before any encoder
    call, even when it is smaller than the target; an oversized input
    that decodes is rejected with [NullContext], again before any encoder
    call, when no 2D context can be had.  Without the quantization
    refinement (no UPNG, or [useQuantization] off) the only other
    rejection is [ToBlobFailed], right after a PNG probe for which
    [canvas.toBlob] gave null; so, without the refinement, a run on an
    input that decodes, with a 2D context and a PNG [toBlob] that never
    gives null, always gives a result. *)
Theorem png_rejections
    (P : Platform) (context2d : bool) (file : Blob)
    (opts : Png.ResizeOptions) (l : Log) :
  (withinBuffer (size file) (Png.targetBytesOf opts)
     (Png.bufferBytesOf opts) = false ->
   decode P file = None ->
   Png.resizePngToTargetOn P context2d file opts l = Threw DecodeError l) /\
  (Png.targetBytesOf opts + Png.bufferBytesOf opts < size file ->
   decode P file <> None -> context2d = false ->
   Png.resizePngToTargetOn P context2d file opts l = Threw NullContext l) /\
  (UPNG P = None \/ Png.useQuantizationOf opts = false ->
   forall e l',
     Png.resizePngToTargetOn P context2d file opts l = Threw e l' ->
     (e = DecodeError /\ l' = l /\ decode P file = None) \/
     (e = NullContext /\ l' = l /\ context2d = false) \/
     probeFailed P e l') /\
  (UPNG P = None \/ Png.useQuantizationOf opts = false ->
   context2d = true ->
   (forall n cv, toBlob P n cv image_png None <> None) ->
   decode P file <> None ->
   exists b l', Png.resizePngToTargetOn P context2d file opts l
                = Returned b l').
Proof.
  assert (W : wp (Png.resizePngToTargetOn P context2d file opts) l
                (fun _ _ => True)
                (fun e l' =>
                   (e = DecodeError /\ l' = l /\ decode P file = None) \/
                   (e = NullContext /\ l' = l /\ context2d = false) \/
                   probeFailed P e l')).
  { unfold Png.resizePngToTargetOn.
    destruct (_ && _); [apply wp_ret; exact I|].
    apply wp_bind. apply wp_loadImage; [|intro D; left; auto].
    intros img _. destruct (size file <=? _); [apply wp_ret; exact I|].
    apply wp_bind. unfold useContext.
    destruct context2d; [|right; left; auto].
    apply wp_ret. apply wp_bind.
    eapply wp_weaken;
      [apply failed_scaleSearch | | intros; right; right; assumption].
    intros found l1 _. cbv beta.
    eapply wp_weaken;
      [apply failed_finish | auto | intros; right; right; assumption]. }
  split; [|split; [|split]].
  - intros B D. unfold Png.resizePngToTargetOn.
    unfold withinBuffer in B. rewrite B.
    unfold bind, loadImage. rewrite D. reflexivity.
  - intros S D ->. unfold Png.resizePngToTargetOn.
    assert (C : (size file <=? Png.targetBytesOf opts + Png.bufferBytesOf opts)
                = false) by (apply leb_gt; exact S).
    rewrite C, andb_false_r. unfold bind, loadImage.
    destruct (decode P file); [reflexivity | congruence].
  - intros _ e l' E. unfold wp in W. rewrite E in W. exact W.
  - intros _ C H D. unfold wp in W.
    destruct (Png.resizePngToTargetOn P context2d file opts l) as [b l'|e l'];
      [exists b, l'; reflexivity|].
    exfalso.
    destruct W as [[_ [_ N]]|[[_ [_ N]]|[_ [cv [rest [_ N]]]]]].
    + exact (D N).
    + congruence.
    + exact (H _ _ N).
Qed.

Lemma png_rejections_witness :
  exists e l',
    Png.resizePngToTargetOn nullBlobPlatform true (mkBlob 2000000 image_png 0)
      (Png.mkOptions 150 None None None None None) [] = Threw e l' /\
    ((e = DecodeError /\ l' = [] /\
      decode nullBlobPlatform (mkBlob 2000000 image_png 0) = None) \/
     (e = NullContext /\ l' = [] /\ true = false) \/
     probeFailed nullBlobPlatform e l').
Proof.
  eexists. eexists.
  assert (R : Png.resizePngToTargetOn nullBlobPlatform true
                (mkBlob 2000000 image_png 0)
                (Png.mkOptions 150 None None None None None) []
              = Threw ?[e] ?[l']) by (vm_compute; reflexivity).
  split; [exact R|].
  exact (proj1 (proj2 (proj2 (png_rejections nullBlobPlatform true
                                (mkBlob 2000000 image_png 0)
                                (Png.mkOptions 150 None None None None None)
                                [])))
           (or_introl eq_refl) _ _ R).
Defined.

(** ** What a run returns *)

Lemma renderedWith_cons (l : Log) (b : Blob) (s q : Q) (c : Call) :
  renderedWith l b s q -> renderedWith (c :: l) b s q.
Proof.
  intros [c' [m [I H]]]. exists c', m. split; [right; exact I | exact H].
Qed.

Section RasterResult.
Import Raster.
Variable P : Platform.
Variable file : Blob.
Variable img : Image.
Variable effMime : Mime.
Variables targetBytes bufferBytes minQuality maxQuality : Q.
Variable qualityIterations : nat.
Variable minScale : Q.

(** The scale search returns from inside the loop with a probe within the
    band, and stores only probes under the ceiling. *)
Lemma searchRounds_under_ceiling n l :
  wp (searchRounds P file img effMime targetBytes bufferBytes minQuality
        maxQuality qualityIterations minScale n) l
     (flowPost
        (fun st _ => forall b, bestBlob st = Some b ->
                               size b <= targetBytes + bufferBytes)
        (fun b _ => size b <= targetBytes + bufferBytes))
     noExn.
Proof.
  unfold searchRounds. apply wp_bind. apply wp_seed.
  intros r l1 F1.
  assert (Loop : forall st,
            (forall b, bestBlob st = Some b ->
                       size b <= targetBytes + bufferBytes) ->
            wp (scaleLoop P n img effMime targetBytes bufferBytes
                  minQuality maxQuality qualityIterations minScale st) l1
               (flowPost
                  (fun st _ => forall b, bestBlob st = Some b ->
                                         size b <= targetBytes + bufferBytes)
                  (fun b _ => size b <= targetBytes + bufferBytes))
               noExn).
  { intros st H. apply wp_scaleLoop; [|exact H].
    intros st' l' H' _. apply wp_scaleStep.
    intros r' l2 F2. destruct r' as [b'|]; simpl; [|exact H'].
    split.
    - intro W. apply withinBuffer_iff in W. apply W.
    - intros [S _] b'' E. injection E as <-. exact S. }
  destruct r as [b|]; apply Loop; simpl.
  - intros b' E. injection E as <-. apply F1.
  - discriminate.
Qed.

Lemma phaseB_result n l :
  wp (phaseB P file img effMime targetBytes bufferBytes minQuality maxQuality
        qualityIterations minScale n) l
     (fun b l' =>
        size b <= targetBytes + bufferBytes \/
        renderedWith l' b minScale minQuality \/
        (b = file /\ nullAt minScale minQuality l'))
     noExn.
Proof.
  unfold phaseB. apply wp_bind.
  eapply wp_weaken; [apply searchRounds_under_ceiling | | auto].
  intros f l' H. cbv beta.
  assert (Last : forall st,
            (forall b, bestBlob st = Some b ->
                       size b <= targetBytes + bufferBytes) ->
            wp match bestBlob st with
               | Some b => ret b
               | None =>
                   tiny <- toBlobAsync P (drawAtScale img minScale) effMime
                             (Some minQuality) ;;
                   match tiny with
                   | Some t => ret t
                   | None => ret file
                   end
               end l'
               (fun b l'' =>
                  size b <= targetBytes + bufferBytes \/
                  renderedWith l'' b minScale minQuality \/
                  (b = file /\ nullAt minScale minQuality l''))
               noExn).
  { intros st Hs. destruct (bestBlob st) as [b|].
    - apply wp_ret. left. apply Hs. reflexivity.
    - apply wp_bind. unfold toBlobAsync. apply wp_canvas_toBlob.
      destruct (encoded P l' _ _ _) as [t|]; apply wp_ret; right.
      + left. eexists. exists effMime.
        split; [left; reflexivity|]. repeat split.
      + right. split; [reflexivity|].
        eexists. eexists. exists effMime.
        split; [reflexivity|]. repeat split. }
  destruct f as [st|st|b]; simpl in H;
    [apply Last; exact H | apply Last; exact H | apply wp_ret; left; exact H].
Qed.

End RasterResult.

(** X9.  What [resizeRasterToTarget] returns is not above
    [targetBytes + bufferBytes], except in the last resort, when no probe
    of the scale search fitted: then it is the blob encoded at
    [minQuality] from the canvas drawn at [minScale], whatever its size,
    or, when that encoding gave null, the input file itself. *)
Theorem raster_result_size
    (P : Platform) (file : Blob) (mime : Mime) (opts : Raster.RasterOptions)
    (l0 : Log) (b : Blob) (l : Log) :
  Raster.resizeRasterToTarget P file mime opts l0 = Returned b l ->
  size b <= Raster.targetBytesOf opts + Raster.bufferBytesOf opts \/
  renderedWith l b (Raster.minScaleOf opts) (Raster.minQualityOf opts) \/
  (b = file /\
   nullAt (Raster.minScaleOf opts) (Raster.minQualityOf opts) l).
Proof.
  intro R.
  assert (W : wp (Raster.resizeRasterToTarget P file mime opts) l0
                (fun b l =>
                   size b <= Raster.targetBytesOf opts
                             + Raster.bufferBytesOf opts \/
                   renderedWith l b (Raster.minScaleOf opts)
                     (Raster.minQualityOf opts) \/
                   (b = file /\
                    nullAt (Raster.minScaleOf opts)
                      (Raster.minQualityOf opts) l))
                anyExn).
  { unfold Raster.resizeRasterToTarget.
    destruct (withinBuffer (size file) _ _) eqn:Wf.
    { apply wp_ret. left. apply withinBuffer_iff in Wf. apply Wf. }
    apply wp_bind. apply wp_loadImage; [|intros; exact I]. intros img _.
    apply wp_bind.
    eapply wp_weaken; [apply phaseA_outcome | | intros; exact I].
    intros [m r] l1 [_ F]. simpl in F.
    assert (B : wp (Raster.phaseB P file img m
                      (Raster.targetBytesOf opts) (Raster.bufferBytesOf opts)
                      (Raster.minQualityOf opts) (Raster.maxQualityOf opts)
                      (Raster.qualityIterationsOf opts)
                      (Raster.minScaleOf opts)
                      (Raster.scaleIterationsOf opts)) l1
                   (fun b l =>
                      size b <= Raster.targetBytesOf opts
                                + Raster.bufferBytesOf opts \/
                      renderedWith l b (Raster.minScaleOf opts)
                        (Raster.minQualityOf opts) \/
                      (b = file /\
                       nullAt (Raster.minScaleOf opts)
                         (Raster.minQualityOf opts) l))
                   anyExn).
    { eapply wp_weaken; [apply phaseB_result | auto | intros; exact I]. }
    destruct r as [q|]; [|exact B].
    destruct F as [_ [Sq _]].
    destruct (withinBuffer (size q) _ _); [apply wp_ret; left; exact Sq|].
    destruct (size q >? _); [exact B | apply wp_ret; left; exact Sq]. }
  exact (wp_returned _ _ _ _ _ _ W R).
Qed.

Lemma raster_result_size_witness :
  exists b l,
    Raster.resizeRasterToTarget (constantPlatform 1000000 false)
      (mkBlob 2000000 image_png 0) image_jpeg
      (Raster.mkOptions 100 None None None None None None) []
    = Returned b l /\
    (size b <= 100 * 1024 + 5 * 1024 \/
     renderedWith l b (5 # 100) (3 # 10) \/
     (b = mkBlob 2000000 image_png 0 /\ nullAt (5 # 100) (3 # 10) l)).
Proof.
  eexists. eexists. split; [vm_compute; reflexivity|].
  match goal with
  | |- size ?B <= _ \/ renderedWith ?L _ _ _ \/ _ =>
      assert (R : Raster.resizeRasterToTarget (constantPlatform 1000000 false)
                    (mkBlob 2000000 image_png 0) image_jpeg
                    (Raster.mkOptions 100 None None None None None None) []
                  = Returned B L) by (vm_compute; reflexivity)
  end.
  exact (raster_result_size _ _ _ _ _ _ _ R).
Defined.

Section PngResult.
Import Png.
Variable P : Platform.
Variable img : Image.
Variables targetBytes bufferBytes minScale : Q.

(** What the scale search hands over is under the target, or it is the
    forced render at the larger of [minScale] and [0.01] after no probe
    was under the target. *)
Lemma scaleSearch_result guess n :
  wp (scaleSearch P img targetBytes (clamp guess minScale 1) minScale n) []
     (fun found l =>
        size (fst (fst found)) <= targetBytes \/
        (snd (fst found) = minScale /\
         renderedAt l (fst (fst found)) (Math_max minScale (1 # 100)) /\
         noneConform targetBytes l))
     anyExn.
Proof.
  unfold scaleSearch. apply wp_bind.
  eapply wp_weaken; [apply bracketInv_search | | auto].
  intros st l [_ HI]. cbv beta. apply wp_forceMinimum.
  - intros b E. rewrite E in HI. left. simpl.
    destruct HI as [_ [c [_ [_ [Sz _]]]]]. exact Sz.
  - intro E. rewrite E in HI. apply wp_renderAtScale; [|intros; exact I].
    intros b cv D T. simpl.
    destruct (size b <=? targetBytes) eqn:C; props; [left; exact C|].
    right. split; [reflexivity|]. split.
    + eexists. split; [left; reflexivity|]. split; [reflexivity | exact D].
    + apply noneConform_cons; [exact HI|]. intros _.
      apply oversize_not_conforms. exact C.
Qed.

Lemma quantLoop_under_target enc colors n :
  forall st l,
    (forall q, qbest st = Some q -> size q <= targetBytes) ->
    wp (quantLoop P n enc img minScale targetBytes bufferBytes colors st) l
       (fun r _ =>
          forall q, r = Some q ->
            size q <= targetBytes \/
            withinBuffer (size q) targetBytes bufferBytes = true)
       anyExn.
Proof.
  induction n as [|n IH]; intros st l H; simpl;
    [apply wp_ret; intros q E; left; auto|].
  destruct (qhigh st - qlow st >? eps);
    [|apply wp_ret; intros q E; left; auto].
  apply wp_bind. unfold quantBisect. apply wp_bind.
  apply wp_renderAtScale; [|intros; exact I].
  intros b cv _ _. apply wp_bind. apply wp_upng_encode. intros q _.
  destruct (size q >? targetBytes) eqn:C; props;
    [apply wp_ret; apply IH; exact H|].
  destruct (withinBuffer (size q) targetBytes bufferBytes) eqn:W; apply wp_ret.
  - apply wp_ret. intros q' E. injection E as <-. right. exact W.
  - apply IH. simpl. intros q' E. injection E as <-. exact C.
Qed.

Lemma finish_result n uq colors found l :
  size (fst (fst found)) <= targetBytes \/
  (snd (fst found) = minScale /\
   renderedAt l (fst (fst found)) (Math_max minScale (1 # 100)) /\
   noneConform targetBytes l) ->
  wp (finish P img targetBytes bufferBytes minScale n uq colors found) l
     (fun r l' =>
        size r <= targetBytes \/
        withinBuffer (size r) targetBytes bufferBytes = true \/
        (renderedAt l' r (Math_max minScale (1 # 100)) /\
         noneConform targetBytes l'))
     anyExn.
Proof.
  destruct found as [[b bs] cv]. simpl. intro F. unfold finish.
  assert (Fb : forall w : bool,
               size b <= targetBytes \/ w = true \/
               (renderedAt l b (Math_max minScale (1 # 100)) /\
                noneConform targetBytes l)).
  { intro w. destruct F as [F|[_ F]]; [left; exact F | right; right; exact F]. }
  destruct (withinBuffer (size b) targetBytes bufferBytes) eqn:Wb;
    [apply wp_ret; right; left; exact Wb|].
  destruct uq; [|apply wp_ret; apply Fb].
  destruct (UPNG P) as [enc|]; [|apply wp_ret; apply Fb].
  apply wp_bind. apply wp_upng_encode. intros q Eq.
  set (cq := mkCall cv (UpngEncode colors) (Some q)).
  destruct (withinBuffer (size q) targetBytes bufferBytes) eqn:Wq;
    [apply wp_ret; right; left; exact Wq|].
  apply wp_bind. unfold binarySearchWithQuantization.
  destruct F as [F|[Es [Rb N]]].
  - eapply wp_weaken;
      [apply (quantLoop_under_target enc colors n
                (mkRefine minScale bs None cv) (cq :: l)) | | auto].
    + simpl. discriminate.
    + intros [r|] l' H; apply wp_ret.
      * destruct (H r eq_refl) as [S|S]; [left | right; left]; exact S.
      * left. exact F.
  - unfold wp. rewrite quantLoop_narrow;
      [|simpl; rewrite Es; unfold eps; lra].
    simpl. right. right. split; [apply renderedAt_cons; exact Rb|].
    apply noneConform_cons; [exact N|]. intro Pr. exfalso.
    revert Pr. apply upng_not_probe.
Qed.

End PngResult.

(** X10.  What [resizePngToTarget] returns is not above [targetBytes], or
    within the tolerance band, or the input itself (of at most
    [targetBytes + bufferBytes], with no encoder call), except when no PNG
    probe of the run was under the target: then it is the blob encoded
    from the canvas drawn at the larger of [minScale] and [0.01], whatever
    its size. *)
Theorem png_result_size
    (P : Platform) (file : Blob) (opts : Png.ResizeOptions)
    (b : Blob) (l : Log) :
  Png.resizePngToTarget P file opts [] = Returned b l ->
  size b <= Png.targetBytesOf opts \/
  withinBuffer (size b) (Png.targetBytesOf opts) (Png.bufferBytesOf opts)
  = true \/
  (b = file /\ l = [] /\
   size b <= Png.targetBytesOf opts + Png.bufferBytesOf opts) \/
  (renderedAt l b (Math_max (Png.minScaleOf opts) (1 # 100)) /\
   noneConform (Png.targetBytesOf opts) l).
Proof.
  intro R.
  assert (W : wp (Png.resizePngToTarget P file opts) []
                (fun b l =>
                   size b <= Png.targetBytesOf opts \/
                   withinBuffer (size b) (Png.targetBytesOf opts)
                     (Png.bufferBytesOf opts) = true \/
                   (b = file /\ l = [] /\
                    size b <= Png.targetBytesOf opts
                              + Png.bufferBytesOf opts) \/
                   (renderedAt l b (Math_max (Png.minScaleOf opts) (1 # 100)) /\
                    noneConform (Png.targetBytesOf opts) l))
                anyExn).
  { unfold Png.resizePngToTarget, Png.guessScaleOf.
    destruct (_ && _) eqn:Wf.
    { apply wp_ret. right. left. exact Wf. }
    apply wp_bind. apply wp_loadImage; [|intros; exact I]. intros img _.
    destruct (size file <=? _) eqn:C; props.
    { apply wp_ret. right. right. left. auto. }
    apply wp_bind.
    eapply wp_weaken; [apply scaleSearch_result | | auto].
    intros found l1 F. cbv beta.
    eapply wp_weaken; [apply finish_result; exact F | | auto].
    intros r l2 [H|[H|H]]; auto. }
  exact (wp_returned _ _ _ _ _ _ W R).
Qed.

Lemma png_result_size_witness :
  exists b l,
    Png.resizePngToTarget (constantPlatform 1000000 true)
      (mkBlob 2000000 image_png 0)
      (Png.mkOptions 150 None (Some 2%nat) None None None) []
    = Returned b l /\
    (size b <= 150 * 1024 \/
     withinBuffer (size b) (150 * 1024) (5 * 1024) = true \/
     (b = mkBlob 2000000 image_png 0 /\ l = [] /\
      size b <= 150 * 1024 + 5 * 1024) \/
     (renderedAt l b (Math_max (5 # 100) (1 # 100)) /\
      noneConform (150 * 1024) l)).
Proof.
  eexists. eexists. split; [vm_compute; reflexivity|].
  match goal with
  | |- size ?B <= _ \/ _ =>
    match goal with
    | |- _ \/ _ \/ (_ /\ ?L = [] /\ _) \/ _ =>
      assert (R : Png.resizePngToTarget (constantPlatform 1000000 true)
                    (mkBlob 2000000 image_png 0)
                    (Png.mkOptions 150 None (Some 2%nat) None None None) []
                  = Returned B L) by (vm_compute; reflexivity)
    end
  end.
  exact (png_result_size _ _ _ _ _ R).
Defined.

(** ** The quantization refinement *)

Section Refinement.
Import Png.
Variable P : Platform.
Variable enc : nat -> Canvas -> Q -> Q.
Variable img : Image.
Variables minScale targetBytes bufferBytes colors : Q.

Lemma quantLoop_outputs n :
  forall st l0 l,
    (exists new,
       l = new ++ l0 /\
       (forall c q, In c new -> quantized c -> produced c = Some q ->
                    qbest st = None -> targetBytes < size q) /\
       (forall q, qbest st = Some q ->
          size q <= targetBytes /\
          exists c, In c new /\ request c = UpngEncode colors /\
                    produced c = Some q)) ->
    wp (quantLoop P n enc img minScale targetBytes bufferBytes colors st) l
       (fun r l' =>
          exists new,
            l' = new ++ l0 /\
            match r with
            | Some q =>
                size q <= targetBytes /\
                exists c, In c new /\ request c = UpngEncode colors /\
                          produced c = Some q
            | None =>
                forall c q, In c new -> quantized c -> produced c = Some q ->
                            targetBytes < size q
            end)
       anyExn.
Proof.
  assert (Done : forall st l0 l,
            (exists new,
               l = new ++ l0 /\
               (forall c q, In c new -> quantized c -> produced c = Some q ->
                            qbest st = None -> targetBytes < size q) /\
               (forall q, qbest st = Some q ->
                  size q <= targetBytes /\
                  exists c, In c new /\ request c = UpngEncode colors /\
                            produced c = Some q)) ->
            exists new,
              l = new ++ l0 /\
              match qbest st with
              | Some q =>
                  size q <= targetBytes /\
                  exists c, In c new /\ request c = UpngEncode colors /\
                            produced c = Some q
              | None =>
                  forall c q, In c new -> quantized c -> produced c = Some q ->
                              targetBytes < size q
              end).
  { intros st l0 l [new [E [HN HS]]]. exists new. split; [exact E|].
    destruct (qbest st) as [q|].
    - apply HS. reflexivity.
    - intros c q I Qc Pd. exact (HN c q I Qc Pd eq_refl). }
  induction n as [|n IH]; intros st l0 l H; simpl;
    [apply wp_ret; apply Done; exact H|].
  destruct (qhigh st - qlow st >? eps); [|apply wp_ret; apply Done; exact H].
  destruct H as [new [E [HN HS]]]. subst l.
  apply wp_bind. unfold quantBisect. apply wp_bind.
  apply wp_renderAtScale; [|intros; exact I].
  intros b cv _ _. apply wp_bind. apply wp_upng_encode. intros q _.
  set (c1 := mkCall cv (ToBlob image_png None) (Some b)).
  set (c2 := mkCall cv (UpngEncode colors) (Some q)).
  destruct (size q >? targetBytes) eqn:C; props.
  - apply wp_ret. apply IH. exists (c2 :: c1 :: new).
    split; [reflexivity|]. simpl. split.
    + intros c q' [<-|[<-|I']] Qc Pd B.
      * simpl in Pd. injection Pd as <-. exact C.
      * destruct Qc as [k Qc]. discriminate Qc.
      * exact (HN c q' I' Qc Pd B).
    + intros q' B. destruct (HS q' B) as [S [c [I' R]]].
      split; [exact S|]. exists c. split; [right; right; exact I' | exact R].
  - assert (Hq : size q <= targetBytes /\
                 exists c, In c (c2 :: c1 :: new) /\
                           request c = UpngEncode colors /\
                           produced c = Some q).
    { split; [exact C|]. exists c2.
      split; [left; reflexivity|]. split; reflexivity. }
    destruct (withinBuffer (size q) targetBytes bufferBytes); apply wp_ret.
    + apply wp_ret. exists (c2 :: c1 :: new). split; [reflexivity | exact Hq].
    + apply IH. exists (c2 :: c1 :: new). split; [reflexivity|]. simpl. split.
      * intros c q' _ _ _ B. discriminate B.
      * intros q' B. injection B as <-. exact Hq.
Qed.

End Refinement.

(** X11.  What [binarySearchWithQuantization] returns: a blob is the
    output of one of its own [UPNG.encode] calls and is not above
    [targetBytes]; null means that every [UPNG.encode] it made gave a blob
    above [targetBytes].  It makes no call and returns null when
    [startScale] is not above [minScale]. *)
Theorem quantization_refinement_result
    (P : Platform) (enc : nat -> Canvas -> Q -> Q) (img : Image)
    (cv : Canvas) (startScale minScale targetBytes bufferBytes : Q)
    (maxIterations : nat) (colors : Q) (l : Log) :
  (forall r l',
     Png.binarySearchWithQuantization P enc img cv startScale minScale
       targetBytes bufferBytes maxIterations colors l = Returned r l' ->
     exists new,
       l' = new ++ l /\
       match r with
       | Some q =>
           size q <= targetBytes /\
           exists c, In c new /\ request c = UpngEncode colors /\
                     produced c = Some q
       | None =>
           forall c q, In c new -> quantized c -> produced c = Some q ->
                       targetBytes < size q
       end) /\
  (startScale <= minScale ->
   Png.binarySearchWithQuantization P enc img cv startScale minScale
     targetBytes bufferBytes maxIterations colors l = Returned None l).
Proof.
  split.
  - intros r l' R.
    refine (wp_returned _ _ _ _ _ _
              (quantLoop_outputs P enc img minScale targetBytes bufferBytes
                 colors maxIterations
                 (Png.mkRefine minScale startScale None cv) l l _) R).
    exists []. split; [reflexivity|]. split.
    + intros c q [].
    + simpl. discriminate.
  - intro W. unfold Png.binarySearchWithQuantization.
    apply (quantLoop_narrow P img targetBytes bufferBytes minScale enc colors
             maxIterations (Png.mkRefine minScale startScale None cv) l).
    simpl. unfold eps. lra.
Qed.

Lemma quantization_refinement_result_witness :
  exists l',
    Png.binarySearchWithQuantization (constantPlatform 1000000 true)
      (fun _ _ _ => 1000000) sampleImage Png.newCanvas 1 (5 # 100)
      (150 * 1024) (5 * 1024) 2 256 [] = Returned None l' /\
    exists new,
      l' = new ++ [] /\
      forall c q, In c new -> quantized c -> produced c = Some q ->
                  150 * 1024 < size q.
Proof.
  eexists.
  assert (R : Png.binarySearchWithQuantization (constantPlatform 1000000 true)
                (fun _ _ _ => 1000000) sampleImage Png.newCanvas 1 (5 # 100)
                (150 * 1024) (5 * 1024) 2 256 [] = Returned None ?[l'])
    by (vm_compute; reflexivity).
  split; [exact R|].
  exact (proj1 (quantization_refinement_result _ _ _ _ _ _ _ _ _ _ _) _ _ R).
Defined.

(** ** A target that cannot be met *)

Section PngExhausted.
Import Png.
Variable P : Platform.
Variable img : Image.
Variables targetBytes bufferBytes minScale : Q.
Hypothesis Above : alwaysAbove P targetBytes.
Hypothesis Wide : eps < minScale.

(** While every probe is above the target [low] stays 0 and [high] stays
    at least [minScale], so the bracket never gets narrow: the guess, all
    the rounds and the forced minimum are encoded. *)
Lemma scaleSearch_exhausts x n l :
  wp (scaleSearch P img targetBytes (clamp x minScale 1) minScale n) l
     (fun found l' =>
        (length l' = length l + n + 2)%nat /\
        snd (fst found) = minScale /\
        targetBytes < size (fst (fst found)))
     noExn.
Proof.
  unfold scaleSearch, searchRounds. apply wp_bind. apply wp_bind.
  apply wp_tryGuess.
  2:{ intros cv _ T. exfalso. revert T. apply (above_not_None P _ Above). }
  intros b cv D T c.
  assert (S := above_size P _ Above _ _ _ T). split; [lra|]. intros _.
  eapply wp_weaken;
    [apply (wp_bisectLoop P img
              (fun k st l' =>
                 bestBlob st = None /\ low st = 0 /\ minScale <= high st /\
                 (length l' = length l + 1 + k)%nat)
              noExn targetBytes minScale) with (k := O)
    | | auto].
  - intros k st l' [B [L [H N]]] W. apply wp_bisect.
    2:{ intros cv' _ T'. exfalso. revert T'.
        apply (above_not_None P _ Above). }
    intros b' cv' D' T' c'. assert (S' := above_size P _ Above _ _ _ T').
    split; [|lra]. intros _. simpl.
    split; [exact B|]. split; [exact L|].
    split; [apply clamp_lower | lia].
  - simpl. split; [reflexivity|]. split; [reflexivity|].
    split; [apply clamp_lower | lia].
  - intros st l' [m [[B [L [H N]]] [->|Narrow]]]; cbv beta.
    2:{ exfalso. rewrite L in Narrow. lra. }
    apply wp_forceMinimum.
    + intros b' E. congruence.
    + intros _. apply wp_renderAtScale.
      2:{ intros cv' _ T'. exfalso. revert T'.
          apply (above_not_None P _ Above). }
      intros b' cv' D' T'. simpl.
      split; [lia|]. split; [reflexivity|].
      apply (above_size P _ Above _ _ _ T').
Qed.

End PngExhausted.



(** ** Rounding *)

Lemma Math_round_comp (x y : Q) : x == y -> Math_round x = Math_round y.
Proof.
  intro E. unfold Math_round. apply Qfloor_comp. rewrite E. reflexivity.
Qed.

Lemma Math_round_mono (x y : Q) :
  x <= y -> (Math_round x <= Math_round y)%Z.
Proof.
  intro H. unfold Math_round. apply Qfloor_resp_le. lra.
Qed.

(** A rounded number is within a half of the number. *)
Lemma Math_round_bounds (x : Q) :
  x - (1 # 2) < inject_Z (Math_round x) /\
  inject_Z (Math_round x) <= x + (1 # 2).
Proof.
  unfold Math_round. split.
  - assert (H := Qlt_floor (x + (1 # 2))).
    rewrite inject_Z_plus in H. change (inject_Z 1) with 1 in H. lra.
  - apply Qfloor_le.
Qed.

Lemma Math_round_Z (a : Z) : Math_round (inject_Z a) = a.
Proof.
  destruct (Math_round_bounds (inject_Z a)) as [L U].
  assert (L' : inject_Z a < inject_Z (Math_round (inject_Z a) + 1)).
  { rewrite inject_Z_plus. change (inject_Z 1) with 1. lra. }
  assert (U' : inject_Z (Math_round (inject_Z a)) < inject_Z (a + 1)).
  { rewrite inject_Z_plus. change (inject_Z 1) with 1. lra. }
  rewrite <- Zlt_Qlt in L', U'. lia.
Qed.

(** Half of a difference of integers, rounded. *)
Lemma Math_round_half (a w : Z) :
  (a - w - 1 < 2 * Math_round ((inject_Z a - inject_Z w) / 2)
   <= a - w + 1)%Z.
Proof.
  destruct (Math_round_bounds ((inject_Z a - inject_Z w) / 2)) as [L U].
  set (r := Math_round ((inject_Z a - inject_Z w) / 2)) in *.
  assert (E : (inject_Z a - inject_Z w) / 2
              == (inject_Z a - inject_Z w) * (1 # 2)) by field.
  rewrite E in L, U.
  assert (L' : inject_Z (a - w - 1) < inject_Z (2 * r)).
  { unfold Z.sub. rewrite !inject_Z_plus, !inject_Z_opp, inject_Z_mult.
    change (inject_Z 1) with 1. change (inject_Z 2) with 2. lra. }
  assert (U' : inject_Z (2 * r) <= inject_Z (a - w + 1)).
  { unfold Z.sub. rewrite !inject_Z_plus, !inject_Z_opp, inject_Z_mult.
    change (inject_Z 1) with 1. change (inject_Z 2) with 2. lra. }
  rewrite <- Zlt_Qlt in L'. rewrite <- Zle_Qle in U'. lia.
Qed.

Lemma scaled_back (h x : Q) : 0 < h -> h * (x / h) == x.
Proof. intro H. field. lra. Qed.

(** Scaling a side [h] by at most [b / h] and rounding gives at most
    [b]; by at least [b / h], at least [b]. *)
Lemma round_scale_le (h s : Q) (b : Z) :
  0 < h -> s <= inject_Z b / h -> (Math_round (h * s) <= b)%Z.
Proof.
  intros H L. apply Z.le_trans with (Math_round (inject_Z b));
    [|rewrite Math_round_Z; lia].
  apply Math_round_mono.
  assert (E := scaled_back h (inject_Z b) H). nra.
Qed.

Lemma round_scale_ge (h s : Q) (b : Z) :
  0 < h -> inject_Z b / h <= s -> (b <= Math_round (h * s))%Z.
Proof.
  intros H L. apply Z.le_trans with (Math_round (inject_Z b));
    [rewrite Math_round_Z; lia|].
  apply Math_round_mono.
  assert (E := scaled_back h (inject_Z b) H). nra.
Qed.

Lemma round_scale_eq (h : Q) (b : Z) :
  0 < h -> Math_round (h * (inject_Z b / h)) = b.
Proof.
  intro H. rewrite (Math_round_comp _ _ (scaled_back h (inject_Z b) H)).
  apply Math_round_Z.
Qed.

Lemma positive_side (n : Z) : (0 < n)%Z -> 0 < inject_Z n.
Proof.
  intro H. change 0 with (inject_Z 0). rewrite <- Zlt_Qlt. exact H.
Qed.

(** ** The transparency test *)

(** The scan from index [i] in steps of four finds a byte below 255
    exactly when there is one, provided [n] rounds are enough to reach
    the end of the data. *)
Lemma alphaScan_finds (data : list Z) :
  forall n i,
    (length data <= i + 4 * n)%nat ->
    Dimensions.alphaScan n data i = true <->
    exists k a, nth_error data (i + 4 * k) = Some a /\ (a < 255)%Z.
Proof.
  induction n as [|n IH]; intros i F; cbn [Dimensions.alphaScan].
  - split; [discriminate|]. intros [k [a [E _]]]. exfalso.
    assert (N : nth_error data (i + 4 * k) <> None) by congruence.
    apply nth_error_Some in N. lia.
  - destruct (i <? length data)%nat eqn:C.
    + apply Nat.ltb_lt in C.
      destruct (nth_error data i) as [a|] eqn:E;
        [|apply nth_error_None in E; lia].
      destruct (a <? 255)%Z eqn:A.
      * apply Z.ltb_lt in A. split; [|reflexivity]. intros _.
        exists O, a. rewrite Nat.add_0_r. auto.
      * apply Z.ltb_ge in A. rewrite IH by lia. split.
        -- intros [k [a' [E' A']]]. exists (S k), a'.
           replace (i + 4 * S k)%nat with (i + 4 + 4 * k)%nat by lia. auto.
        -- intros [k [a' [E' A']]]. destruct k as [|k].
           ++ rewrite Nat.add_0_r in E'. rewrite E in E'.
              injection E' as <-. lia.
           ++ exists k, a'.
              replace (i + 4 + 4 * k)%nat with (i + 4 * S k)%nat by lia. auto.
    + apply Nat.ltb_ge in C. split; [discriminate|].
      intros [k [a [E _]]]. exfalso.
      assert (N : nth_error data (i + 4 * k) <> None) by congruence.
      apply nth_error_Some in N. lia.
Qed.

(** X13.  [hasTransparency] answers [true] exactly when a 2D context can
    be had, the pixels of the image drawn on a canvas of at most 100 by
    100 can be read, and one of the bytes at the indices 3, 7, 11, ...
    (the alpha channel) is below 255; when a [catch] is reached it answers
    [false]. *)
Theorem hasTransparency_finds_alpha
    (B : Dimensions.Browser) (img : Image) :
  Dimensions.hasTransparency B img = true <->
  Dimensions.context2d B = true /\
  exists data,
    Dimensions.getImageData B img (Z.min (naturalWidth img) 100)
      (Z.min (naturalHeight img) 100) = Some data /\
    exists k a, nth_error data (4 * k + 3) = Some a /\ (a < 255)%Z.
Proof.
  unfold Dimensions.hasTransparency.
  destruct (Dimensions.context2d B); [|split; [discriminate | intros [H _]; discriminate H]].
  destruct (Dimensions.getImageData B img _ _) as [data|].
  - rewrite alphaScan_finds by lia. split.
    + intros [k [a [E A]]]. split; [reflexivity|]. exists data.
      split; [reflexivity|]. exists k, a.
      replace (4 * k + 3)%nat with (3 + 4 * k)%nat by lia. auto.
    + intros [_ [data' [E [k [a [E' A]]]]]]. injection E as <-.
      exists k, a.
      replace (3 + 4 * k)%nat with (4 * k + 3)%nat by lia. auto.
  - split; [discriminate|]. intros [_ [data [E _]]]. discriminate E.
Qed.

Lemma hasTransparency_finds_alpha_witness :
  Dimensions.hasTransparency (sampleBrowser (twoPixels 0)) sampleImage = true.
Proof.
  apply (proj2 (hasTransparency_finds_alpha (sampleBrowser (twoPixels 0))
                  sampleImage)).
  split; [reflexivity|]. exists (twoPixels 0). split; [reflexivity|].
  exists 1%nat, 0%Z. split; reflexivity.
Defined.

(** ** Where the image is drawn *)

(** An image side [w] centred on a canvas side [a] by a rounded offset
    stays on the canvas when it is not longer, and covers the canvas when
    it is not shorter. *)
Lemma centred_inside (a w : Z) :
  (w <= a)%Z ->
  0 <= inject_Z (Math_round ((inject_Z a - inject_Z w) / 2)) /\
  inject_Z (Math_round ((inject_Z a - inject_Z w) / 2)) + inject_Z w
  <= inject_Z a.
Proof.
  intro H. assert (R := Math_round_half a w).
  change 0 with (inject_Z 0). rewrite <- inject_Z_plus, <- !Zle_Qle. lia.
Qed.

Lemma centred_covering (a w : Z) :
  (a <= w)%Z ->
  inject_Z (Math_round ((inject_Z a - inject_Z w) / 2)) <= 0 /\
  inject_Z a
  <= inject_Z (Math_round ((inject_Z a - inject_Z w) / 2)) + inject_Z w.
Proof.
  intro H. assert (R := Math_round_half a w).
  change 0 with (inject_Z 0). rewrite <- inject_Z_plus, <- !Zle_Qle. lia.
Qed.

(** X14.  In fit mode, for an image of positive size and integer target
    dimensions, [resizeToDimensions] gives the canvas the target size,
    fills it with a colour that is never empty, and draws the image inside
    the canvas: the rectangle does not leave the canvas, and it spans the
    full width or the full height. *)
Theorem fit_keeps_image_inside
    (B : Dimensions.Browser) (img : Image)
    (settings : Dimensions.ResizeSettings)
    (orig : Dimensions.OriginalDimensions) (a b : Z) :
  (0 < naturalWidth img)%Z -> (0 < naturalHeight img)%Z ->
  Dimensions.fitMode settings = Some Dimensions.fit ->
  Dimensions.targetDimensions settings orig = (inject_Z a, inject_Z b) ->
  let d := fst (fst (Dimensions.encodeRequest B img settings orig)) in
  Dimensions.canvas_width d = inject_Z a /\
  Dimensions.canvas_height d = inject_Z b /\
  0 <= Dimensions.dx d /\
  Dimensions.dx d + Dimensions.dWidth d <= inject_Z a /\
  0 <= Dimensions.dy d /\
  Dimensions.dy d + Dimensions.dHeight d <= inject_Z b /\
  (Dimensions.dWidth d = inject_Z a \/ Dimensions.dHeight d = inject_Z b) /\
  Dimensions.truthyString (Dimensions.fill d) = true.
Proof.
  intros Hw Hh F T d. subst d. unfold Dimensions.encodeRequest.
  rewrite T, F. cbn [dflt fst snd]. unfold Dimensions.drawFit.
  cbn [Dimensions.canvas_width Dimensions.canvas_height Dimensions.dx
       Dimensions.dy Dimensions.dWidth Dimensions.dHeight Dimensions.fill].
  apply positive_side in Hw, Hh.
  split; [reflexivity|]. split; [reflexivity|].
  destruct (Math_min_cases (inject_Z a / inject_Z (naturalWidth img))
              (inject_Z b / inject_Z (naturalHeight img)))
    as [[L E]|[L E]]; rewrite E.
  - rewrite (round_scale_eq _ a Hw).
    assert (Sh := round_scale_le _ _ b Hh L).
    destruct (centred_inside a a (Z.le_refl a)) as [X1 X2].
    destruct (centred_inside b _ Sh) as [Y1 Y2].
    repeat split; auto.
    destruct (Dimensions.backgroundColor settings) as [[|c0 s0]|];
      reflexivity.
  - rewrite (round_scale_eq _ b Hh).
    assert (Sw := round_scale_le _ _ a Hw (Qlt_le_weak _ _ L)).
    destruct (centred_inside a _ Sw) as [X1 X2].
    destruct (centred_inside b b (Z.le_refl b)) as [Y1 Y2].
    repeat split; auto.
    destruct (Dimensions.backgroundColor settings) as [[|c0 s0]|];
      reflexivity.
Qed.

Lemma fit_keeps_image_inside_witness :
  exists d,
    d = fst (fst (Dimensions.encodeRequest (sampleBrowser (twoPixels 255))
                    sampleImage
                    (sampleSettings Dimensions.fit false String.EmptyString)
                    sampleOriginal)) /\
    Dimensions.canvas_width d = inject_Z 400 /\
    Dimensions.canvas_height d = inject_Z 300 /\
    0 <= Dimensions.dx d /\
    Dimensions.dx d + Dimensions.dWidth d <= inject_Z 400 /\
    0 <= Dimensions.dy d /\
    Dimensions.dy d + Dimensions.dHeight d <= inject_Z 300 /\
    (Dimensions.dWidth d = inject_Z 400 \/
     Dimensions.dHeight d = inject_Z 300) /\
    Dimensions.truthyString (Dimensions.fill d) = true.
Proof.
  eexists. split; [reflexivity|].
  apply (fit_keeps_image_inside (sampleBrowser (twoPixels 255)) sampleImage
           (sampleSettings Dimensions.fit false String.EmptyString)
           sampleOriginal 400 300); reflexivity.
Defined.

(** X15.  In crop mode, for an image of positive size and integer target
    dimensions, [resizeToDimensions] gives the canvas the target size,
    fills nothing, and draws the image over the whole canvas: the
    rectangle starts at or before the origin, ends at or after the far
    edges, and has exactly the width or the height of the canvas. *)
Theorem crop_covers_canvas
    (B : Dimensions.Browser) (img : Image)
    (settings : Dimensions.ResizeSettings)
    (orig : Dimensions.OriginalDimensions) (a b : Z) :
  (0 < naturalWidth img)%Z -> (0 < naturalHeight img)%Z ->
  Dimensions.fitMode settings = Some Dimensions.crop ->
  Dimensions.targetDimensions settings orig = (inject_Z a, inject_Z b) ->
  let d := fst (fst (Dimensions.encodeRequest B img settings orig)) in
  Dimensions.canvas_width d = inject_Z a /\
  Dimensions.canvas_height d = inject_Z b /\
  Dimensions.dx d <= 0 /\
  inject_Z a <= Dimensions.dx d + Dimensions.dWidth d /\
  Dimensions.dy d <= 0 /\
  inject_Z b <= Dimensions.dy d + Dimensions.dHeight d /\
  (Dimensions.dWidth d = inject_Z a \/ Dimensions.dHeight d = inject_Z b) /\
  Dimensions.fill d = None.
Proof.
  intros Hw Hh F T d. subst d. unfold Dimensions.encodeRequest.
  rewrite T, F. cbn [dflt fst snd]. unfold Dimensions.drawCrop.
  cbn [Dimensions.canvas_width Dimensions.canvas_height Dimensions.dx
       Dimensions.dy Dimensions.dWidth Dimensions.dHeight Dimensions.fill].
  apply positive_side in Hw, Hh.
  split; [reflexivity|]. split; [reflexivity|].
  destruct (Math_max_cases (inject_Z a / inject_Z (naturalWidth img))
              (inject_Z b / inject_Z (naturalHeight img)))
    as [[L E]|[L E]]; rewrite E.
  - rewrite (round_scale_eq _ b Hh).
    assert (Sw := round_scale_ge _ _ a Hw L).
    destruct (centred_covering a _ Sw) as [X1 X2].
    destruct (centred_covering b b (Z.le_refl b)) as [Y1 Y2].
    repeat split; auto.
  - rewrite (round_scale_eq _ a Hw).
    assert (Sh := round_scale_ge _ _ b Hh (Qlt_le_weak _ _ L)).
    destruct (centred_covering a a (Z.le_refl a)) as [X1 X2].
    destruct (centred_covering b _ Sh) as [Y1 Y2].
    repeat split; auto.
Qed.

Lemma crop_covers_canvas_witness :
  exists d,
    d = fst (fst (Dimensions.encodeRequest (sampleBrowser (twoPixels 255))
                    sampleImage
                    (sampleSettings Dimensions.crop false String.EmptyString)
                    sampleOriginal)) /\
    Dimensions.canvas_width d = inject_Z 400 /\
    Dimensions.canvas_height d = inject_Z 300 /\
    Dimensions.dx d <= 0 /\
    inject_Z 400 <= Dimensions.dx d + Dimensions.dWidth d /\
    Dimensions.dy d <= 0 /\
    inject_Z 300 <= Dimensions.dy d + Dimensions.dHeight d /\
    (Dimensions.dWidth d = inject_Z 400 \/
     Dimensions.dHeight d = inject_Z 300) /\
    Dimensions.fill d = None.
Proof.
  eexists. split; [reflexivity|].
  apply (crop_covers_canvas (sampleBrowser (twoPixels 255)) sampleImage
           (sampleSettings Dimensions.crop false String.EmptyString)
           sampleOriginal 400 300); reflexivity.
Defined.

Lemma ratio_at_least_one (h x : Q) : 0 < h -> 1 <= x / h -> h <= x.
Proof.
  intros H L. assert (E := scaled_back h x H). nra.
Qed.

Lemma round_shrunk (n : Z) (s : Q) :
  0 < inject_Z n -> s <= 1 -> (Math_round (inject_Z n * s) <= n)%Z.
Proof.
  intros H L. apply Z.le_trans with (Math_round (inject_Z n));
    [|rewrite Math_round_Z; lia].
  apply Math_round_mono. nra.
Qed.

(** X16.  In not-enlarge mode, for an image of positive size and integer
    target dimensions, the canvas of [resizeToDimensions] is never larger
    than the image and never larger than the target box, and the image is
    drawn over the whole of it.  The canvas has the size of the image, or
    the width or the height of the target box. *)
Theorem not_enlarge_never_enlarges
    (B : Dimensions.Browser) (img : Image)
    (settings : Dimensions.ResizeSettings)
    (orig : Dimensions.OriginalDimensions) (a b : Z) :
  (0 < naturalWidth img)%Z -> (0 < naturalHeight img)%Z ->
  Dimensions.fitMode settings = Some Dimensions.not_enlarge ->
  Dimensions.targetDimensions settings orig = (inject_Z a, inject_Z b) ->
  let d := fst (fst (Dimensions.encodeRequest B img settings orig)) in
  Dimensions.canvas_width d <= inject_Z (naturalWidth img) /\
  Dimensions.canvas_height d <= inject_Z (naturalHeight img) /\
  Dimensions.canvas_width d <= inject_Z a /\
  Dimensions.canvas_height d <= inject_Z b /\
  Dimensions.dx d = 0 /\ Dimensions.dy d = 0 /\
  Dimensions.dWidth d = Dimensions.canvas_width d /\
  Dimensions.dHeight d = Dimensions.canvas_height d /\
  ((Dimensions.canvas_width d = inject_Z (naturalWidth img) /\
    Dimensions.canvas_height d = inject_Z (naturalHeight img)) \/
   Dimensions.canvas_width d = inject_Z a \/
   Dimensions.canvas_height d = inject_Z b).
Proof.
  intros Hw Hh F T d. subst d. unfold Dimensions.encodeRequest.
  rewrite T, F. cbn [dflt fst snd]. unfold Dimensions.drawNotEnlarge.
  apply positive_side in Hw, Hh.
  destruct (Math_min _ _ >=? 1) eqn:C; props;
    cbn [Dimensions.canvas_width Dimensions.canvas_height Dimensions.dx
         Dimensions.dy Dimensions.dWidth Dimensions.dHeight].
  - assert (Rw : 1 <= inject_Z a / inject_Z (naturalWidth img)).
    { destruct (Math_min_cases (inject_Z a / inject_Z (naturalWidth img))
                  (inject_Z b / inject_Z (naturalHeight img)))
        as [[L E]|[L E]]; rewrite E in C; lra. }
    assert (Rh : 1 <= inject_Z b / inject_Z (naturalHeight img)).
    { destruct (Math_min_cases (inject_Z a / inject_Z (naturalWidth img))
                  (inject_Z b / inject_Z (naturalHeight img)))
        as [[L E]|[L E]]; rewrite E in C; lra. }
    apply ratio_at_least_one in Rw, Rh; try assumption.
    repeat split; auto; try apply Qle_refl.
  - assert (Sw := round_shrunk (naturalWidth img) _ Hw (Qlt_le_weak _ _ C)).
    assert (Sh := round_shrunk (naturalHeight img) _ Hh (Qlt_le_weak _ _ C)).
    rewrite Zle_Qle in Sw, Sh.
    destruct (Math_min_cases (inject_Z a / inject_Z (naturalWidth img))
                (inject_Z b / inject_Z (naturalHeight img)))
      as [[L E]|[L E]]; rewrite E in *.
    + assert (Tb := round_scale_le _ _ b Hh L). rewrite Zle_Qle in Tb.
      rewrite (round_scale_eq _ a Hw) in *.
      repeat split; auto; try apply Qle_refl.
    + assert (Ta := round_scale_le _ _ a Hw (Qlt_le_weak _ _ L)).
      rewrite Zle_Qle in Ta.
      rewrite (round_scale_eq _ b Hh) in *.
      repeat split; auto; try apply Qle_refl.
Qed.

Lemma not_enlarge_never_enlarges_witness :
  exists d,
    d = fst (fst (Dimensions.encodeRequest (sampleBrowser (twoPixels 255))
                    sampleImage
                    (sampleSettings Dimensions.not_enlarge false
                       String.EmptyString)
                    sampleOriginal)) /\
    Dimensions.canvas_width d <= inject_Z 1000 /\
    Dimensions.canvas_height d <= inject_Z 1000 /\
    Dimensions.canvas_width d <= inject_Z 400 /\
    Dimensions.canvas_height d <= inject_Z 300 /\
    Dimensions.dx d = 0 /\ Dimensions.dy d = 0 /\
    Dimensions.dWidth d = Dimensions.canvas_width d /\
    Dimensions.dHeight d = Dimensions.canvas_height d /\
    ((Dimensions.canvas_width d = inject_Z 1000 /\
      Dimensions.canvas_height d = inject_Z 1000) \/
     Dimensions.canvas_width d = inject_Z 400 \/
     Dimensions.canvas_height d = inject_Z 300).
Proof.
  eexists. split; [reflexivity|].
  apply (not_enlarge_never_enlarges (sampleBrowser (twoPixels 255))
           sampleImage
           (sampleSettings Dimensions.not_enlarge false String.EmptyString)
           sampleOriginal 400 300); reflexivity.
Defined.

(** X17.  In stretch mode with [maintainAspectRatio], for original
    dimensions that are positive integers and integer target dimensions
    with a positive height, [resizeToDimensions] shrinks one side of the
    target box: the canvas is never larger than the box, keeps the target
    height or the target width, and its other side is at most a half away
    from what the aspect ratio of the original asks for (both bounds
    included).  The image is drawn over the whole canvas. *)
Theorem stretch_keeps_aspect_within_box
    (B : Dimensions.Browser) (img : Image)
    (settings : Dimensions.ResizeSettings)
    (orig : Dimensions.OriginalDimensions) (ow oh a b : Z) :
  Dimensions.original_width orig = inject_Z ow ->
  Dimensions.original_height orig = inject_Z oh ->
  (0 < ow)%Z -> (0 < oh)%Z -> (0 < b)%Z ->
  dflt Dimensions.stretch (Dimensions.fitMode settings) = Dimensions.stretch ->
  Dimensions.maintainAspectRatio settings = Some true ->
  Dimensions.targetDimensions settings orig = (inject_Z a, inject_Z b) ->
  let d := fst (fst (Dimensions.encodeRequest B img settings orig)) in
  let aspectRatio := inject_Z ow / inject_Z oh in
  Dimensions.canvas_width d <= inject_Z a /\
  Dimensions.canvas_height d <= inject_Z b /\
  Dimensions.dx d = 0 /\ Dimensions.dy d = 0 /\
  Dimensions.dWidth d = Dimensions.canvas_width d /\
  Dimensions.dHeight d = Dimensions.canvas_height d /\
  ((Dimensions.canvas_height d = inject_Z b /\
    inject_Z b * aspectRatio - (1 # 2) <= Dimensions.canvas_width d /\
    Dimensions.canvas_width d <= inject_Z b * aspectRatio + (1 # 2)) \/
   (Dimensions.canvas_width d = inject_Z a /\
    inject_Z a / aspectRatio - (1 # 2) <= Dimensions.canvas_height d /\
    Dimensions.canvas_height d <= inject_Z a / aspectRatio + (1 # 2))).
Proof.
  intros Ew Eh Ow Oh Hb F K T d aspectRatio. subst d.
  unfold Dimensions.encodeRequest.
  rewrite T, F. cbn [fst snd]. unfold Dimensions.drawStretch.
  rewrite K, Ew, Eh. cbn [dflt]. fold aspectRatio.
  apply positive_side in Ow, Oh, Hb.
  assert (Ar : 0 < aspectRatio).
  { assert (E := scaled_back (inject_Z oh) (inject_Z ow) Oh).
    fold aspectRatio in E. nra. }
  assert (Ea := scaled_back (inject_Z b) (inject_Z a) Hb).
  destruct (inject_Z a / inject_Z b >? aspectRatio) eqn:C; props;
    cbn [Dimensions.canvas_width Dimensions.canvas_height Dimensions.dx
         Dimensions.dy Dimensions.dWidth Dimensions.dHeight].
  - assert (Sw : (Math_round (inject_Z b * aspectRatio) <= a)%Z).
    { apply Z.le_trans with (Math_round (inject_Z a));
        [|rewrite Math_round_Z; lia].
      apply Math_round_mono. nra. }
    rewrite Zle_Qle in Sw.
    destruct (Math_round_bounds (inject_Z b * aspectRatio)) as [L U].
    apply Qlt_le_weak in L.
    repeat split; auto; try apply Qle_refl.
  - assert (Eb : aspectRatio * (inject_Z a / aspectRatio) == inject_Z a)
      by (apply scaled_back; exact Ar).
    assert (Sh : (Math_round (inject_Z a / aspectRatio) <= b)%Z).
    { apply Z.le_trans with (Math_round (inject_Z b));
        [|rewrite Math_round_Z; lia].
      apply Math_round_mono. nra. }
    rewrite Zle_Qle in Sh.
    destruct (Math_round_bounds (inject_Z a / aspectRatio)) as [L U].
    apply Qlt_le_weak in L.
    repeat split; auto; try apply Qle_refl.
Qed.

Lemma stretch_keeps_aspect_within_box_witness :
  exists d,
    d = fst (fst (Dimensions.encodeRequest (sampleBrowser (twoPixels 255))
                    sampleImage
                    (sampleSettings Dimensions.stretch true String.EmptyString)
                    sampleOriginal)) /\
    Dimensions.canvas_width d <= inject_Z 400 /\
    Dimensions.canvas_height d <= inject_Z 300 /\
    Dimensions.dx d = 0 /\ Dimensions.dy d = 0 /\
    Dimensions.dWidth d = Dimensions.canvas_width d /\
    Dimensions.dHeight d = Dimensions.canvas_height d /\
    ((Dimensions.canvas_height d = inject_Z 300 /\
      inject_Z 300 * (inject_Z 1000 / inject_Z 1000) - (1 # 2)
      <= Dimensions.canvas_width d /\
      Dimensions.canvas_width d
      <= inject_Z 300 * (inject_Z 1000 / inject_Z 1000) + (1 # 2)) \/
     (Dimensions.canvas_width d = inject_Z 400 /\
      inject_Z 400 / (inject_Z 1000 / inject_Z 1000) - (1 # 2)
      <= Dimensions.canvas_height d /\
      Dimensions.canvas_height d
      <= inject_Z 400 / (inject_Z 1000 / inject_Z 1000) + (1 # 2))).
Proof.
  eexists. split; [reflexivity|].
  apply (stretch_keeps_aspect_within_box (sampleBrowser (twoPixels 255))
           sampleImage
           (sampleSettings Dimensions.stretch true String.EmptyString)
           sampleOriginal 1000 1000 400 300); reflexivity.
Defined.

(** ** The type and the quality asked of the encoder *)

Section OutputType.
Import String.

Lemma mime_png (finalFormat : string) :
  ("image/" ++ finalFormat)%string = "image/png"%string <->
  finalFormat = "png"%string.
Proof.
  split; intro H; [|subst; reflexivity].
  simpl in H. injection H as H. exact H.
Qed.

Lemma qualityParam_None (settings : Dimensions.ResizeSettings)
    (finalFormat : string) (down : bool) :
  Dimensions.qualityParam settings finalFormat down = None <->
  finalFormat = "png"%string.
Proof.
  unfold Dimensions.qualityParam.
  destruct (finalFormat =? "png")%string eqn:E.
  - apply String.eqb_eq in E. tauto.
  - apply String.eqb_neq in E.
    destruct (down && _); split; try discriminate; intro; contradiction.
Qed.

Lemma qualityParam_floor (settings : Dimensions.ResizeSettings)
    (finalFormat : string) :
  finalFormat = "webp"%string \/ finalFormat = "avif"%string ->
  exists v,
    Dimensions.qualityParam settings finalFormat true = Some v /\
    7 # 10 <= v /\ Dimensions.quality settings / 100 <= v.
Proof.
  intro H. exists (Math_max (7 # 10) (Dimensions.quality settings / 100)).
  split.
  - destruct H as [-> | ->]; reflexivity.
  - destruct (Math_max_cases (7 # 10) (Dimensions.quality settings / 100))
      as [[L E]|[L E]]; rewrite E; lra.
Qed.

(** X18.  The type [resizeToDimensions] asks the encoder for is PNG, WebP,
    JPEG or the requested format, and the request is overridden: when PNG
    is supported an image found transparent is encoded as PNG, and when
    WebP is supported an image found opaque is encoded as WebP unless PNG
    was requested without downscaling.  The quality is left out exactly
    for PNG, and a downscaled WebP or AVIF is never asked for below 0.7,
    whatever quality was requested. *)
Theorem resize_output_type
    (B : Dimensions.Browser) (img : Image)
    (settings : Dimensions.ResizeSettings)
    (orig : Dimensions.OriginalDimensions) :
  let mime := snd (fst (Dimensions.encodeRequest B img settings orig)) in
  let quality := snd (Dimensions.encodeRequest B img settings orig) in
  let down :=
    Dimensions.isDownscalingOf img
      (fst (Dimensions.targetDimensions settings orig))
      (snd (Dimensions.targetDimensions settings orig)) in
  (mime = "image/png" \/ mime = "image/webp" \/ mime = "image/jpeg" \/
   mime = "image/" ++ Dimensions.format settings)%string /\
  (Dimensions.isFormatSupported B "png" = true ->
   Dimensions.hasTransparency B img = true ->
   mime = "image/png"%string) /\
  (Dimensions.isFormatSupported B "webp" = true ->
   Dimensions.hasTransparency B img = false ->
   down = true \/ Dimensions.format settings <> "png"%string ->
   mime = "image/webp"%string) /\
  (quality = None <-> mime = "image/png"%string) /\
  (down = true ->
   mime = "image/webp"%string \/ mime = "image/avif"%string ->
   exists v,
     quality = Some v /\ 7 # 10 <= v /\
     Dimensions.quality settings / 100 <= v).
Proof.
  unfold Dimensions.encodeRequest.
  destruct (Dimensions.targetDimensions settings orig) as [tw th].
  cbn [fst snd].
  set (down := Dimensions.isDownscalingOf img tw th).
  set (optimal := Dimensions.getOptimalFormat (Dimensions.format settings)
                    down (Dimensions.hasTransparency B img)).
  set (finalFormat := if Dimensions.isFormatSupported B optimal
                      then optimal else Dimensions.format settings).
  assert (Opt : optimal = "png"%string \/ optimal = "webp"%string \/
                optimal = "jpeg"%string).
  { unfold optimal, Dimensions.getOptimalFormat.
    destruct down, (Dimensions.hasTransparency B img),
      (Dimensions.format settings =? "png")%string; auto. }
  split; [|split; [|split; [|split]]].
  - unfold finalFormat.
    destruct (Dimensions.isFormatSupported B optimal); [|auto].
    destruct Opt as [-> |[-> | ->]]; auto.
  - intros S Tr.
    assert (O : optimal = "png"%string).
    { unfold optimal, Dimensions.getOptimalFormat. rewrite Tr.
      destruct down; reflexivity. }
    unfold finalFormat. rewrite O, S. reflexivity.
  - intros S Tr D.
    assert (O : optimal = "webp"%string).
    { unfold optimal, Dimensions.getOptimalFormat. rewrite Tr.
      destruct down; [reflexivity|].
      destruct D as [D|D]; [discriminate D|].
      apply String.eqb_neq in D. rewrite D. reflexivity. }
    unfold finalFormat. rewrite O, S. reflexivity.
  - rewrite qualityParam_None, mime_png. tauto.
  - intros D M. rewrite D.
    apply qualityParam_floor.
    destruct M as [M|M]; simpl in M; injection M as M; auto.
Qed.

Lemma resize_output_type_witness :
  snd (fst (Dimensions.encodeRequest (sampleBrowser (twoPixels 0))
              sampleImage (sampleSettings Dimensions.stretch false "jpeg")
              sampleOriginal))
  = "image/png"%string.
Proof.
  apply (proj1 (proj2 (resize_output_type (sampleBrowser (twoPixels 0))
                         sampleImage
                         (sampleSettings Dimensions.stretch false "jpeg")
                         sampleOriginal)));
    reflexivity.
Defined.

End OutputType.
